(** * BMP280 X11 monitor: the acquisition-and-retention pipeline

    A shallow embedding of [bmp280_x11_gui5.cpp]: the ring buffer of
    samples with its lazy smoothing cache ([CircularBuffer]), the serial
    line reader ([read_serial], [process_line], [parse_value]), the
    reconnection policy ([try_reconnect]), the CSV persistence
    ([save_data], [load_data]) and the exit path of [main].

    Conventions.
    - [size_t] and [time_t] values are integers of [Z]; the only unsigned
      expression that can wrap, the ring index computation, is written
      with [wrap64].  [int] arithmetic is checked: a signed overflow is
      undefined behaviour and is reported as [Undefined].
    - [float] is IEEE-754 binary32, computed by the Standard Library's
      executable specification [SpecFloat] at precision 24 / emax 128.
    - A C++ call that can throw or touch memory out of bounds returns an
      [outcome]; everything else is a total function with explicit state.
    - The C and C++ run-time library is not part of the program; the
      modules [Libc] ([strtof], [std::stof]) and [Stream] (insertion and
      extraction of [float], [long] and [char], [std::getline]) hold
      executable models of the routines the program calls, for the "C"
      locale.  The environment (clock, serial line, file system, keys)
      enters every call as an explicit [world].
    - The calls of [std::filesystem] that can throw on an error of the
      operating system, [exists] and [create_directory], are taken to
      answer: a [filesystem_error], which is a [runtime_error] and ends
      [main] through its [catch], is not a result of the model.  The
      line [add_error] appends to [logs/errors.log] is left out: the
      files of the model are the files other than that log. *)

From Stdlib Require Import ZArith String Ascii Lia Bool.
From Stdlib Require Import Floats.SpecFloat.
From stdpp Require Import base list.

Open Scope Z_scope.

(** ** Outcomes of a C++ call *)

Inductive exn : Type :=
| out_of_range (what : string)
| invalid_argument (what : string)
| runtime_error (what : string).

Inductive outcome (A : Type) : Type :=
| Ret (a : A)
| Throw (e : exn)
| Undefined.

Arguments Ret {A} a.
Arguments Throw {A} e.
Arguments Undefined {A}.

Definition bind {A B : Type} (m : outcome A) (k : A -> outcome B) : outcome B :=
  match m with
  | Ret a => k a
  | Throw e => Throw e
  | Undefined => Undefined
  end.

Notation "x <- m ;; k" := (bind m (fun x => k))
  (at level 100, m at next level, right associativity).

Definition of_option {A : Type} (o : option A) : outcome A :=
  match o with
  | Some a => Ret a
  | None => Undefined
  end.

(** ** Machine integers *)

Definition wrap64 (x : Z) : Z := x mod 2 ^ 64.

Definition INT_MIN : Z := - 2 ^ 31.
Definition INT_MAX : Z := 2 ^ 31 - 1.

Definition in_int (x : Z) : bool := (INT_MIN <=? x) && (x <=? INT_MAX).

Definition int_checked (x : Z) : outcome Z :=
  if in_int x then Ret x else Undefined.

Definition int_add (a b : Z) : outcome Z := int_checked (a + b).
Definition int_sub (a b : Z) : outcome Z := int_checked (a - b).
(** [a / b] on [int] truncates toward zero. *)
Definition int_div (a b : Z) : outcome Z :=
  if b =? 0 then Undefined else int_checked (Z.quot a b).

(** [static_cast<int>] of a [size_t]: the value modulo [2^32], read as a
    signed integer. *)
Definition static_cast_int (x : Z) : Z :=
  (x + 2 ^ 31) mod 2 ^ 32 - 2 ^ 31.

(** ** binary32 *)

Module F32.
Definition prec : Z := 24.
Definition emax : Z := 128.

Definition float : Type := spec_float.

Definition zero : float := S754_zero false.
Definition of_int (n : Z) : float := binary_normalize prec emax n 0 false.
Definition add : float -> float -> float := SFadd prec emax.
Definition div : float -> float -> float := SFdiv prec emax.
Definition eqb : float -> float -> bool := SFeqb.
Definition leb : float -> float -> bool := SFleb.
(** [x >= y] *)
Definition geb (x y : float) : bool := SFleb y x.
End F32.

Abbreviation float := F32.float.

(** ** The sample record and the ring buffer *)

Definition MAX_POINTS : Z := 300.
Definition BUFFER_SIZE : Z := 256.
Definition RECONNECT_TIMEOUT : Z := 5.

Record DataPoint : Type := mkDataPoint {
  temperature : float;
  pressure : float;
  timestamp : Z
}.

Module CircularBuffer.

Record t : Type := mk {
  buffer : list DataPoint;
  head : Z;
  size : Z;
  temp_cache : list float;
  press_cache : list float
}.

(** The constructor leaves the array of samples uninitialised: [mem] is
    whatever the storage held. *)
Definition new (mem : list DataPoint) : t :=
  {| buffer := mem; head := 0; size := 0;
     temp_cache := replicate (Z.to_nat MAX_POINTS) F32.zero;
     press_cache := replicate (Z.to_nat MAX_POINTS) F32.zero |}.

(** [std::fill(cache.begin(), cache.end(), 0.0f)] *)
Definition fill_zero (cache : list float) : list float :=
  replicate (length cache) F32.zero.

Definition push (b : t) (point : DataPoint) : t :=
  {| buffer := <[Z.to_nat (head b) := point]> (buffer b);
     head := (head b + 1) mod MAX_POINTS;
     size := if size b <? MAX_POINTS then size b + 1 else size b;
     temp_cache := fill_zero (temp_cache b);
     press_cache := fill_zero (press_cache b) |}.

Definition get_size (b : t) : Z := size b.

(** Physical slot of a logical index: [(head + MAX_POINTS - size + index) % MAX_POINTS]. *)
Definition slot (b : t) (index : Z) : Z :=
  wrap64 (head b + MAX_POINTS - size b + index) mod MAX_POINTS.

(** [operator[]] *)
Definition at_ (b : t) (index : Z) : outcome DataPoint :=
  if size b =? 0 then Throw (out_of_range "Buffer is empty")
  else of_option (buffer b !! Z.to_nat (slot b index)).

Definition clear (b : t) : t :=
  {| buffer := buffer b; head := 0; size := 0;
     temp_cache := fill_zero (temp_cache b);
     press_cache := fill_zero (press_cache b) |}.

Definition field (is_temp : bool) (d : DataPoint) : float :=
  if is_temp then temperature d else pressure d.

Definition cache (is_temp : bool) (b : t) : list float :=
  if is_temp then temp_cache b else press_cache b.

Definition set_cache (is_temp : bool) (b : t) (c : list float) : t :=
  if is_temp
  then {| buffer := buffer b; head := head b; size := size b;
          temp_cache := c; press_cache := press_cache b |}
  else {| buffer := buffer b; head := head b; size := size b;
          temp_cache := temp_cache b; press_cache := c |}.

(** The summation loop of [smooth_value], from [i] up to [hi] inclusive;
    [fuel] bounds the number of iterations. *)
Fixpoint smooth_loop (fuel : nat) (b : t) (is_temp : bool) (i hi : Z)
    (sum : float) (count : Z) : outcome (float * Z) :=
  if i <=? hi then
    match fuel with
    | O => Undefined
    | S fuel' =>
        d <- of_option (buffer b !! Z.to_nat (slot b i)) ;;
        count' <- int_add count 1 ;;
        i' <- int_add i 1 ;;
        smooth_loop fuel' b is_temp i' hi (F32.add sum (field is_temp d)) count'
    end
  else Ret (sum, count).

Definition smooth_value (b : t) (is_temp : bool) (index : Z) (window : Z)
    : outcome (float * t) :=
  if size b =? 0 then Ret (F32.zero, b)
  else
    let index := Z.min index (wrap64 (size b - 1)) in
    c <- of_option (cache is_temp b !! Z.to_nat index) ;;
    if F32.eqb c F32.zero then
      half <- int_div window 2 ;;
      lo0 <- int_sub (static_cast_int index) half ;;
      hi0 <- int_add (static_cast_int index) half ;;
      last <- int_sub (static_cast_int (size b)) 1 ;;
      let lo := Z.max 0 lo0 in
      let hi := Z.min last hi0 in
      r <- smooth_loop (Z.to_nat (hi + 1 - lo)) b is_temp lo hi F32.zero 0 ;;
      v <- (if snd r >? 0
            then Ret (F32.div (fst r) (F32.of_int (snd r)))
            else d <- of_option (buffer b !! Z.to_nat (slot b index)) ;;
                 Ret (field is_temp d)) ;;
      if (Z.to_nat index <? length (cache is_temp b))%nat
      then Ret (v, set_cache is_temp b (<[Z.to_nat index := v]> (cache is_temp b)))
      else Undefined
    else Ret (c, b).

(** Representation invariant of the class. *)
Record wf (b : t) : Prop := {
  wf_buffer : length (buffer b) = Z.to_nat MAX_POINTS;
  wf_head : 0 <= head b < MAX_POINTS;
  wf_size : 0 <= size b <= MAX_POINTS;
  wf_temp_cache : length (temp_cache b) = Z.to_nat MAX_POINTS;
  wf_press_cache : length (press_cache b) = Z.to_nat MAX_POINTS
}.

(** The retained samples in logical order, oldest first: the ring read
    from its start slot. *)
Definition logical (b : t) : list DataPoint :=
  take (Z.to_nat (size b))
    (drop (Z.to_nat (slot b 0)) (buffer b ++ buffer b)).

(** The specification's smoothing: the arithmetic mean, in binary32 and
    summed in index order, of the field at logical indices
    [max 0 (i - w/2)] to [min (size - 1) (i + w/2)]. *)
Definition fsum (l : list float) : float := foldl F32.add F32.zero l.

Definition neighbours (b : t) (is_temp : bool) (i w : Z) : list float :=
  let lo := Z.max 0 (i - Z.quot w 2) in
  let hi := Z.min (size b - 1) (i + Z.quot w 2) in
  field is_temp <$> take (Z.to_nat (hi + 1 - lo)) (drop (Z.to_nat lo) (logical b)).

Definition mean (l : list float) : float :=
  F32.div (fsum l) (F32.of_int (Z.of_nat (length l))).

(** The value a cache miss stores: the mean of the neighbours, or the raw
    field when the window selects no neighbour at all. *)
Definition fresh (b : t) (is_temp : bool) (i w : Z) : float :=
  match neighbours b is_temp i w with
  | [] => default F32.zero (field is_temp <$> logical b !! Z.to_nat i)
  | nb => mean nb
  end.

(** The cache invariant: below the size, an entry that does not compare
    equal to zero is the smoothed value of the current contents. *)
Definition cache_ok (b : t) : Prop :=
  forall is_temp i c,
    0 <= i < size b ->
    cache is_temp b !! Z.to_nat i = Some c ->
    F32.eqb c F32.zero = false ->
    c = fresh b is_temp i 5.

(** States reachable through the public interface, [smooth_value] being
    called with its default window as everywhere in the program. *)
Inductive reachable : t -> Prop :=
| reach_new mem : length mem = Z.to_nat MAX_POINTS -> reachable (new mem)
| reach_push b p : reachable b -> reachable (push b p)
| reach_clear b : reachable b -> reachable (clear b)
| reach_smooth b is_temp index v b' :
    reachable b -> 0 <= index < 2 ^ 64 ->
    smooth_value b is_temp index 5 = Ret (v, b') -> reachable b'.

End CircularBuffer.

(** ** Text *)

(** A [std::string] or a [char] buffer is a list of bytes. *)
Definition text : Type := list ascii.

Definition chars (s : string) : text := list_ascii_of_string s.

Definition code (c : ascii) : Z := Z.of_N (N_of_ascii c).

Definition char_eqb (a b : ascii) : bool := Ascii.eqb a b.

Definition newline : ascii := ascii_of_N 10.

(** ** The run-time library *)

Module Libc.

Definition isspace (c : ascii) : bool :=
  (code c =? 32) || ((9 <=? code c) && (code c <=? 13)).

Definition isdigit (c : ascii) : bool := (48 <=? code c) && (code c <=? 57).

Definition digit_value (c : ascii) : Z := code c - 48.

Definition digit_char (d : Z) : ascii := ascii_of_N (Z.to_N (48 + d mod 10)).

Definition tolower (c : ascii) : ascii :=
  if (65 <=? code c) && (code c <=? 90) then ascii_of_N (Z.to_N (code c + 32)) else c.

Definition isxdigit (c : ascii) : bool :=
  isdigit c || ((97 <=? code (tolower c)) && (code (tolower c) <=? 102)).

Definition xdigit_value (c : ascii) : Z :=
  if isdigit c then digit_value c else code (tolower c) - 87.

Definition isalnum_ (c : ascii) : bool :=
  isdigit c || ((97 <=? code (tolower c)) && (code (tolower c) <=? 122)) || (code c =? 95).

Fixpoint skipws (s : text) : text :=
  match s with
  | c :: s' => if isspace c then skipws s' else s
  | [] => []
  end.

(** The longest prefix of characters satisfying [p], and what follows. *)
Fixpoint span (p : ascii -> bool) (s : text) : text * text :=
  match s with
  | c :: s' => if p c then (c :: fst (span p s'), snd (span p s')) else ([], s)
  | [] => ([], [])
  end.

Definition number (base : Z) (value : ascii -> Z) (ds : text) : Z :=
  foldl (fun acc c => acc * base + value c) 0 ds.

Definition decimal (ds : text) : Z := number 10 digit_value ds.

(** An optional sign: whether it is a minus, and what follows. *)
Definition sign (s : text) : bool * text :=
  match s with
  | c :: s' => if code c =? 45 then (true, s')
               else if code c =? 43 then (false, s') else (false, s)
  | [] => (false, [])
  end.

(** *** Decimal and binary scientific notation to binary32

    [strtof] rounds the exact value of the digits once, to nearest with
    ties to even. *)

Definition finite (neg : bool) (m : Z) : float :=
  match m with
  | Zpos p => S754_finite neg p 0
  | _ => S754_zero neg
  end.

(** [mant * base^e], for base 10 or 2, correctly rounded. *)
Definition scaled_to_float (neg : bool) (mant : Z) (base e : Z) : float :=
  if mant <=? 0 then S754_zero neg
  else if 0 <=? e
  then binary_normalize F32.prec F32.emax
         ((if neg then -1 else 1) * (mant * base ^ e)) 0 false
  else SFdiv F32.prec F32.emax (finite neg mant) (finite false (base ^ (- e))).

(** Whether [x], the rounding of [mant * base^e], differs from it. *)
Definition inexact (x : float) (mant : Z) (base e : Z) : bool :=
  match x with
  | S754_finite _ m ex =>
      negb (Zpos m * 2 ^ Z.max ex 0 * base ^ Z.max (- e) 0
            =? mant * base ^ Z.max e 0 * 2 ^ Z.max (- ex) 0)
  | S754_zero _ => 0 <? mant
  | _ => true
  end.

Definition is_infinite (x : float) : bool :=
  match x with S754_infinity _ => true | _ => false end.

Definition is_subnormal_or_zero (x : float) : bool :=
  match x with
  | S754_finite _ m _ => Zpos (digits2_pos m) <? F32.prec
  | S754_zero _ => true
  | _ => false
  end.

(** [ERANGE]: the value overflowed, or it is tiny and was rounded. *)
Definition erange (x : float) (mant : Z) (base e : Z) : bool :=
  is_infinite x || (is_subnormal_or_zero x && inexact x mant base e).

(** *** [strtof] *)

Record conversion : Type := mkConversion {
  conv_value : float;
  conv_rest : text;       (* from [*endptr] on *)
  conv_erange : bool      (* [errno == ERANGE] *)
}.

(** The exponent part [e[+-]ddd] (or [p[+-]ddd]); it is consumed only when
    at least one digit follows. *)
Definition exponent (marker : Z) (s : text) : Z * text :=
  match s with
  | c :: s' =>
      if code (tolower c) =? marker then
        let '(neg, s1) := sign s' in
        let '(ds, s2) := span isdigit s1 in
        match ds with
        | [] => (0, s)
        | _ => ((if neg then - decimal ds else decimal ds), s2)
        end
      else (0, s)
  | [] => (0, s)
  end.

(** Digits with an optional point: the integer and fraction digits and
    what follows; [None] when there is no digit at all. *)
Definition mantissa (isd : ascii -> bool) (s : text) : option (text * text * text) :=
  let '(ip, s1) := span isd s in
  let '(fp, s2) :=
    match s1 with
    | c :: s1' => if code c =? 46 then span isd s1' else ([], s1)
    | [] => ([], s1)
    end in
  match ip ++ fp with
  | [] => None
  | _ => Some (ip, fp, s2)
  end.

Definition strtof_decimal (neg : bool) (s : text) : option conversion :=
  match mantissa isdigit s with
  | None => None
  | Some (ip, fp, s1) =>
      let '(e, s2) := exponent 101 s1 in
      let m := decimal (ip ++ fp) in
      let e10 := e - Z.of_nat (length fp) in
      let x := scaled_to_float neg m 10 e10 in
      Some (mkConversion x s2 (erange x m 10 e10))
  end.

(** After [0x]: hexadecimal digits and a binary exponent. *)
Definition strtof_hex (neg : bool) (s : text) : option conversion :=
  match mantissa isxdigit s with
  | None => None
  | Some (ip, fp, s1) =>
      let '(e, s2) := exponent 112 s1 in
      let m := number 16 xdigit_value (ip ++ fp) in
      let e2 := e - 4 * Z.of_nat (length fp) in
      let x := scaled_to_float neg m 2 e2 in
      Some (mkConversion x s2 (erange x m 2 e2))
  end.

(** [strip_prefix p s]: what follows [p] in [s], letters compared without
    case. *)
Fixpoint strip_prefix (p s : text) : option text :=
  match p, s with
  | [], _ => Some s
  | a :: p', c :: s' => if char_eqb a (tolower c) then strip_prefix p' s' else None
  | _ :: _, [] => None
  end.

(** The optional [(n-char-sequence)] after [nan]. *)
Definition nan_payload (s : text) : text :=
  match s with
  | c :: s' =>
      if code c =? 40 then
        match snd (span isalnum_ s') with
        | c' :: s'' => if code c' =? 41 then s'' else s
        | [] => s
        end
      else s
  | [] => s
  end.

Definition strtof (nptr : text) : option conversion :=
  let '(neg, s) := sign (skipws nptr) in
  match strip_prefix (chars "infinity") s with
  | Some r => Some (mkConversion (S754_infinity neg) r false)
  | None =>
  match strip_prefix (chars "inf") s with
  | Some r => Some (mkConversion (S754_infinity neg) r false)
  | None =>
  match strip_prefix (chars "nan") s with
  | Some r => Some (mkConversion S754_nan (nan_payload r) false)
  | None =>
  match strip_prefix (chars "0x") s with
  | Some r =>
      match strtof_hex neg r with
      | Some c => Some c
      | None => strtof_decimal neg s
      end
  | None => strtof_decimal neg s
  end end end end.

(** [std::stof]: [invalid_argument] when nothing converts, [out_of_range]
    on [ERANGE]. *)
Definition stof (str : text) : outcome float :=
  match strtof str with
  | None => Throw (invalid_argument "stof")
  | Some c => if conv_erange c then Throw (out_of_range "stof") else Ret (conv_value c)
  end.

End Libc.

(** ** Stream insertion and extraction

    [std::ostream] and [std::istream] with their default flags: decimal
    base, [skipws] set, floating-point precision 6 in the general ([%g])
    format. *)

Module Stream.

Definition LONG_MAX : Z := 2 ^ 63 - 1.
Definition LONG_MIN : Z := - 2 ^ 63.

(** *** Insertion *)

(** The decimal digits of [n >= 0], most significant first. *)
Fixpoint digits_fuel (fuel : nat) (n : Z) : text :=
  match fuel with
  | O => []
  | S fuel' =>
      (if n <? 10 then [] else digits_fuel fuel' (n / 10)) ++ [Libc.digit_char n]
  end.

Definition digits (n : Z) : text := digits_fuel (S (Z.to_nat (Z.log2 n))) n.

(** [out << n] for a [long]. *)
Definition put_long (n : Z) : text :=
  if n <? 0 then chars "-" ++ digits (- n) else digits n.

(** [out << c] for a [char]. *)
Definition put_char (c : ascii) : text := [c].

(** [n / d] rounded to the nearest integer, ties to even. *)
Definition round_half_even (n d : Z) : Z :=
  let q := n / d in
  let r := n mod d in
  match 2 * r ?= d with
  | Lt => q
  | Gt => q + 1
  | Eq => if Z.even q then q else q + 1
  end.

(** The six significant decimal digits [D] and the decimal exponent [X] of
    the positive value [m * 2^e]: the value rounds to [D * 10^(X - 5)]
    with [10^5 <= D < 10^6]. *)
Definition six_digits (m : positive) (e : Z) : Z * Z :=
  let p := Zpos m * 2 ^ Z.max e 0 in
  let q := 2 ^ Z.max (- e) 0 in
  let scaled X := (p * 10 ^ Z.max (5 - X) 0, q * 10 ^ Z.max (X - 5) 0) in
  let est := Z.of_nat (length (digits p)) - Z.of_nat (length (digits q)) in
  let X := if fst (scaled est) <? 10 ^ 5 * snd (scaled est) then est - 1 else est in
  let D := round_half_even (fst (scaled X)) (snd (scaled X)) in
  if D =? 10 ^ 6 then (10 ^ 5, X + 1) else (D, X).

Fixpoint strip_zeros (ds : text) : text :=
  match ds with
  | [] => []
  | c :: ds' =>
      match strip_zeros ds' with
      | [] => if code c =? 48 then [] else [c]
      | r => c :: r
      end
  end.

Definition fraction (ds : text) : text :=
  match strip_zeros ds with
  | [] => []
  | r => chars "." ++ r
  end.

Definition six (D : Z) : text :=
  [Libc.digit_char (D / 100000); Libc.digit_char (D / 10000);
   Libc.digit_char (D / 1000); Libc.digit_char (D / 100);
   Libc.digit_char (D / 10); Libc.digit_char D].

(** The [%g] rendering of a positive finite value at precision 6: fixed
    notation when [-4 <= X < 6], scientific otherwise, trailing zeros of
    the fraction removed. *)
Definition general (m : positive) (e : Z) : text :=
  let '(D, X) := six_digits m e in
  let ds := six D in
  if (-4 <=? X) && (X <? 6) then
    if 0 <=? X
    then take (Z.to_nat (X + 1)) ds ++ fraction (drop (Z.to_nat (X + 1)) ds)
    else chars "0" ++ fraction (replicate (Z.to_nat (- X - 1)) (Libc.digit_char 0) ++ ds)
  else
    take 1 ds ++ fraction (drop 1 ds) ++ chars "e"
      ++ (if X <? 0 then chars "-" else chars "+")
      ++ (if Z.abs X <? 10 then chars "0" else []) ++ digits (Z.abs X).

Definition minus (neg : bool) : text := if neg then chars "-" else [].

(** [out << x] for a [float]. *)
Definition put_float (x : float) : text :=
  match x with
  | S754_zero s => minus s ++ chars "0"
  | S754_infinity s => minus s ++ chars "inf"
  | S754_nan => chars "nan"
  | S754_finite s m e => minus s ++ general m e
  end.

(** *** Extraction

    An extraction either fails, which leaves the stream failed for the
    rest of the chain, or yields a value and the unread input. *)

(** [in >> c] for a [char]. *)
Definition get_char (s : text) : option (ascii * text) :=
  match Libc.skipws s with
  | c :: s' => Some (c, s')
  | [] => None
  end.

(** [in >> n] for a [long]: an optional sign and decimal digits. *)
Definition get_long (s : text) : option (Z * text) :=
  match Libc.skipws s with
  | [] => None
  | c :: s0 =>
      let neg := code c =? 45 in
      let s1 := if neg || (code c =? 43) then s0 else c :: s0 in
      let '(ds, s2) := Libc.span Libc.isdigit s1 in
      match ds with
      | [] => None
      | _ =>
          let n := if neg then - Libc.decimal ds else Libc.decimal ds in
          if (LONG_MIN <=? n) && (n <=? LONG_MAX) then Some (n, s2) else None
      end
  end.

(** The characters [num_get] accumulates for a floating-point value after
    the sign and the leading zeros: digits, one decimal point before any
    exponent, one exponent marker after a digit, with its sign. *)
Fixpoint accumulate (s : text) (found_mantissa found_dec found_sci : bool)
    : text * text :=
  match s with
  | [] => ([], [])
  | c :: s' =>
      if Libc.isdigit c then
        let r := accumulate s' true found_dec found_sci in (c :: fst r, snd r)
      else if (code c =? 46) && negb found_dec && negb found_sci then
        let r := accumulate s' found_mantissa true found_sci in (c :: fst r, snd r)
      else if ((code c =? 101) || (code c =? 69)) && negb found_sci && found_mantissa then
        match s' with
        | [] => (chars "e", [])
        | c2 :: s'' =>
            if (code c2 =? 43) || (code c2 =? 45) then
              let r := accumulate s'' found_mantissa found_dec true in
              (chars "e" ++ c2 :: fst r, snd r)
            else
              let r := accumulate s' found_mantissa found_dec true in
              (chars "e" ++ fst r, snd r)
        end
      else ([], s)
  end.

Fixpoint skip_zeros (s : text) : text :=
  match s with
  | c :: s' => if code c =? 48 then skip_zeros s' else s
  | [] => []
  end.

Definition starts_with_zero (s : text) : bool :=
  match s with
  | c :: _ => code c =? 48
  | [] => false
  end.

(** The sign, one zero for any run of leading zeros, then [accumulate]. *)
Definition extract_float (s : text) : text * text :=
  let '(sg, s1) :=
    match s with
    | c :: s' => if (code c =? 43) || (code c =? 45) then ([c], s') else ([], s)
    | [] => ([], s)
    end in
  let z := starts_with_zero s1 in
  let r := accumulate (skip_zeros s1) z false false in
  (sg ++ (if z then chars "0" else []) ++ fst r, snd r).

(** [in >> x] for a [float]: the accumulated characters must convert as a
    whole, and an overflow fails the extraction. *)
Definition get_float (s : text) : option (float * text) :=
  match Libc.skipws s with
  | [] => None
  | s0 =>
      let '(xtrc, rest) := extract_float s0 in
      match Libc.strtof xtrc with
      | Some c =>
          match xtrc, Libc.conv_rest c with
          | _ :: _, [] =>
              if Libc.is_infinite (Libc.conv_value c) then None
              else Some (Libc.conv_value c, rest)
          | _, _ => None
          end
      | None => None
      end
  end.

(** [std::getline] until it fails: the lines of a file; a final line
    need not end in a newline. *)
Fixpoint getlines_from (cur : text) (s : text) : list text :=
  match s with
  | [] => match cur with [] => [] | _ => [cur] end
  | c :: s' =>
      if char_eqb c newline then cur :: getlines_from [] s'
      else getlines_from (cur ++ [c]) s'
  end.

Definition getlines (s : text) : list text := getlines_from [] s.

End Stream.

(** [std::to_string] of a [float]: the [%f] rendering, six decimals.  A
    NaN of this model carries no sign: the text is [nan] also where the
    library prints [-nan]. *)
Definition to_string_float (x : float) : text :=
  match x with
  | S754_zero s => Stream.minus s ++ chars "0.000000"
  | S754_infinity s => Stream.minus s ++ chars "inf"
  | S754_nan => chars "nan"
  | S754_finite s m e =>
      let n := Stream.round_half_even (Zpos m * 2 ^ Z.max e 0 * 10 ^ 6) (2 ^ Z.max (- e) 0) in
      Stream.minus s ++ Stream.digits (n / 10 ^ 6) ++ chars "." ++ Stream.six (n mod 10 ^ 6)
  end.

(** ** The application object *)

Inductive speed_t : Type := B9600 | B115200.

Definition max_reconnect_attempts : Z := 10.

(** The members of [BMP280Gui] that the acquisition pipeline reads or
    writes; the X11 handles, colours, zoom and scroll settings are left
    out.  [fd = -1] is the disconnected state. *)
Record BMP280Gui : Type := mkGui {
  fd : Z;
  history : CircularBuffer.t;
  filename : text;
  last_save : Z;
  error_messages : list text;
  persistent_errors : list text;
  last_error_time : Z;
  last_reconnect_attempt : Z;
  reconnect_attempts : Z;
  baud_rate : speed_t;
  save_interval : Z;
  csv_delimiter : ascii;
  paused : bool;
  serial_buffer : list ascii;
  serial_buf_pos : Z
}.

Definition set_fd (v : Z) (g : BMP280Gui) : BMP280Gui :=
  mkGui v (history g) (filename g) (last_save g) (error_messages g)
    (persistent_errors g) (last_error_time g) (last_reconnect_attempt g)
    (reconnect_attempts g) (baud_rate g) (save_interval g) (csv_delimiter g)
    (paused g) (serial_buffer g) (serial_buf_pos g).

Definition set_history (v : CircularBuffer.t) (g : BMP280Gui) : BMP280Gui :=
  mkGui (fd g) v (filename g) (last_save g) (error_messages g)
    (persistent_errors g) (last_error_time g) (last_reconnect_attempt g)
    (reconnect_attempts g) (baud_rate g) (save_interval g) (csv_delimiter g)
    (paused g) (serial_buffer g) (serial_buf_pos g).

Definition set_filename (v : text) (g : BMP280Gui) : BMP280Gui :=
  mkGui (fd g) (history g) v (last_save g) (error_messages g)
    (persistent_errors g) (last_error_time g) (last_reconnect_attempt g)
    (reconnect_attempts g) (baud_rate g) (save_interval g) (csv_delimiter g)
    (paused g) (serial_buffer g) (serial_buf_pos g).

Definition set_last_save (v : Z) (g : BMP280Gui) : BMP280Gui :=
  mkGui (fd g) (history g) (filename g) v (error_messages g)
    (persistent_errors g) (last_error_time g) (last_reconnect_attempt g)
    (reconnect_attempts g) (baud_rate g) (save_interval g) (csv_delimiter g)
    (paused g) (serial_buffer g) (serial_buf_pos g).

Definition set_error_messages (v : list text) (g : BMP280Gui) : BMP280Gui :=
  mkGui (fd g) (history g) (filename g) (last_save g) v
    (persistent_errors g) (last_error_time g) (last_reconnect_attempt g)
    (reconnect_attempts g) (baud_rate g) (save_interval g) (csv_delimiter g)
    (paused g) (serial_buffer g) (serial_buf_pos g).

Definition set_persistent_errors (v : list text) (g : BMP280Gui) : BMP280Gui :=
  mkGui (fd g) (history g) (filename g) (last_save g) (error_messages g)
    v (last_error_time g) (last_reconnect_attempt g)
    (reconnect_attempts g) (baud_rate g) (save_interval g) (csv_delimiter g)
    (paused g) (serial_buffer g) (serial_buf_pos g).

Definition set_last_error_time (v : Z) (g : BMP280Gui) : BMP280Gui :=
  mkGui (fd g) (history g) (filename g) (last_save g) (error_messages g)
    (persistent_errors g) v (last_reconnect_attempt g)
    (reconnect_attempts g) (baud_rate g) (save_interval g) (csv_delimiter g)
    (paused g) (serial_buffer g) (serial_buf_pos g).

Definition set_last_reconnect_attempt (v : Z) (g : BMP280Gui) : BMP280Gui :=
  mkGui (fd g) (history g) (filename g) (last_save g) (error_messages g)
    (persistent_errors g) (last_error_time g) v
    (reconnect_attempts g) (baud_rate g) (save_interval g) (csv_delimiter g)
    (paused g) (serial_buffer g) (serial_buf_pos g).

Definition set_reconnect_attempts (v : Z) (g : BMP280Gui) : BMP280Gui :=
  mkGui (fd g) (history g) (filename g) (last_save g) (error_messages g)
    (persistent_errors g) (last_error_time g) (last_reconnect_attempt g)
    v (baud_rate g) (save_interval g) (csv_delimiter g)
    (paused g) (serial_buffer g) (serial_buf_pos g).

Definition set_baud_rate (v : speed_t) (g : BMP280Gui) : BMP280Gui :=
  mkGui (fd g) (history g) (filename g) (last_save g) (error_messages g)
    (persistent_errors g) (last_error_time g) (last_reconnect_attempt g)
    (reconnect_attempts g) v (save_interval g) (csv_delimiter g)
    (paused g) (serial_buffer g) (serial_buf_pos g).

Definition set_csv_delimiter (v : ascii) (g : BMP280Gui) : BMP280Gui :=
  mkGui (fd g) (history g) (filename g) (last_save g) (error_messages g)
    (persistent_errors g) (last_error_time g) (last_reconnect_attempt g)
    (reconnect_attempts g) (baud_rate g) (save_interval g) v
    (paused g) (serial_buffer g) (serial_buf_pos g).

Definition set_paused (v : bool) (g : BMP280Gui) : BMP280Gui :=
  mkGui (fd g) (history g) (filename g) (last_save g) (error_messages g)
    (persistent_errors g) (last_error_time g) (last_reconnect_attempt g)
    (reconnect_attempts g) (baud_rate g) (save_interval g) (csv_delimiter g)
    v (serial_buffer g) (serial_buf_pos g).

Definition set_serial (buf : list ascii) (pos : Z) (g : BMP280Gui) : BMP280Gui :=
  mkGui (fd g) (history g) (filename g) (last_save g) (error_messages g)
    (persistent_errors g) (last_error_time g) (last_reconnect_attempt g)
    (reconnect_attempts g) (baud_rate g) (save_interval g) (csv_delimiter g)
    (paused g) buf pos.

(** ** The environment

    What one call observes of the outside world.  The clock is read
    once per call. *)

Inductive read_outcome : Type :=
| read_bytes (data : text)       (* the bytes waiting on the line *)
| read_error (eagain : bool).    (* [-1], [errno == EAGAIN] or not *)

Record world : Type := mkWorld {
  now : Z;                                         (* [time(nullptr)] *)
  path_exists : text -> bool;                      (* [std::filesystem::exists] *)
  open_port : text -> speed_t -> N + text;         (* descriptor, or [what()] *)
  select_ready : Z;                                (* result of [select] *)
  incoming : read_outcome;                         (* what [read] meets *)
  strerror : text;                                 (* [strerror(errno)] *)
  ofstream_opens : bool;                           (* [std::ofstream out(temp_path)] *)
  write_limit : nat;                               (* bytes the disk accepts *)
  rename_what : option text;                       (* [what()] if [rename] throws *)
  ifstream_opens : bool                            (* [std::ifstream in(path)] *)
}.

(** The files under the working directory, each named by the text of
    its path: two texts are two files.  The file [logs/errors.log], to
    which [add_error] appends, is not among them. *)
Definition files : Type := text -> option text.

Fixpoint text_eqb (a b : text) : bool :=
  match a, b with
  | [], [] => true
  | x :: a', y :: b' => Ascii.eqb x y && text_eqb a' b'
  | _, _ => false
  end.

Definition write_file (path content : text) (fs : files) : files :=
  fun p => if text_eqb p path then Some content else fs p.

Definition remove_file (path : text) (fs : files) : files :=
  fun p => if text_eqb p path then None else fs p.

(** ** Error reporting *)

(** [add_error]: both lists keep their five most recent entries.  The
    line appended to [logs/errors.log] is left out: the function is
    modelled by what it does to the application object. *)
Definition push_capped (msg : text) (l : list text) : list text :=
  (if (5 <=? length l)%nat then drop 1 l else l) ++ [msg].

Definition add_error (msg : text) (persistent : bool) (t : Z) (g : BMP280Gui) : BMP280Gui :=
  let g1 := set_error_messages (push_capped msg (error_messages g)) g in
  let g2 := if persistent
            then set_persistent_errors (push_capped msg (persistent_errors g1)) g1
            else g1 in
  set_last_error_time t g2.

(** ** Serial link *)

Definition prefixes : list text := [chars "/dev/ttyACM"; chars "/dev/ttyUSB"].

(** [std::to_string(i)] for an [int]. *)
Definition to_string_int (i : Z) : text := Stream.put_long i.

Definition candidate_ports : list text :=
  prefix ← prefixes; i ← seqZ 0 10; [prefix ++ to_string_int i].

Definition find_serial_port (w : world) : option text :=
  List.find (path_exists w) candidate_ports.

Definition open_serial (port : text) (baud : speed_t) (w : world) (g : BMP280Gui)
    : BMP280Gui * bool :=
  match open_port w port baud with
  | inl d => (set_fd (Z.of_N d) g, true)
  | inr what => (set_fd (-1) (add_error what true (now w) g), false)
  end.

(** The loop of [try_reconnect] over the candidate baud rates. *)
Fixpoint try_baud_rates (bauds : list speed_t) (port : text) (w : world) (g : BMP280Gui)
    : BMP280Gui :=
  match bauds with
  | [] =>
      add_error (chars "Failed to reconnect to " ++ port ++ chars " with any baud rate")
        true (now w) g
  | baud :: bauds' =>
      let '(g1, ok) := open_serial port baud w g in
      if ok then
        set_reconnect_attempts 0
          (set_error_messages [] (set_persistent_errors [] (set_baud_rate baud g1)))
      else try_baud_rates bauds' port w g1
  end.

(** Whether a call of [try_reconnect] gets past its two guards. *)
Definition reconnect_due (w : world) (g : BMP280Gui) : bool :=
  negb ((negb (fd g =? -1)) || (max_reconnect_attempts <=? reconnect_attempts g))
  && negb (now w - last_reconnect_attempt g <? RECONNECT_TIMEOUT).

Definition try_reconnect (w : world) (g : BMP280Gui) : BMP280Gui :=
  if (negb (fd g =? -1)) || (max_reconnect_attempts <=? reconnect_attempts g) then g
  else if now w - last_reconnect_attempt g <? RECONNECT_TIMEOUT then g
  else
    let g1 := set_reconnect_attempts (reconnect_attempts g + 1)
                (set_last_reconnect_attempt (now w) g) in
    match find_serial_port w with
    | None => add_error (chars "No serial port available") true (now w) g1
    | Some port => try_baud_rates [B9600; B115200] port w g1
    end.

(** ** Line parsing *)

(** The suffix of [s] that starts at its first character satisfying [p]:
    [s.substr(s.find_first_of(...))]. *)
Fixpoint from_first_of (p : ascii -> bool) (s : text) : option text :=
  match s with
  | [] => None
  | c :: s' => if p c then Some s else from_first_of p s'
  end.

(** A character of ["-0123456789"]. *)
Definition number_start (c : ascii) : bool := (code c =? 45) || Libc.isdigit c.

Definition parse_value (line : text) : option float :=
  match from_first_of number_start line with
  | None => None
  | Some sub =>
      match Libc.stof sub with
      | Ret v => Some v
      | _ => None
      end
  end.

Fixpoint is_prefix (p s : text) : bool :=
  match p, s with
  | [], _ => true
  | a :: p', c :: s' => Ascii.eqb a c && is_prefix p' s'
  | _ :: _, [] => false
  end.

(** [hay.find(needle) != npos] *)
Fixpoint contains (needle hay : text) : bool :=
  is_prefix needle hay ||
  match hay with
  | [] => false
  | _ :: hay' => contains needle hay'
  end.

Definition temp_in_range (v : float) : bool :=
  F32.geb v (F32.of_int (-40)) && F32.leb v (F32.of_int 85).

Definition press_in_range (v : float) : bool :=
  F32.geb v (F32.of_int 300) && F32.leb v (F32.of_int 1100).

(** The four locals of [read_serial] that [process_line] updates. *)
Record reading : Type := mkReading {
  temp : float;
  press : float;
  got_temp : bool;
  got_press : bool
}.

Definition no_reading : reading := mkReading F32.zero F32.zero false false.

(** What a line contributes: a temperature, a pressure, a rejected value
    or nothing. *)
Inductive line_kind : Type :=
| temp_line (v : float)
| bad_temp_line (v : float)
| press_line (v : float)
| bad_press_line (v : float)
| other_line.

Definition classify (line : text) : line_kind :=
  match (if contains (chars "Temp") line then parse_value line else None) with
  | Some value => if temp_in_range value then temp_line value else bad_temp_line value
  | None =>
      match (if contains (chars "Pres") line then parse_value line else None) with
      | Some value => if press_in_range value then press_line value else bad_press_line value
      | None => other_line
      end
  end.

Definition process_line (line : text) (t : Z) (rg : reading * BMP280Gui)
    : reading * BMP280Gui :=
  let '(r, g) := rg in
  match classify line with
  | temp_line value => (mkReading value (press r) true (got_press r), g)
  | bad_temp_line value =>
      (r, add_error (chars "Invalid temperature: " ++ to_string_float value) false t g)
  | press_line value => (mkReading (temp r) value (got_temp r) true, g)
  | bad_press_line value =>
      (r, add_error (chars "Invalid pressure: " ++ to_string_float value) false t g)
  | other_line => (r, g)
  end.

(** ** Reading the serial line *)

(** The line loop of [read_serial]: every newline closes the line
    collected in [cur], which is processed; the result carries the
    characters after the last newline. *)
Fixpoint read_lines (cur : text) (s : text) (t : Z) (rg : reading * BMP280Gui)
    : text * (reading * BMP280Gui) :=
  match s with
  | [] => (cur, rg)
  | c :: s' =>
      if char_eqb c newline then read_lines [] s' t (process_line cur t rg)
      else read_lines (cur ++ [c]) s' t rg
  end.

(** Bytes [data] copied into the array [a] from offset [off] on. *)
Definition store (a : list ascii) (off : Z) (data : text) : list ascii :=
  take (Z.to_nat off) a ++ data ++ drop (Z.to_nat off + length data) a.

Definition NUL : ascii := ascii_of_N 0.

Definition read_serial (w : world) (g : BMP280Gui) : BMP280Gui :=
  if (fd g =? -1) || paused g then g
  else if select_ready w <? 0 then
    set_fd (-1) (add_error (chars "Select error: " ++ strerror w) false (now w) g)
  else if select_ready w =? 0 then g
  else
    let count := BUFFER_SIZE - serial_buf_pos g - 1 in
    match incoming w with
    | read_error eagain =>
        if eagain then g
        else set_fd (-1)
               (add_error (chars "Serial read error: " ++ strerror w) false (now w) g)
    | read_bytes data =>
        let got := take (Z.to_nat count) data in
        let len := Z.of_nat (length got) in
        if len <=? 0 then g
        else
          let mem := <[Z.to_nat (serial_buf_pos g + len) := NUL]>
                       (store (serial_buffer g) (serial_buf_pos g) got) in
          let buf := take (Z.to_nat (serial_buf_pos g + len)) mem in
          let '(rest, (r, g1)) := read_lines [] buf (now w) (no_reading, g) in
          let g2 :=
            if got_temp r && got_press r
            then set_history
                   (CircularBuffer.push (history g1)
                      (mkDataPoint (temp r) (press r) (now w))) g1
            else g1 in
          let pos := Z.of_nat (length rest) in
          if 0 <? pos
          then set_serial (<[Z.to_nat pos := NUL]> (store mem 0 rest)) pos g2
          else set_serial mem 0 g2
    end.

(** ** Persistence *)

Definition sample_line (delim : ascii) (d : DataPoint) : text :=
  Stream.put_float (temperature d) ++ Stream.put_char delim
    ++ Stream.put_float (pressure d) ++ Stream.put_char delim
    ++ Stream.put_long (timestamp d) ++ [newline].

(** The rows [history[i]], [i] from [i0] for [n] samples. *)
Fixpoint save_rows (n : nat) (i0 : Z) (h : CircularBuffer.t) (delim : ascii)
    : outcome text :=
  match n with
  | O => Ret []
  | S n' =>
      d <- CircularBuffer.at_ h i0 ;;
      rows <- save_rows n' (i0 + 1) h delim ;;
      Ret (sample_line delim d ++ rows)
  end.

Definition temp_path (g : BMP280Gui) : text := chars "logs/" ++ filename g ++ chars ".tmp".
Definition final_path (g : BMP280Gui) : text := chars "logs/" ++ filename g.

(** [save_data], from the statement after
    [std::filesystem::create_directory("logs")] on: the directory is
    taken to exist or to be created.  Where that call throws, the
    function does none of what follows and its [filesystem_error], a
    [runtime_error], goes to the caller. *)
Definition save_data (w : world) (fs : files) (g : BMP280Gui)
    : outcome (BMP280Gui * files) :=
  if negb (ofstream_opens w) then
    Ret (add_error (chars "Failed to open temp file: " ++ temp_path g) false (now w) g, fs)
  else
    content <- save_rows (Z.to_nat (CircularBuffer.get_size (history g))) 0
                 (history g) (csv_delimiter g) ;;
    let fs1 := write_file (temp_path g) (take (write_limit w) content) fs in
    if (write_limit w <? length content)%nat then
      Ret (add_error (chars "Failed to write data to temp file") false (now w) g, fs1)
    else
      match rename_what w with
      | None =>
          Ret (add_error (chars "Saved to logs/" ++ filename g) false (now w) g,
               write_file (final_path g) content (remove_file (temp_path g) fs1))
      | Some what =>
          Ret (add_error (chars "Failed to rename temp file: " ++ what) false (now w) g, fs1)
      end.

(** One line of the data file: [iss >> t >> delim >> p >> delim >> ts]
    and the checks that follow it.  Both separators are read into the
    same variable [delim]. *)
Definition parse_row (csv_delimiter : ascii) (t_now : Z) (line : text)
    : option DataPoint :=
  match Stream.get_float line with
  | None => None
  | Some (t, s1) =>
  match Stream.get_char s1 with
  | None => None
  | Some (_, s2) =>
  match Stream.get_float s2 with
  | None => None
  | Some (p, s3) =>
  match Stream.get_char s3 with
  | None => None
  | Some (delim, s4) =>
  match Stream.get_long s4 with
  | None => None
  | Some (ts, _) =>
      if char_eqb delim csv_delimiter
         && temp_in_range t && press_in_range p
         && (0 <? ts) && (ts <=? t_now)
      then Some (mkDataPoint t p ts)
      else None
  end end end end end.

Definition load_row (t : Z) (g : BMP280Gui) (line : text) : BMP280Gui :=
  match parse_row (csv_delimiter g) t line with
  | Some d => set_history (CircularBuffer.push (history g) d) g
  | None => add_error (chars "Invalid data line: " ++ line) false t g
  end.

(** [load_data].  [std::filesystem::exists] is the lookup in the files:
    it is taken to answer; where it throws, nothing of the function is
    done. *)
Definition load_data (path : text) (w : world) (fs : files) (g : BMP280Gui)
    : BMP280Gui * bool :=
  match fs path with
  | None => (g, false)
  | Some content =>
      let g1 := set_history (CircularBuffer.clear (history g)) g in
      if negb (ifstream_opens w) then
        (add_error (chars "Failed to open data file: " ++ path) false (now w) g1, false)
      else
        let g2 := foldl (load_row (now w)) g1 (Stream.getlines content) in
        (g2, 0 <? CircularBuffer.get_size (history g2))
  end.

(** ** Events, the control loop and [main] *)

(** The key presses that touch the modelled state; upper and lower case
    are the same key.  [Key_s] carries the line read from standard input,
    [Key_b] the value [std::stoi] made of it, or [None] when it threw. *)
Inductive key : Type :=
| Key_q
| Key_s (input : text)
| Key_p
| Key_c
| Key_b (typed : option Z)
| Key_other.

Inductive xevent : Type :=
| KeyPress (k : key)
| other_event.

Definition handle_event (w : world) (ev : xevent) (gf : BMP280Gui * files)
    : outcome (BMP280Gui * files) :=
  let '(g, fs) := gf in
  match ev with
  | KeyPress Key_q => Throw (runtime_error "User quit")
  | KeyPress (Key_s input) =>
      save_data w fs (match input with [] => g | _ => set_filename input g end)
  | KeyPress Key_p => Ret (set_paused (negb (paused g)) g, fs)
  | KeyPress Key_c =>
      let g1 := set_error_messages [] g in
      Ret (if negb (fd g1 =? -1) then set_persistent_errors [] g1 else g1, fs)
  | KeyPress (Key_b typed) =>
      match typed with
      | None => Ret (add_error (chars "Invalid baud rate input") false (now w) g, fs)
      | Some baud =>
          if negb (baud =? 9600) && negb (baud =? 115200) then
            Ret (add_error (chars "Invalid baud rate, using default: 9600")
                   false (now w) g, fs)
          else
            let g1 := set_baud_rate (if baud =? 115200 then B115200 else B9600) g in
            let g2 := if negb (fd g1 =? -1) then try_reconnect w (set_fd (-1) g1) else g1 in
            Ret (add_error (chars "Set baud rate to: " ++ to_string_int baud)
                   false (now w) g2, fs)
      end
  | KeyPress Key_other => Ret (g, fs)
  | other_event => Ret (g, fs)
  end.

(** [handle_events]: the pending events, in order. *)
Fixpoint handle_events (w : world) (evs : list xevent) (gf : BMP280Gui * files)
    : outcome (BMP280Gui * files) :=
  match evs with
  | [] => Ret gf
  | ev :: evs' =>
      gf' <- handle_event w ev gf ;;
      handle_events w evs' gf'
  end.

Definition update_state (w : world) (gf : BMP280Gui * files)
    : outcome (BMP280Gui * files) :=
  let '(g, fs) := gf in
  let g1 := read_serial w (try_reconnect w g) in
  if negb (paused g1) && (save_interval g1 <=? now w - last_save g1) then
    gf2 <- save_data w fs g1 ;;
    Ret (set_last_save (now w) (fst gf2), snd gf2)
  else Ret (g1, fs).

Definition ERROR_DISPLAY_TIME : Z := 5.

(** One turn of the loop of [run]: the events that are pending and the
    world as that turn sees it.  Drawing is left out. *)
Definition tick : Type := list xevent * world.

Definition run_once (tk : tick) (gf : BMP280Gui * files) : outcome (BMP280Gui * files) :=
  let '(evs, w) := tk in
  gf1 <- handle_events w evs gf ;;
  gf2 <- update_state w gf1 ;;
  let g := fst gf2 in
  Ret (match error_messages g with
       | [] => g
       | _ => if ERROR_DISPLAY_TIME <? now w - last_error_time g
              then set_error_messages [] g else g
       end, snd gf2).

(** [run] is [while (true)]: it never returns, it can only be left by an
    exception.  [Ret] is the state after the turns given, the loop still
    going. *)
Fixpoint run (ticks : list tick) (gf : BMP280Gui * files) : outcome (BMP280Gui * files) :=
  match ticks with
  | [] => Ret gf
  | tk :: ticks' =>
      gf' <- run_once tk gf ;;
      run ticks' gf'
  end.

(** The settings the configuration loader hands over. *)
Record Config : Type := mkConfig {
  cfg_baud_rate : speed_t;
  cfg_save_interval : Z;
  cfg_csv_delimiter : ascii
}.

(** The command line: [argv[1]], [atoi(argv[2])] and [argv[3][0]], each
    if present. *)
Record arguments : Type := mkArguments {
  arg_filename : option text;
  arg_baud : option Z;
  arg_delimiter : option ascii
}.

(** What the constructor finds: whether the display opens, the array the
    ring buffer is built on, the file name made of the start time. *)
Record startup : Type := mkStartup {
  display_opens : bool;
  memory : list DataPoint;
  default_filename : text;
  config : Config
}.

Definition construct (su : startup) (args : arguments) (w : world) (fs : files)
    : outcome BMP280Gui :=
  if negb (display_opens su) then Throw (runtime_error "Cannot open display")
  else
    let g0 :=
      mkGui (-1) (CircularBuffer.new (memory su))
        (default (default_filename su) (arg_filename args)) 0 [] [] 0 0 0
        (cfg_baud_rate (config su)) (cfg_save_interval (config su))
        (cfg_csv_delimiter (config su)) false
        (replicate (Z.to_nat BUFFER_SIZE) NUL) 0 in
    let g1 :=
      match arg_baud args with
      | None => g0
      | Some baud =>
          if baud =? 9600 then set_baud_rate B9600 g0
          else if baud =? 115200 then set_baud_rate B115200 g0
          else add_error (chars "Unsupported baud rate: " ++ to_string_int baud)
                 false (now w) (set_baud_rate B9600 g0)
      end in
    let g2 :=
      match arg_delimiter args with
      | Some c =>
          if code c =? 0 then g1 else set_csv_delimiter c g1
      | None => g1
      end in
    let g3 :=
      match find_serial_port w with
      | None => add_error (chars "No serial port found") true (now w) g2
      | Some port =>
          let '(g, ok) := open_serial port (baud_rate g2) w g2 in
          if ok then g
          else add_error (chars "Unable to open serial port: " ++ port) true (now w) g
      end in
    let '(g4, loaded) := load_data (final_path g3) w fs g3 in
    Ret (if loaded
         then add_error (chars "Loaded data from logs/" ++ filename g4) false (now w) g4
         else g4).

(** How [main] ends, as far as the given turns tell. *)
Inductive ending : Type :=
| exit_code (n : Z)
| still_running
| undefined_behaviour.

(** [main]: any [std::exception] leaving the constructor or [run] is
    caught and answered with [return 1]; [return 0] follows [run]. *)
Definition main (su : startup) (args : arguments) (w : world) (fs : files)
    (ticks : list tick) : ending :=
  match (app <- construct su args w fs ;; run ticks (app, fs)) with
  | Ret _ => still_running
  | Throw _ => exit_code 1
  | Undefined => undefined_behaviour
  end.

(** ** Notions used to state the properties of the reader *)

Definition no_newline (l : text) : Prop := Forall (fun c => c <> newline) l.

(** The text made of the [lines], each closed by a newline, followed by
    the unfinished remainder [rem]. *)
Definition joined (lines : list text) (rem : text) : text :=
  concat ((fun l => l ++ [newline]) <$> lines) ++ rem.




(** The serial buffer is an array of [BUFFER_SIZE] bytes and the pending
    bytes leave room for the terminating NUL. *)
Definition serial_ok (g : BMP280Gui) : Prop :=
  length (serial_buffer g) = Z.to_nat BUFFER_SIZE /\
  0 <= serial_buf_pos g <= BUFFER_SIZE - 1.

(** The pending bytes: the first [serial_buf_pos] bytes of the array. *)
Definition pending (g : BMP280Gui) : text :=
  take (Z.to_nat (serial_buf_pos g)) (serial_buffer g).

(** ** Notions used to state the reconnection policy *)

Definition is_inl {A B : Type} (x : A + B) : bool :=
  match x with inl _ => true | inr _ => false end.

(** Whether an attempt made in world [w] ends connected: a candidate port
    exists and opens at one of the two baud rates. *)
Definition port_opens (w : world) : bool :=
  match find_serial_port w with
  | Some port => is_inl (open_port w port B9600) || is_inl (open_port w port B115200)
  | None => false
  end.

(** Between two calls of [try_reconnect] the rest of the program runs; it
    never writes the two members the policy rests on. *)
Definition keeps_policy (f : BMP280Gui -> BMP280Gui) : Prop :=
  forall g,
    last_reconnect_attempt (f g) = last_reconnect_attempt g /\
    reconnect_attempts (f g) = reconnect_attempts g.

(** One step of an execution: a call of [try_reconnect] in some world,
    then the rest of the program. *)
Definition step : Type := world * (BMP280Gui -> BMP280Gui).

Definition do_step (g : BMP280Gui) (s : step) : BMP280Gui :=
  snd s (try_reconnect (fst s) g).

Definition execute (g : BMP280Gui) (steps : list step) : BMP280Gui :=
  foldl do_step g steps.

(** The attempts an execution makes, oldest first: the time of each and
    whether it ended connected. *)
Fixpoint attempts (steps : list step) (g : BMP280Gui) : list (Z * bool) :=
  match steps with
  | [] => []
  | s :: steps' =>
      (if reconnect_due (fst s) g then [(now (fst s), port_opens (fst s))] else [])
        ++ attempts steps' (do_step g s)
  end.

(** Every time is at least [RECONNECT_TIMEOUT] after the one before. *)
Fixpoint paced (prev : Z) (times : list Z) : Prop :=
  match times with
  | [] => True
  | t :: times' => prev + RECONNECT_TIMEOUT <= t /\ paced t times'
  end.

(** The failed attempts in a row at the end of a log, [c] of them being
    already behind its start. *)
Fixpoint failures_in_a_row (c : Z) (log : list (Z * bool)) : Z :=
  match log with
  | [] => c
  | (_, true) :: log' => failures_in_a_row 0 log'
  | (_, false) :: log' => failures_in_a_row (c + 1) log'
  end.

(** How the two members of the policy may differ between two states of
    one run: the counter stays within its bound, and once it has reached
    the bound neither member changes any more. *)
Definition policy_respected (g g' : BMP280Gui) : Prop :=
  (0 <= reconnect_attempts g <= max_reconnect_attempts ->
   0 <= reconnect_attempts g' <= max_reconnect_attempts) /\
  (reconnect_attempts g = max_reconnect_attempts ->
   reconnect_attempts g' = max_reconnect_attempts /\
   last_reconnect_attempt g' = last_reconnect_attempt g).

(** ** Notions used to state the round trip through the data file *)

(** A separator that a number cannot swallow and that extraction does
    not skip: not white space, not a digit, none of [. e E + -]. *)
Definition benign (d : ascii) : bool :=
  negb (Libc.isspace d) && negb (Libc.isdigit d)
  && negb (code d =? 46) && negb (code d =? 101) && negb (code d =? 69)
  && negb (code d =? 43) && negb (code d =? 45).

(** A value that reading back its own text reproduces. *)
Definition rereads (v : float) : Prop :=
  Stream.get_float (Stream.put_float v) = Some (v, []).

(** A sample that [load_data] accepts at time [t_now] and whose two
    values survive the six significant digits of the file. *)
Definition storable (t_now : Z) (d : DataPoint) : Prop :=
  temp_in_range (temperature d) = true /\
  press_in_range (pressure d) = true /\
  0 < timestamp d <= t_now /\
  timestamp d <= Stream.LONG_MAX /\
  rereads (temperature d) /\
  rereads (pressure d).

(** A row of the data file, without its newline. *)
Definition row (delim : ascii) (d : DataPoint) : text :=
  Stream.put_float (temperature d) ++ Stream.put_char delim
    ++ Stream.put_float (pressure d) ++ Stream.put_char delim
    ++ Stream.put_long (timestamp d).

(** The text [save_data] writes. *)
Definition saved_text (g : BMP280Gui) : text :=
  concat (sample_line (csv_delimiter g) <$> CircularBuffer.logical (history g)).

(** Code 33 and above: neither a control character nor a space. *)
Definition visible (c : ascii) : bool := 33 <=? code c.

(** ** Concrete states, worlds and inputs used by the examples *)

Definition blank_memory : list DataPoint :=
  replicate (Z.to_nat MAX_POINTS) (mkDataPoint F32.zero F32.zero 0).

Definition sample (k : Z) : DataPoint :=
  mkDataPoint (F32.of_int (k mod 80)) (F32.of_int (900 + k mod 100)) (1700000000 + k).

Definition samples (n : nat) : list DataPoint :=
  (fun k => sample (Z.of_nat k)) <$> seq 0 n.

Definition one_sample_buffer : CircularBuffer.t :=
  CircularBuffer.push (CircularBuffer.new blank_memory) (sample 7).

Definition overfull_buffer : CircularBuffer.t :=
  foldl CircularBuffer.push (CircularBuffer.new blank_memory) (samples 305).

Definition quiet_world (t : Z) : world :=
  {| now := t; path_exists := fun _ => false;
     open_port := fun _ _ => inr (chars "Failed to open serial port");
     select_ready := 0; incoming := read_error true; strerror := [];
     ofstream_opens := true; write_limit := Z.to_nat 4096; rename_what := None;
     ifstream_opens := true |}.

(** A world in which the serial line delivers [data]. *)
Definition receiving (t : Z) (data : text) : world :=
  {| now := t; path_exists := fun _ => false;
     open_port := fun _ _ => inr (chars "Failed to open serial port");
     select_ready := 1; incoming := read_bytes data; strerror := [];
     ofstream_opens := true; write_limit := Z.to_nat 4096; rename_what := None;
     ifstream_opens := true |}.

(** A freshly constructed application, connected on descriptor 3. *)
Definition connected_gui : BMP280Gui :=
  mkGui 3 (CircularBuffer.new blank_memory) (chars "data.csv") 0 [] [] 0 0 0
    B9600 30 (ascii_of_N 44) false (replicate (Z.to_nat BUFFER_SIZE) NUL) 0.

Definition disconnected_gui : BMP280Gui := set_fd (-1) connected_gui.

Definition no_files : files := fun _ => None.

(** 300 bytes without a newline arrive: the pending buffer fills up. *)
Definition stuck_gui : BMP280Gui :=
  read_serial (receiving 1700000000 (replicate 300 (ascii_of_N 65))) connected_gui.

Definition demo_lines : list text := [chars "Temp: 23.5"; chars "Pres: 990.0"].

Definition demo_chunk : text := joined demo_lines [].

Definition demo_world : world := receiving 1700000000 demo_chunk.

Definition demo_steps : list step :=
  [(quiet_world 1700000000, read_serial (quiet_world 1700000000));
   (quiet_world 1700000003, read_serial (quiet_world 1700000003));
   (quiet_world 1700000006, read_serial (quiet_world 1700000006))].

Definition demo_startup : startup :=
  mkStartup true blank_memory (chars "data_20231114_221320.csv")
    (mkConfig B9600 30 (ascii_of_N 44)).

Definition demo_arguments : arguments := mkArguments None None None.

(** A data file whose only row has a semicolon as first separator and the
    configured comma as second. *)
Definition mixed_row : text := chars "23.5;990.0,1700000000".

Definition mixed_file : files :=
  write_file (chars "logs/data.csv") (mixed_row ++ [newline]) no_files.

(** Two samples read from the line; the second temperature has eight
    significant digits. *)
Definition precise_gui : BMP280Gui :=
  read_serial
    (receiving 1700000001
       (joined [chars "Temp: 23.456789 C"; chars "Pressure: 1013.25 hPa"] []))
    (read_serial demo_world connected_gui).

(** Two samples whose values have at most six significant digits. *)
Definition plain_gui : BMP280Gui :=
  read_serial
    (receiving 1700000001
       (joined [chars "Temp: -12.25 C"; chars "Pressure: 1013.25 hPa"] []))
    (read_serial demo_world connected_gui).

(** The files after a [save_data] that returned. *)
Definition saved_files (w : world) (fs : files) (g : BMP280Gui) : files :=
  match save_data w fs g with
  | Ret (_, fs1) => fs1
  | _ => fs
  end.

(** The samples [load_data] leaves in the buffer of a fresh application
    when it reads what [g] saved a second before. *)
Definition reloaded (g : BMP280Gui) : list DataPoint :=
  CircularBuffer.logical
    (history (fst (load_data (final_path g) (quiet_world 1700000003)
                     (saved_files (quiet_world 1700000002) no_files g)
                     connected_gui))).

(** A sample in range with a positive time stamp not after [t_now],
    checked against the constants of [load_data]. *)
Definition acceptable (t_now : Z) (d : DataPoint) : bool :=
  temp_in_range (temperature d) && press_in_range (pressure d)
  && (0 <? timestamp d) && (timestamp d <=? t_now).

(** ** Rolling statistics and the visible average *)

Definition STATS_WINDOW : Z := 300.

Record Statistics : Type := mkStatistics {
  min_temp : float;
  max_temp : float;
  avg_temp : float;
  min_press : float;
  max_press : float;
  avg_press : float;
  count : Z
}.

Definition float_ltb : float -> float -> bool := SFltb.

(** [std::min(a, b)] is [(b < a) ? b : a]; [std::max(a, b)] is
    [(a < b) ? b : a]. *)
Definition std_min (a b : float) : float := if float_ltb b a then b else a.
Definition std_max (a b : float) : float := if float_ltb a b then b else a.

(** The locals of [calculate_statistics] that its loop updates. *)
Record stats_state : Type := mkStatsState {
  stats : Statistics;
  temp_sum : float;
  press_sum : float;
  first : bool
}.

Definition stats_start : stats_state :=
  mkStatsState (mkStatistics F32.zero F32.zero F32.zero F32.zero F32.zero F32.zero 0)
    F32.zero F32.zero true.

(** The body of the loop for a sample inside the window, the counter
    already incremented to [n]. *)
Definition stats_take (point : DataPoint) (n : Z) (a : stats_state) : stats_state :=
  let s := stats a in
  let s1 :=
    if first a then
      mkStatistics (temperature point) (temperature point) (avg_temp s)
        (pressure point) (pressure point) (avg_press s) n
    else
      mkStatistics (std_min (min_temp s) (temperature point))
        (std_max (max_temp s) (temperature point)) (avg_temp s)
        (std_min (min_press s) (pressure point))
        (std_max (max_press s) (pressure point)) (avg_press s) n in
  mkStatsState s1 (F32.add (temp_sum a) (temperature point))
    (F32.add (press_sum a) (pressure point)) false.

(** The loop of [calculate_statistics] over [history[i]], [i] from [i0]
    for [n] samples; a sample older than [STATS_WINDOW] seconds is
    skipped. *)
Fixpoint stats_loop (n : nat) (i0 : Z) (h : CircularBuffer.t) (t_now : Z)
    (a : stats_state) : outcome stats_state :=
  match n with
  | O => Ret a
  | S n' =>
      point <- CircularBuffer.at_ h i0 ;;
      a' <- (if STATS_WINDOW <? t_now - timestamp point then Ret a
             else c <- int_add (count (stats a)) 1 ;; Ret (stats_take point c a)) ;;
      stats_loop n' (i0 + 1) h t_now a'
  end.

Definition calculate_statistics (w : world) (g : BMP280Gui) : outcome Statistics :=
  if CircularBuffer.get_size (history g) =? 0 then Ret (stats stats_start)
  else
    a <- stats_loop (Z.to_nat (CircularBuffer.get_size (history g))) 0
           (history g) (now w) stats_start ;;
    let s := stats a in
    Ret (if 0 <? count s
         then mkStatistics (min_temp s) (max_temp s)
                (F32.div (temp_sum a) (F32.of_int (count s)))
                (min_press s) (max_press s)
                (F32.div (press_sum a) (F32.of_int (count s))) (count s)
         else s).

(** The loop of [compute_visible_average]: while
    [i < start + max_points && static_cast<size_t>(i) < size]. *)
Fixpoint visible_loop (fuel : nat) (h : CircularBuffer.t) (is_temp : bool)
    (start max_points i : Z) (sum : float) (cnt : Z) : outcome (float * Z) :=
  lim <- int_add start max_points ;;
  if (i <? lim) && (wrap64 i <? CircularBuffer.get_size h) then
    match fuel with
    | O => Undefined
    | S fuel' =>
        d <- CircularBuffer.at_ h (wrap64 i) ;;
        cnt' <- int_add cnt 1 ;;
        i' <- int_add i 1 ;;
        visible_loop fuel' h is_temp start max_points i'
          (F32.add sum (CircularBuffer.field is_temp d)) cnt'
    end
  else Ret (sum, cnt).

Definition compute_visible_average (g : BMP280Gui) (is_temp : bool)
    (start max_points : Z) : outcome float :=
  if CircularBuffer.get_size (history g) =? 0 then Ret F32.zero
  else
    r <- visible_loop (Z.to_nat (CircularBuffer.get_size (history g))) (history g)
           is_temp start max_points start F32.zero 0 ;;
    Ret (if 0 <? snd r then F32.div (fst r) (F32.of_int (snd r)) else F32.zero).

(** *** Notions used to state their properties *)

Definition in_window (t_now : Z) (d : DataPoint) : bool :=
  negb (STATS_WINDOW <? t_now - timestamp d).

(** The samples of the buffer that are at most [STATS_WINDOW] seconds
    old, oldest first. *)
Definition recent (t_now : Z) (h : CircularBuffer.t) : list DataPoint :=
  List.filter (in_window t_now) (CircularBuffer.logical h).

Definition least (l : list float) : float :=
  match l with
  | [] => F32.zero
  | x :: r => foldl std_min x r
  end.

Definition greatest (l : list float) : float :=
  match l with
  | [] => F32.zero
  | x :: r => foldl std_max x r
  end.

Definition average (l : list float) : float :=
  match l with
  | [] => F32.zero
  | _ => CircularBuffer.mean l
  end.

Definition statistics_of (l : list DataPoint) : Statistics :=
  mkStatistics (least (temperature <$> l)) (greatest (temperature <$> l))
    (average (temperature <$> l))
    (least (pressure <$> l)) (greatest (pressure <$> l))
    (average (pressure <$> l)) (Z.of_nat (length l)).

Definition is_nan (x : float) : bool :=
  match x with S754_nan => true | _ => false end.

(** A key on which the comparison of two values that are not NaN is the
    lexicographic order: sign class, exponent, mantissa. *)
Definition order_key (x : float) : Z * Z * Z :=
  match x with
  | S754_zero _ => (0, 0, 0)
  | S754_nan => (0, 0, 0)
  | S754_infinity s => (if s then -2 else 2, 0, 0)
  | S754_finite s m e => if s then (-1, - e, Zneg m) else (1, e, Zpos m)
  end.

Definition key_le (a b : Z * Z * Z) : Prop :=
  fst (fst a) < fst (fst b) \/
  (fst (fst a) = fst (fst b) /\
   (snd (fst a) < snd (fst b) \/
    (snd (fst a) = snd (fst b) /\ snd a <= snd b))).

Definition key_lt (a b : Z * Z * Z) : Prop :=
  fst (fst a) < fst (fst b) \/
  (fst (fst a) = fst (fst b) /\
   (snd (fst a) < snd (fst b) \/
    (snd (fst a) = snd (fst b) /\ snd a < snd b))).

(** The accumulators of [calculate_statistics] after the samples [l]
    have passed the window test, the averages not yet set. *)
Definition summarises (a : stats_state) (l : list DataPoint) : Prop :=
  first a = (match l with [] => true | _ => false end) /\
  temp_sum a = CircularBuffer.fsum (temperature <$> l) /\
  press_sum a = CircularBuffer.fsum (pressure <$> l) /\
  stats a =
    mkStatistics (least (temperature <$> l)) (greatest (temperature <$> l)) F32.zero
      (least (pressure <$> l)) (greatest (pressure <$> l)) F32.zero
      (Z.of_nat (length l)).

(** ** The configuration file *)

(** [std::stoi]: [strtol] in base 10, [invalid_argument] when no digit
    converts, [out_of_range] when the value does not fit an [int]. *)
Definition stoi (str : text) : outcome Z :=
  let '(neg, s1) := Libc.sign (Libc.skipws str) in
  match fst (Libc.span Libc.isdigit s1) with
  | [] => Throw (invalid_argument "stoi")
  | ds =>
      let v := if neg then - Libc.decimal ds else Libc.decimal ds in
      if in_int v then Ret v else Throw (out_of_range "stoi")
  end.

(** The struct [Config] in full, as [load_config] fills it. *)
Record Settings : Type := mkSettings {
  ini_baud_rate : speed_t;
  ini_save_interval : Z;
  ini_csv_delimiter : ascii;
  temp_min : float;
  temp_max : float;
  press_min : float;
  press_max : float;
  menu_bg_color : text;
  help_bg_color : text;
  graph_colors : list text
}.

Definition default_settings : Settings :=
  mkSettings B9600 30 (ascii_of_N 44)
    (F32.of_int (-40)) (F32.of_int 85) (F32.of_int 300) (F32.of_int 1100)
    (chars "#808080") (chars "#D3D3D3")
    [chars "blue"; chars "red"; chars "green"; chars "yellow"].

Definition set_ini_baud_rate (v : speed_t) (c : Settings) : Settings :=
  mkSettings v (ini_save_interval c) (ini_csv_delimiter c) (temp_min c) (temp_max c)
    (press_min c) (press_max c) (menu_bg_color c) (help_bg_color c) (graph_colors c).

Definition set_ini_save_interval (v : Z) (c : Settings) : Settings :=
  mkSettings (ini_baud_rate c) v (ini_csv_delimiter c) (temp_min c) (temp_max c)
    (press_min c) (press_max c) (menu_bg_color c) (help_bg_color c) (graph_colors c).

Definition set_ini_csv_delimiter (v : ascii) (c : Settings) : Settings :=
  mkSettings (ini_baud_rate c) (ini_save_interval c) v (temp_min c) (temp_max c)
    (press_min c) (press_max c) (menu_bg_color c) (help_bg_color c) (graph_colors c).

Definition set_temp_min (v : float) (c : Settings) : Settings :=
  mkSettings (ini_baud_rate c) (ini_save_interval c) (ini_csv_delimiter c) v (temp_max c)
    (press_min c) (press_max c) (menu_bg_color c) (help_bg_color c) (graph_colors c).

Definition set_temp_max (v : float) (c : Settings) : Settings :=
  mkSettings (ini_baud_rate c) (ini_save_interval c) (ini_csv_delimiter c) (temp_min c) v
    (press_min c) (press_max c) (menu_bg_color c) (help_bg_color c) (graph_colors c).

Definition set_press_min (v : float) (c : Settings) : Settings :=
  mkSettings (ini_baud_rate c) (ini_save_interval c) (ini_csv_delimiter c) (temp_min c)
    (temp_max c) v (press_max c) (menu_bg_color c) (help_bg_color c) (graph_colors c).

Definition set_press_max (v : float) (c : Settings) : Settings :=
  mkSettings (ini_baud_rate c) (ini_save_interval c) (ini_csv_delimiter c) (temp_min c)
    (temp_max c) (press_min c) v (menu_bg_color c) (help_bg_color c) (graph_colors c).

Definition set_menu_bg_color (v : text) (c : Settings) : Settings :=
  mkSettings (ini_baud_rate c) (ini_save_interval c) (ini_csv_delimiter c) (temp_min c)
    (temp_max c) (press_min c) (press_max c) v (help_bg_color c) (graph_colors c).

Definition set_help_bg_color (v : text) (c : Settings) : Settings :=
  mkSettings (ini_baud_rate c) (ini_save_interval c) (ini_csv_delimiter c) (temp_min c)
    (temp_max c) (press_min c) (press_max c) (menu_bg_color c) v (graph_colors c).

(** [config.graph_colors[i] = v] *)
Definition set_graph_color (i : nat) (v : text) (c : Settings) : Settings :=
  mkSettings (ini_baud_rate c) (ini_save_interval c) (ini_csv_delimiter c) (temp_min c)
    (temp_max c) (press_min c) (press_max c) (menu_bg_color c) (help_bg_color c)
    (<[i := v]> (graph_colors c)).

Definition set_save_interval (v : Z) (g : BMP280Gui) : BMP280Gui :=
  mkGui (fd g) (history g) (filename g) (last_save g) (error_messages g)
    (persistent_errors g) (last_error_time g) (last_reconnect_attempt g)
    (reconnect_attempts g) (baud_rate g) v (csv_delimiter g) (paused g)
    (serial_buffer g) (serial_buf_pos g).

(** [line.substr(pos)], [pos] not beyond the end of the line. *)
Definition substr (pos : nat) (line : text) : text := drop pos line.

(** [s.empty()] *)
Definition empty (s : text) : bool :=
  match s with [] => true | _ => false end.

(** The [try] block of [load_config] for one line that is neither empty
    nor a comment. *)
Definition config_entry (line : text) (t : Z) (c : Settings) (g : BMP280Gui)
    : outcome (Settings * BMP280Gui) :=
  if is_prefix (chars "baud_rate=") line then
    baud <- stoi (substr 10 line) ;;
    Ret (if baud =? 9600 then (set_ini_baud_rate B9600 c, g)
         else if baud =? 115200 then (set_ini_baud_rate B115200 c, g)
         else (set_ini_baud_rate B9600 c,
               add_error (chars "Invalid baud rate: " ++ to_string_int baud) false t g))
  else if is_prefix (chars "save_interval=") line then
    v <- stoi (substr 14 line) ;;
    Ret (if (v <? 1) || (3600 <? v)
         then (set_ini_save_interval 30 c,
               add_error (chars "Invalid save interval: " ++ to_string_int 30) false t g)
         else (set_ini_save_interval v c, g))
  else if is_prefix (chars "temp_min=") line then
    v <- Libc.stof (substr 9 line) ;;
    Ret (if float_ltb v (F32.of_int (-40)) || float_ltb (F32.of_int 85) v
         then (set_temp_min (F32.of_int (-40)) c,
               add_error (chars "Invalid temp_min: " ++ substr 9 line) false t g)
         else (set_temp_min v c, g))
  else if is_prefix (chars "temp_max=") line then
    v <- Libc.stof (substr 9 line) ;;
    Ret (if F32.leb v (temp_min c) || float_ltb (F32.of_int 85) v
         then (set_temp_max (F32.of_int 85) c,
               add_error (chars "Invalid temp_max: " ++ substr 9 line) false t g)
         else (set_temp_max v c, g))
  else if is_prefix (chars "press_min=") line then
    v <- Libc.stof (substr 10 line) ;;
    Ret (if float_ltb v (F32.of_int 300) || float_ltb (F32.of_int 1100) v
         then (set_press_min (F32.of_int 300) c,
               add_error (chars "Invalid press_min: " ++ substr 10 line) false t g)
         else (set_press_min v c, g))
  else if is_prefix (chars "press_max=") line then
    v <- Libc.stof (substr 10 line) ;;
    Ret (if F32.leb v (press_min c) || float_ltb (F32.of_int 1100) v
         then (set_press_max (F32.of_int 1100) c,
               add_error (chars "Invalid press_max: " ++ substr 10 line) false t g)
         else (set_press_max v c, g))
  else if is_prefix (chars "csv_delimiter=") line && negb (empty (substr 14 line)) then
    Ret (set_ini_csv_delimiter (default NUL (head (substr 14 line))) c, g)
  else if is_prefix (chars "menu_bg_color=") line then
    Ret (set_menu_bg_color (substr 14 line) c, g)
  else if is_prefix (chars "help_bg_color=") line then
    Ret (set_help_bg_color (substr 14 line) c, g)
  else if is_prefix (chars "graph_color_temp_low=") line then
    Ret (set_graph_color 0 (substr 20 line) c, g)
  else if is_prefix (chars "graph_color_temp_high=") line then
    Ret (set_graph_color 1 (substr 21 line) c, g)
  else if is_prefix (chars "graph_color_press_low=") line then
    Ret (set_graph_color 2 (substr 21 line) c, g)
  else if is_prefix (chars "graph_color_press_high=") line then
    Ret (set_graph_color 3 (substr 22 line) c, g)
  else Ret (c, g).

(** One turn of the loop of [load_config]: an empty line or a comment is
    skipped; an exception of the [try] block is answered with an error
    message and leaves the settings as they were. *)
Definition config_line (t : Z) (cg : Settings * BMP280Gui) (line : text)
    : Settings * BMP280Gui :=
  let '(c, g) := cg in
  match line with
  | [] => (c, g)
  | first_char :: _ =>
      if code first_char =? 35 then (c, g)
      else
        match config_entry line t c g with
        | Ret cg' => cg'
        | _ => (c, add_error (chars "Invalid config line: " ++ line) false t g)
        end
  end.

Definition default_config_lines : list text :=
  [chars "baud_rate=9600"; chars "save_interval=30"; chars "temp_min=-40";
   chars "temp_max=85"; chars "press_min=300"; chars "press_max=1100";
   chars "csv_delimiter=,"; chars "menu_bg_color=#808080";
   chars "help_bg_color=#D3D3D3"; chars "graph_color_temp_low=blue";
   chars "graph_color_temp_high=red"; chars "graph_color_press_low=green";
   chars "graph_color_press_high=yellow"].

Definition default_config_text : text :=
  concat ((fun l => l ++ [newline]) <$> default_config_lines).

Definition create_default_config (path : text) (w : world) (fs : files) (g : BMP280Gui)
    : BMP280Gui * files :=
  if negb (ofstream_opens w) then
    (add_error (chars "Failed to create default config file: " ++ path) false (now w) g, fs)
  else
    let fs1 := write_file path (take (write_limit w) default_config_text) fs in
    if (write_limit w <? length default_config_text)%nat then
      (add_error (chars "Failed to write default config file: " ++ path) false (now w) g,
       fs1)
    else (g, fs1).

(** [load_config]: the application with the three settings it keeps as
    members of their own, the settings read ([None] when the function
    returns [false]) and the files.  The colours are handed to
    [update_theme], which is not modelled: the messages it reports for
    the colours the display refuses are missing from the error lists of
    the result. *)
Definition load_config (path : text) (w : world) (fs : files) (g : BMP280Gui)
    : BMP280Gui * option Settings * files :=
  let '(g1, fs1) :=
    match fs path with
    | None => create_default_config path w fs g
    | Some _ => (g, fs)
    end in
  match (if ifstream_opens w then fs1 path else None) with
  | None => (add_error (chars "Failed to open config: " ++ path) false (now w) g1, None, fs1)
  | Some content =>
      let '(c, g2) :=
        foldl (config_line (now w)) (default_settings, g1) (Stream.getlines content) in
      (set_csv_delimiter (ini_csv_delimiter c)
         (set_save_interval (ini_save_interval c)
            (set_baud_rate (ini_baud_rate c) g2)),
       Some c, fs1)
  end.

(** Every bound the loader enforces on the numbers it accepts. *)
Definition settings_in_bounds (c : Settings) : Prop :=
  1 <= ini_save_interval c <= 3600 /\
  float_ltb (temp_min c) (F32.of_int (-40)) = false /\
  float_ltb (F32.of_int 85) (temp_min c) = false /\
  float_ltb (F32.of_int 85) (temp_max c) = false /\
  float_ltb (press_min c) (F32.of_int 300) = false /\
  float_ltb (F32.of_int 1100) (press_min c) = false /\
  float_ltb (F32.of_int 1100) (press_max c) = false /\
  length (graph_colors c) = 4%nat.

(** ** Notions used to state the invariants of the application *)

(** A sample whose two values lie in the range of the sensor. *)
Definition sample_ok (d : DataPoint) : Prop :=
  temp_in_range (temperature d) = true /\ press_in_range (pressure d) = true.

(** The locals of [read_serial] hold a value only if it passed the range
    check. *)
Definition reading_ok (r : reading) : Prop :=
  (got_temp r = true -> temp_in_range (temp r) = true) /\
  (got_press r = true -> press_in_range (press r) = true).

(** What the functions that deal with the serial link and with error
    reports leave alone. *)
Definition same_data (g g' : BMP280Gui) : Prop :=
  history g' = history g /\
  serial_buffer g' = serial_buffer g /\
  serial_buf_pos g' = serial_buf_pos g /\
  paused g' = paused g /\
  filename g' = filename g /\
  csv_delimiter g' = csv_delimiter g /\
  save_interval g' = save_interval g /\
  last_save g' = last_save g.

(** The invariant of the application: the ring buffer is well formed,
    the pending bytes fit the serial buffer, every retained sample is in
    range. *)
Definition gui_ok (g : BMP280Gui) : Prop :=
  CircularBuffer.wf (history g) /\
  serial_ok g /\
  Forall sample_ok (CircularBuffer.logical (history g)).

(** A call of [add_error]: the message, the flag, the time of the call. *)
Definition report : Type := text * bool * Z.

Definition report_text (r : report) : text := fst (fst r).
Definition report_persistent (r : report) : bool := snd (fst r).
Definition report_time (r : report) : Z := snd r.

Definition add_errors (reports : list report) (g : BMP280Gui) : BMP280Gui :=
  foldl (fun g r => add_error (report_text r) (report_persistent r) (report_time r) g)
    g reports.

Definition last_five (l : list text) : list text := drop (length l - 5) l.

Definition persistent_only (reports : list report) : list report :=
  List.filter report_persistent reports.

(** Whether a [save_data] gets as far as the rename: the temporary file
    opens, the disk takes all of the text, [rename] does not throw. *)
Definition save_succeeds (w : world) (g : BMP280Gui) : bool :=
  ofstream_opens w && (length (saved_text g) <=? write_limit w)%nat
  && match rename_what w with None => true | Some _ => false end.

Definition quits (ev : xevent) : bool :=
  match ev with KeyPress Key_q => true | _ => false end.

(** Whether the key [q] is pressed in one of the turns. *)
Definition quit_pressed (ticks : list tick) : bool :=
  existsb (fun tk => existsb quits (fst tk)) ticks.

(** ** Further states and inputs used by the examples *)

Definition one_sample_gui : BMP280Gui := set_history one_sample_buffer connected_gui.

Definition paused_gui : BMP280Gui := set_paused true connected_gui.

Definition two_reports : list report :=
  [(chars "No serial port available", true, 1700000000);
   (chars "Invalid temperature: 120.000000", false, 1700000001)].

(** One turn with the key [p], one with no event. *)
Definition demo_ticks : list tick :=
  [([KeyPress Key_p], quiet_world 1700000000); ([], quiet_world 1700000001)].

(** What [read_serial] leaves alone: the settings of the session. *)
Definition same_settings (g g' : BMP280Gui) : Prop :=
  paused g' = paused g /\
  filename g' = filename g /\
  csv_delimiter g' = csv_delimiter g /\
  save_interval g' = save_interval g /\
  last_save g' = last_save g.

(** The message a failed reconnection attempt ends with. *)
Definition reconnect_failure_message (w : world) : text :=
  match find_serial_port w with
  | None => chars "No serial port available"
  | Some port => chars "Failed to reconnect to " ++ port ++ chars " with any baud rate"
  end.

(** A disconnected application whose last attempt was long ago, and one
    whose last save was. *)
Definition waiting_gui : BMP280Gui := set_last_reconnect_attempt 1699999000 disconnected_gui.

Definition unsaved_gui : BMP280Gui := set_last_save 1699999000 one_sample_gui.

(** ** The view: zoom, scroll position, help and theme

    The members of the application that only the display reads, and the
    events that change them. *)

Definition WIDTH : Z := 800.
Definition HEIGHT : Z := 600.

Inductive Theme : Type := White | Dark | HighContrast.

(** [static_cast<Theme>((static_cast<int>(theme) + 1) % 3)] *)
Definition next_theme (t : Theme) : Theme :=
  match t with
  | White => Dark
  | Dark => HighContrast
  | HighContrast => White
  end.

Record view : Type := mkView {
  theme : Theme;
  zoom_temp : float;
  zoom_press : float;
  vzoom_temp : float;
  vzoom_press : float;
  offset_temp : Z;
  offset_press : Z;
  show_help : bool;
  selected_help_item : Z;
  dragging : bool;
  drag_start_x : Z
}.

(** The member initialisers. *)
Definition initial_view : view :=
  mkView White (F32.of_int 1) (F32.of_int 1) (F32.of_int 1) (F32.of_int 1)
    0 0 false (-1) false 0.

(** [help_lines.size()] *)
Definition help_lines_size : Z := 11.

Definition float_mul (x y : float) : float := SFmul F32.prec F32.emax x y.

(** [1.5f] *)
Definition one_and_a_half : float := F32.div (F32.of_int 3) (F32.of_int 2).

(** [static_cast<int>] of a [float]: the value truncated toward zero,
    undefined when that does not fit an [int]. *)
Definition float_to_int (x : float) : outcome Z :=
  match x with
  | S754_zero _ => Ret 0
  | S754_finite s m e =>
      let a := if 0 <=? e then Z.pos m * 2 ^ e else Z.pos m / 2 ^ (- e) in
      int_checked (if s then - a else a)
  | _ => Undefined
  end.

(** [std::clamp(v, lo, hi)] on [int] and on [float]: undefined when
    [hi < lo]. *)
Definition clamp_int (v lo hi : Z) : outcome Z :=
  if hi <? lo then Undefined
  else Ret (if v <? lo then lo else if hi <? v then hi else v).

Definition clamp_float (v lo hi : float) : outcome float :=
  if float_ltb hi lo then Undefined
  else Ret (if float_ltb v lo then lo else if float_ltb hi v then hi else v).

(** [std::min(10.0f, zoom * 1.5f)] and [std::max(1.0f, zoom / 1.5f)] *)
Definition zoom_in (zoom : float) : float :=
  std_min (F32.of_int 10) (float_mul zoom one_and_a_half).

Definition zoom_out (zoom : float) : float :=
  std_max (F32.of_int 1) (F32.div zoom one_and_a_half).

(** [static_cast<int>(history.get_size()) - static_cast<int>(MAX_POINTS / zoom_temp)] *)
Definition max_offset (size : Z) (v : view) : outcome Z :=
  n <- float_to_int (F32.div (F32.of_int MAX_POINTS) (zoom_temp v)) ;;
  int_sub (static_cast_int size) n.

Definition set_zooms (zt zp : float) (v : view) : view :=
  mkView (theme v) zt zp (vzoom_temp v) (vzoom_press v) (offset_temp v) (offset_press v)
    (show_help v) (selected_help_item v) (dragging v) (drag_start_x v).

Definition set_vzooms (zt zp : float) (v : view) : view :=
  mkView (theme v) (zoom_temp v) (zoom_press v) zt zp (offset_temp v) (offset_press v)
    (show_help v) (selected_help_item v) (dragging v) (drag_start_x v).

Definition set_offsets (ot op : Z) (v : view) : view :=
  mkView (theme v) (zoom_temp v) (zoom_press v) (vzoom_temp v) (vzoom_press v) ot op
    (show_help v) (selected_help_item v) (dragging v) (drag_start_x v).

Definition set_help (shown : bool) (item : Z) (v : view) : view :=
  mkView (theme v) (zoom_temp v) (zoom_press v) (vzoom_temp v) (vzoom_press v)
    (offset_temp v) (offset_press v) shown item (dragging v) (drag_start_x v).

Definition set_theme (t : Theme) (v : view) : view :=
  mkView t (zoom_temp v) (zoom_press v) (vzoom_temp v) (vzoom_press v)
    (offset_temp v) (offset_press v) (show_help v) (selected_help_item v)
    (dragging v) (drag_start_x v).

Definition set_drag (d : bool) (x : Z) (v : view) : view :=
  mkView (theme v) (zoom_temp v) (zoom_press v) (vzoom_temp v) (vzoom_press v)
    (offset_temp v) (offset_press v) (show_help v) (selected_help_item v) d x.

(** The keys of [handle_events] that change the view. *)
Inductive view_key : Type :=
| Key_h | Key_t | Key_plus | Key_minus | Key_Up | Key_Down | Key_Left | Key_Right.

(** The branches of [handle_events] for these keys; [size] is
    [history.get_size()]. *)
Definition handle_view_key (size : Z) (k : view_key) (v : view) : outcome view :=
  match k with
  | Key_h =>
      let shown := negb (show_help v) in
      Ret (set_help shown (if shown then 1 else -1) v)
  | Key_t => Ret (set_theme (next_theme (theme v)) v)
  | Key_plus =>
      Ret (set_offsets 0 0 (set_zooms (zoom_in (zoom_temp v)) (zoom_in (zoom_press v)) v))
  | Key_minus =>
      Ret (set_offsets 0 0 (set_zooms (zoom_out (zoom_temp v)) (zoom_out (zoom_press v)) v))
  | Key_Up =>
      if show_help v then
        item <- int_sub (selected_help_item v) 1 ;;
        Ret (set_help (show_help v) (Z.max 1 item) v)
      else Ret (set_vzooms (zoom_in (vzoom_temp v)) (zoom_in (vzoom_press v)) v)
  | Key_Down =>
      if show_help v then
        item <- int_add (selected_help_item v) 1 ;;
        Ret (set_help (show_help v) (Z.min (static_cast_int help_lines_size - 1) item) v)
      else Ret (set_vzooms (zoom_out (vzoom_temp v)) (zoom_out (vzoom_press v)) v)
  | Key_Left =>
      m <- max_offset size v ;;
      ot <- int_add (offset_temp v) 10 ;;
      let v1 := set_offsets (Z.min ot (Z.max 0 m)) (offset_press v) v in
      op <- int_add (offset_press v1) 10 ;;
      Ret (set_offsets (offset_temp v1) (Z.min op (Z.max 0 m)) v1)
  | Key_Right =>
      ot <- int_sub (offset_temp v) 10 ;;
      let v1 := set_offsets (Z.max 0 ot) (offset_press v) v in
      op <- int_sub (offset_press v1) 10 ;;
      Ret (set_offsets (offset_temp v1) (Z.max 0 op) v1)
  end.

Inductive button : Type := Button1 | Button2 | Button3 | Button_other.

(** The pointer events on the main window.  A button press carries the
    position, the button and the widest help line as [XTextWidth]
    measures it. *)
Inductive pointer_event : Type :=
| ButtonPress (x y : Z) (b : button) (max_width : Z)
| ButtonRelease (b : button)
| MotionNotify (x : Z).

Definition on_temp_graph (x y : Z) : bool :=
  (100 <=? x) && (x <=? 700) && (40 <=? y) && (y <=? 240).

Definition on_press_graph (x y : Z) : bool :=
  (100 <=? x) && (x <=? 700) && (290 <=? y) && (y <=? 490).

(** The click on a line of the help box. *)
Definition help_click (x y max_width : Z) (v : view) : outcome view :=
  let line_height := 15 in
  let padding := 10 in
  rect_width <- int_add max_width (2 * padding) ;;
  let rect_height := static_cast_int (wrap64 (help_lines_size * line_height + 2 * padding)) in
  let start_x := Z.quot WIDTH 2 - Z.quot rect_width 2 in
  let start_y := Z.quot HEIGHT 2 - Z.quot rect_height 2 in
  if start_x <=? x then
    right_edge <- int_add start_x rect_width ;;
    if (x <=? right_edge) && (start_y <=? y) && (y <=? start_y + rect_height) then
      let item := Z.quot (y - start_y - padding) line_height + 1 in
      Ret (if (1 <=? item) && (item <? static_cast_int help_lines_size)
           then set_help (show_help v) item v else v)
    else Ret v
  else Ret v.

(** The branches of [handle_events] for [ButtonPress] on the main
    window, [ButtonRelease] and [MotionNotify]. *)
Definition handle_pointer (size : Z) (ev : pointer_event) (v : view) : outcome view :=
  match ev with
  | ButtonPress x y b max_width =>
      v1 <- (if show_help v then help_click x y max_width v else Ret v) ;;
      let on_temp := on_temp_graph x y in
      let on_press := on_press_graph x y in
      Ret (match b with
           | Button1 =>
               if on_temp || on_press then
                 let v2 := if on_temp
                           then set_offsets 0 (offset_press v1)
                                  (set_zooms (zoom_in (zoom_temp v1)) (zoom_press v1) v1)
                           else v1 in
                 if on_press
                 then set_offsets (offset_temp v2) 0
                        (set_zooms (zoom_temp v2) (zoom_in (zoom_press v2)) v2)
                 else v2
               else v1
           | Button3 =>
               if on_temp || on_press then
                 let v2 := if on_temp
                           then set_offsets 0 (offset_press v1)
                                  (set_zooms (zoom_out (zoom_temp v1)) (zoom_press v1) v1)
                           else v1 in
                 if on_press
                 then set_offsets (offset_temp v2) 0
                        (set_zooms (zoom_temp v2) (zoom_out (zoom_press v2)) v2)
                 else v2
               else v1
           | Button2 =>
               if on_temp || on_press then set_drag true x v1 else v1
           | Button_other => v1
           end)
  | ButtonRelease b =>
      Ret (match b with Button2 => set_drag false (drag_start_x v) v | _ => v end)
  | MotionNotify x =>
      if dragging v then
        d <- int_sub (drag_start_x v) x ;;
        let delta := Z.quot d 10 in
        m <- max_offset size v ;;
        t <- int_add (offset_temp v) delta ;;
        ot <- clamp_int t 0 m ;;
        p <- int_add (offset_press v) delta ;;
        op <- clamp_int p 0 m ;;
        Ret (set_drag (dragging v) x (set_offsets ot op v))
      else Ret v
  end.

(** The first lines of [draw_graph]: nothing is drawn with fewer than
    two samples; otherwise the index [start] of the first sample drawn
    and the number [max_points] of samples a graph shows. *)
Definition graph_window (g : BMP280Gui) (v : view) (is_temp : bool)
    : outcome (option (Z * Z)) :=
  let size := CircularBuffer.get_size (history g) in
  if size <? 2 then Ret None
  else
    zoom <- clamp_float (if is_temp then zoom_temp v else zoom_press v)
              (F32.of_int 1) (F32.of_int 100) ;;
    offset <- clamp_int (if is_temp then offset_temp v else offset_press v)
                0 (static_cast_int size) ;;
    max_points <- float_to_int (F32.div (F32.of_int MAX_POINTS) zoom) ;;
    last <- int_sub (static_cast_int size) 2 ;;
    from <- int_sub (static_cast_int size) max_points ;;
    from <- int_sub from offset ;;
    Ret (Some (Z.max 0 (Z.min last from), max_points)).

(** What every event keeps: the scroll positions are not negative and,
    while the help is shown, a line of it is selected. *)
Definition view_ok (v : view) : Prop :=
  0 <= offset_temp v /\ 0 <= offset_press v /\
  (show_help v = true -> 1 <= selected_help_item v <= help_lines_size - 1).

(** The initial view with a drag under way, started at x = 100. *)
Definition dragging_view : view := set_drag true 100 initial_view.

(** The settings a first start ends with: the defaults, the four graph
    colours as the default file gives them to [load_config]. *)
Definition first_start_settings : Settings :=
  mkSettings B9600 30 (ascii_of_N 44)
    (F32.of_int (-40)) (F32.of_int 85) (F32.of_int 300) (F32.of_int 1100)
    (chars "#808080") (chars "#D3D3D3")
    [chars "=blue"; chars "=red"; chars "=green"; chars "=yellow"].

(** A world in which every file operation succeeds. *)
Definition writable_world : world := quiet_world 1700000000.

(** ** Notions used to state what a full buffer and the file system do *)

(** The reads of a run in a row, one world each. *)
Definition read_all (ws : list world) (g : BMP280Gui) : BMP280Gui :=
  foldl (fun g w => read_serial w g) g ws.

(** A world in which [select] does not fail and [read] meets bytes that
    are waiting on the line. *)
Definition delivers (w : world) : bool :=
  match incoming w with
  | read_bytes _ => 0 <=? select_ready w
  | read_error _ => false
  end.

(** What a reader that takes nothing leaves as it is. *)
Definition same_reader (g g' : BMP280Gui) : Prop :=
  serial_buf_pos g' = serial_buf_pos g /\
  serial_buffer g' = serial_buffer g /\
  history g' = history g.

(** Three reads after the buffer has filled up: the line brings a
    complete frame each time. *)
Definition later_worlds : list world :=
  [demo_world; receiving 1700000002 demo_chunk; receiving 1700000004 demo_chunk].

(** The file [add_error] appends every message to.  The files of the
    model are the files other than this one, a file being named by the
    text of its path. *)
Definition error_log : text := chars "logs/errors.log".

(* ================================================================== *)
(** * Properties *)

Ltac Zify.zify_post_hook ::= Z.to_euclidean_division_equations.

(** ** Ring buffer: representation lemmas *)

Section RingFacts.
Import CircularBuffer.

Lemma new_wf mem : length mem = Z.to_nat MAX_POINTS -> wf (new mem).
Proof.
  intros Hm. split; simpl; rewrite ?length_replicate; unfold MAX_POINTS in *; lia.
Qed.

Lemma push_wf b p : wf b -> wf (push b p).
Proof.
  intros [Hb Hh Hs Ht Hp]. unfold MAX_POINTS in *.
  split; simpl; unfold fill_zero, MAX_POINTS;
    rewrite ?length_insert, ?length_replicate; try lia.
  destruct (Z.ltb_spec (size b) 300); lia.
Qed.

Lemma clear_wf b : wf b -> wf (clear b).
Proof.
  intros [Hb Hh Hs Ht Hp]. unfold MAX_POINTS in *.
  split; simpl; unfold fill_zero, MAX_POINTS; rewrite ?length_replicate; lia.
Qed.

Lemma set_cache_wf b is_temp c :
  wf b -> length c = Z.to_nat MAX_POINTS -> wf (set_cache is_temp b c).
Proof.
  intros [Hb Hh Hs Ht Hp] Hc. destruct is_temp; split; simpl; assumption.
Qed.

Lemma slot_logical b i :
  wf b -> 0 <= i < size b ->
  slot b i = (head b + MAX_POINTS - size b + i) mod MAX_POINTS.
Proof.
  intros [_ Hh Hs _ _] Hi. unfold slot, wrap64, MAX_POINTS in *.
  rewrite (Z.mod_small _ (2 ^ 64)) by lia. reflexivity.
Qed.

Lemma slot_range b i : 0 <= slot b i < MAX_POINTS.
Proof. unfold slot, MAX_POINTS. lia. Qed.

Lemma slot_lookup b i : wf b -> is_Some (buffer b !! Z.to_nat (slot b i)).
Proof.
  intros Hw. apply lookup_lt_is_Some. rewrite (wf_buffer _ Hw).
  pose proof (slot_range b i). lia.
Qed.

Lemma length_logical b : wf b -> length (logical b) = Z.to_nat (size b).
Proof.
  intros [Hb Hh Hs _ _]. unfold logical.
  rewrite length_take, length_drop, length_app, Hb.
  pose proof (slot_range b 0). unfold MAX_POINTS in *. lia.
Qed.

Lemma logical_lookup b i :
  wf b -> 0 <= i < size b ->
  logical b !! Z.to_nat i = buffer b !! Z.to_nat (slot b i).
Proof.
  intros Hw Hi. pose proof Hw as [Hb Hh Hs _ _]. unfold logical.
  rewrite lookup_take. destruct (decide _) as [_|]; [|lia].
  rewrite lookup_drop.
  assert (H0 : slot b 0 = (head b + MAX_POINTS - size b) mod MAX_POINTS).
  { unfold slot, wrap64, MAX_POINTS in *.
    rewrite Z.add_0_r, (Z.mod_small _ (2 ^ 64)) by lia. reflexivity. }
  rewrite (slot_logical b i Hw Hi), H0. unfold MAX_POINTS in *.
  destruct (Z_lt_dec ((head b + 300 - size b) mod 300 + i) 300) as [Hlt|Hge].
  - rewrite lookup_app_l by lia. f_equal. lia.
  - rewrite lookup_app_r by lia. f_equal. rewrite Hb. lia.
Qed.

Lemma at_logical b i :
  wf b -> 0 <= i < size b ->
  at_ b i = of_option (logical b !! Z.to_nat i).
Proof.
  intros Hw Hi. unfold at_.
  destruct (Z.eqb_spec (size b) 0); [lia|].
  now rewrite logical_lookup.
Qed.

Lemma logical_push b p :
  wf b ->
  logical (push b p) =
    if size b <? MAX_POINTS then logical b ++ [p]
    else drop 1 (logical b) ++ [p].
Proof.
  intros Hw. pose proof (push_wf b p Hw) as Hw'.
  pose proof Hw as [Hb Hh Hs _ _].
  apply (list_eq_same_length _ _ (Z.to_nat (size (push b p)))).
  - simpl. destruct (Z.ltb_spec (size b) MAX_POINTS);
      rewrite length_app, ?length_drop, length_logical by assumption;
      simpl; unfold MAX_POINTS in *; lia.
  - now apply length_logical.
  - intros i x y Hi Hx Hy.
    assert (Hi' : 0 <= Z.of_nat i < size (push b p)) by lia.
    rewrite <- (Nat2Z.id i) in Hx.
    rewrite (logical_lookup _ _ Hw' Hi'), (slot_logical _ _ Hw' Hi') in Hx.
    simpl in Hx, Hi'. unfold MAX_POINTS in *.
    destruct (Z.ltb_spec (size b) 300) as [Hlt|Hge].
    + destruct (Z.eq_dec (Z.of_nat i) (size b)) as [He|Hne].
      * rewrite lookup_app_r in Hy by (rewrite length_logical by assumption; lia).
        rewrite length_logical in Hy by assumption.
        replace (i - Z.to_nat (size b))%nat with 0%nat in Hy by lia.
        simpl in Hy.
        replace (Z.to_nat (((head b + 1) mod 300 + 300 - (size b + 1) + Z.of_nat i) mod 300))
          with (Z.to_nat (head b)) in Hx by lia.
        rewrite list_lookup_insert_eq in Hx by lia. congruence.
      * rewrite lookup_app_l in Hy by (rewrite length_logical by assumption; lia).
        rewrite list_lookup_insert_ne in Hx by lia.
        rewrite <- (Nat2Z.id i) in Hy.
        rewrite logical_lookup, slot_logical in Hy by (assumption || lia).
        unfold MAX_POINTS in Hy.
        replace (Z.to_nat (((head b + 1) mod 300 + 300 - (size b + 1) + Z.of_nat i) mod 300))
          with (Z.to_nat ((head b + 300 - size b + Z.of_nat i) mod 300)) in Hx by lia.
        congruence.
    + assert (Hsz : size b = 300) by lia.
      destruct (Z.eq_dec (Z.of_nat i) 299) as [He|Hne].
      * rewrite lookup_app_r in Hy
          by (rewrite length_drop, length_logical by assumption; lia).
        rewrite length_drop, length_logical in Hy by assumption.
        replace (i - (Z.to_nat (size b) - 1))%nat with 0%nat in Hy by lia.
        simpl in Hy.
        replace (Z.to_nat (((head b + 1) mod 300 + 300 - size b + Z.of_nat i) mod 300))
          with (Z.to_nat (head b)) in Hx by lia.
        rewrite list_lookup_insert_eq in Hx by lia. congruence.
      * rewrite lookup_app_l in Hy
          by (rewrite length_drop, length_logical by assumption; lia).
        rewrite lookup_drop in Hy.
        rewrite list_lookup_insert_ne in Hx by lia.
        replace (1 + i)%nat with (Z.to_nat (Z.of_nat i + 1)) in Hy by lia.
        rewrite logical_lookup, slot_logical in Hy by (assumption || lia).
        unfold MAX_POINTS in Hy.
        replace (Z.to_nat (((head b + 1) mod 300 + 300 - size b + Z.of_nat i) mod 300))
          with (Z.to_nat ((head b + 300 - size b + (Z.of_nat i + 1)) mod 300)) in Hx by lia.
        congruence.
Qed.

End RingFacts.

Section RingHistory.
Import CircularBuffer.

Lemma logical_empty b : size b = 0 -> logical b = [].
Proof. intros H. unfold logical. now rewrite H. Qed.

Lemma logical_push_last b p :
  wf b ->
  logical (push b p) =
    drop (length (logical b ++ [p]) - Z.to_nat MAX_POINTS) (logical b ++ [p]).
Proof.
  intros Hw. rewrite logical_push by assumption.
  pose proof (length_logical b Hw) as Hl. pose proof (wf_size b Hw) as Hs.
  rewrite length_app. simpl. unfold MAX_POINTS in *.
  destruct (Z.ltb_spec (size b) 300).
  - replace (length (logical b) + 1 - Z.to_nat 300)%nat with 0%nat by lia.
    reflexivity.
  - replace (length (logical b) + 1 - Z.to_nat 300)%nat with 1%nat by lia.
    rewrite drop_app_le by lia. reflexivity.
Qed.

Lemma logical_pushes l : forall b,
  wf b ->
  wf (foldl push b l) /\
  logical (foldl push b l) =
    drop (length (logical b ++ l) - Z.to_nat MAX_POINTS) (logical b ++ l).
Proof.
  induction l as [|p l IH] using rev_ind; intros b Hw.
  - simpl. split; [assumption|]. rewrite app_nil_r.
    pose proof (length_logical b Hw). pose proof (wf_size b Hw).
    replace (length (logical b) - Z.to_nat MAX_POINTS)%nat with 0%nat by lia.
    reflexivity.
  - rewrite foldl_snoc. destruct (IH b Hw) as [Hw' Hl].
    split; [now apply push_wf|].
    rewrite logical_push_last, Hl by assumption.
    rewrite <- drop_app_le by lia.
    rewrite drop_drop, !app_assoc. f_equal.
    rewrite length_drop, !length_app. simpl. lia.
Qed.

Lemma size_of_logical b : wf b -> size b = Z.of_nat (length (logical b)).
Proof.
  intros Hw. rewrite length_logical by assumption.
  pose proof (wf_size b Hw). lia.
Qed.

End RingHistory.

(** ** C1: the oldest-retained invariant *)

(** C1. After more than [MAX_POINTS] pushes into an empty buffer the size
    is [MAX_POINTS] and logical index [i] holds the push numbered
    [push_count - MAX_POINTS + i] (counting from 0); index 0 is the oldest
    retained sample. *)
Theorem push_beyond_capacity_keeps_newest
    (b0 : CircularBuffer.t) (pushed : list DataPoint) (i : Z) :
  CircularBuffer.wf b0 ->
  CircularBuffer.size b0 = 0 ->
  (Z.to_nat MAX_POINTS < length pushed)%nat ->
  0 <= i < MAX_POINTS ->
  let b := foldl CircularBuffer.push b0 pushed in
  CircularBuffer.get_size b = MAX_POINTS /\
  exists p,
    pushed !! (length pushed - Z.to_nat MAX_POINTS + Z.to_nat i)%nat = Some p /\
    CircularBuffer.at_ b i = Ret p.
Proof.
  intros Hw H0 Hlen Hi b.
  destruct (logical_pushes pushed b0 Hw) as [Hwb Hl].
  rewrite (logical_empty b0 H0) in Hl. simpl in Hl. fold b in Hwb, Hl.
  assert (Hsz : CircularBuffer.size b = MAX_POINTS).
  { rewrite (size_of_logical b Hwb), Hl, length_drop. unfold MAX_POINTS in *. lia. }
  split; [exact Hsz|].
  destruct (lookup_lt_is_Some_2 pushed
              (length pushed - Z.to_nat MAX_POINTS + Z.to_nat i)%nat) as [p Hp].
  { unfold MAX_POINTS in *. lia. }
  exists p. split; [exact Hp|].
  rewrite at_logical by (assumption || lia).
  now rewrite Hl, lookup_drop, Hp.
Qed.

Lemma push_beyond_capacity_witness :
  CircularBuffer.get_size overfull_buffer = MAX_POINTS /\
  exists p, samples 305 !! (length (samples 305) - Z.to_nat MAX_POINTS + Z.to_nat 0)%nat = Some p /\
            CircularBuffer.at_ overfull_buffer 0 = Ret p.
Proof.
  apply (push_beyond_capacity_keeps_newest (CircularBuffer.new blank_memory) (samples 305) 0).
  - apply new_wf. reflexivity.
  - reflexivity.
  - vm_compute. lia.
  - unfold MAX_POINTS. lia.
Defined.

(** ** C5: indexed access *)

(** C5, as the code has it.  [operator[]] throws [out_of_range] exactly
    when the buffer is empty.  On a non-empty buffer an index below the
    size returns the sample at that logical position (0 is the oldest
    retained), and an index at or beyond the size does not fail: it
    returns the array slot [(head + MAX_POINTS - size + index) mod
    MAX_POINTS]. *)
Theorem at_throws_only_when_empty (b : CircularBuffer.t) (index : Z) :
  CircularBuffer.wf b ->
  0 <= index < 2 ^ 64 ->
  (CircularBuffer.size b = 0 ->
     CircularBuffer.at_ b index = Throw (out_of_range "Buffer is empty")) /\
  (0 < CircularBuffer.size b -> index < CircularBuffer.size b ->
     exists d, CircularBuffer.logical b !! Z.to_nat index = Some d /\
               CircularBuffer.at_ b index = Ret d) /\
  (0 < CircularBuffer.size b -> CircularBuffer.size b <= index ->
     exists d, CircularBuffer.buffer b !! Z.to_nat (CircularBuffer.slot b index) = Some d /\
               CircularBuffer.at_ b index = Ret d).
Proof.
  intros Hw Hi. repeat split.
  - intros H0. unfold CircularBuffer.at_. now rewrite H0.
  - intros Hpos Hlt.
    destruct (lookup_lt_is_Some_2 (CircularBuffer.logical b) (Z.to_nat index)) as [d Hd].
    { rewrite length_logical by assumption. lia. }
    exists d. split; [exact Hd|].
    rewrite at_logical by (assumption || lia). now rewrite Hd.
  - intros Hpos Hge.
    destruct (slot_lookup b index Hw) as [d Hd].
    exists d. split; [exact Hd|].
    unfold CircularBuffer.at_.
    destruct (Z.eqb_spec (CircularBuffer.size b) 0); [lia|]. now rewrite Hd.
Qed.

Lemma at_throws_only_when_empty_witness :
  (CircularBuffer.size one_sample_buffer = 0 ->
     CircularBuffer.at_ one_sample_buffer 0 = Throw (out_of_range "Buffer is empty")) /\
  (0 < CircularBuffer.size one_sample_buffer -> 0 < CircularBuffer.size one_sample_buffer ->
     exists d, CircularBuffer.logical one_sample_buffer !! Z.to_nat 0 = Some d /\
               CircularBuffer.at_ one_sample_buffer 0 = Ret d) /\
  (0 < CircularBuffer.size one_sample_buffer -> CircularBuffer.size one_sample_buffer <= 0 ->
     exists d, CircularBuffer.buffer one_sample_buffer
                 !! Z.to_nat (CircularBuffer.slot one_sample_buffer 0) = Some d /\
               CircularBuffer.at_ one_sample_buffer 0 = Ret d).
Proof.
  apply (at_throws_only_when_empty one_sample_buffer 0).
  - apply push_wf, new_wf. reflexivity.
  - lia.
Defined.

(** C5 as stated fails: with one sample stored, index 1 is not below the
    size, yet [operator[]] returns the (never written) array slot 1
    instead of throwing. *)
Lemma at_beyond_size_does_not_throw :
  CircularBuffer.get_size one_sample_buffer <= 1 /\
  CircularBuffer.at_ one_sample_buffer 1 = Ret (mkDataPoint F32.zero F32.zero 0).
Proof. vm_compute. split; [discriminate|reflexivity]. Qed.

(** ** The smoothing accessor *)

Section Smoothing.
Import CircularBuffer.

Lemma int_checked_ok x : INT_MIN <= x <= INT_MAX -> int_checked x = Ret x.
Proof.
  intros H. unfold int_checked, in_int.
  destruct (Z.leb_spec INT_MIN x); [|lia].
  destruct (Z.leb_spec x INT_MAX); [|lia]. reflexivity.
Qed.

Lemma static_cast_int_small x : 0 <= x <= MAX_POINTS -> static_cast_int x = x.
Proof. unfold static_cast_int, MAX_POINTS. lia. Qed.

Lemma length_cache is_temp b : wf b -> length (cache is_temp b) = Z.to_nat MAX_POINTS.
Proof. intros [_ _ _ Ht Hp]. now destruct is_temp. Qed.

Lemma logical_set_cache is_temp b c : logical (set_cache is_temp b c) = logical b.
Proof. now destruct is_temp. Qed.

Lemma size_set_cache is_temp b c : size (set_cache is_temp b c) = size b.
Proof. now destruct is_temp. Qed.

Lemma cache_set_cache k is_temp b c :
  cache k (set_cache is_temp b c) = if Bool.eqb k is_temp then c else cache k b.
Proof. now destruct k, is_temp. Qed.

Lemma neighbours_set_cache k is_temp b c i w :
  neighbours (set_cache is_temp b c) k i w = neighbours b k i w.
Proof. unfold neighbours. now rewrite logical_set_cache, size_set_cache. Qed.

Lemma smooth_loop_sum fuel : forall b is_temp lo hi sum count,
  wf b -> 0 <= count <= lo -> hi < size b ->
  (Z.to_nat (hi + 1 - lo) <= fuel)%nat ->
  smooth_loop fuel b is_temp lo hi sum count =
    Ret (foldl F32.add sum
           (field is_temp <$> take (Z.to_nat (hi + 1 - lo)) (drop (Z.to_nat lo) (logical b))),
         count + Z.max 0 (hi + 1 - lo)).
Proof.
  induction fuel as [|fuel IH]; intros b is_temp lo hi sum count Hw Hc Hhi Hf.
  - simpl. destruct (Z.leb_spec lo hi); [lia|].
    replace (Z.to_nat (hi + 1 - lo)) with 0%nat by lia.
    simpl. do 2 f_equal. lia.
  - simpl. destruct (Z.leb_spec lo hi) as [Hle|Hgt].
    + pose proof (wf_size b Hw) as Hs. unfold MAX_POINTS in Hs.
      assert (Hlo : 0 <= lo < size b) by lia.
      destruct (slot_lookup b lo Hw) as [d Hd].
      pose proof (logical_lookup b lo Hw Hlo) as Hl. rewrite Hd in Hl.
      rewrite Hd. simpl. unfold int_add.
      rewrite !int_checked_ok by (unfold INT_MIN, INT_MAX; lia). simpl.
      rewrite IH by (assumption || lia).
      replace (Z.to_nat (hi + 1 - lo)) with (S (Z.to_nat (hi + 1 - (lo + 1)))) by lia.
      rewrite (drop_S _ _ _ Hl).
      replace (S (Z.to_nat lo)) with (Z.to_nat (lo + 1)) by lia.
      simpl. do 2 f_equal. lia.
    + replace (Z.to_nat (hi + 1 - lo)) with 0%nat by lia.
      simpl. do 2 f_equal. lia.
Qed.

Lemma length_neighbours b is_temp i w :
  wf b ->
  length (neighbours b is_temp i w) =
    Z.to_nat (Z.min (size b - 1) (i + Z.quot w 2) + 1 - Z.max 0 (i - Z.quot w 2)).
Proof.
  intros Hw. unfold neighbours.
  rewrite length_fmap, length_take, length_drop, length_logical by assumption.
  lia.
Qed.

Lemma smooth_value_miss b is_temp index w c :
  wf b -> 0 < size b -> 0 <= index < 2 ^ 64 -> INT_MIN <= w <= INT_MAX ->
  cache is_temp b !! Z.to_nat (Z.min index (size b - 1)) = Some c ->
  F32.eqb c F32.zero = true ->
  smooth_value b is_temp index w =
    Ret (fresh b is_temp (Z.min index (size b - 1)) w,
         set_cache is_temp b
           (<[Z.to_nat (Z.min index (size b - 1)) :=
                fresh b is_temp (Z.min index (size b - 1)) w]> (cache is_temp b))).
Proof.
  intros Hw Hpos Hi Hwin Hc Hz.
  pose proof (wf_size b Hw) as Hs. unfold MAX_POINTS in Hs.
  unfold smooth_value.
  destruct (Z.eqb_spec (size b) 0); [lia|].
  assert (Hwrap : wrap64 (size b - 1) = size b - 1).
  { unfold wrap64. apply Z.mod_small. lia. }
  rewrite Hwrap. set (idx := Z.min index (size b - 1)) in *.
  assert (Hidx : 0 <= idx < size b) by (unfold idx; lia).
  rewrite Hc. simpl. rewrite Hz.
  unfold int_div, int_sub, int_add. simpl.
  unfold INT_MIN, INT_MAX in Hwin.
  rewrite (int_checked_ok (Z.quot w 2)) by (unfold INT_MIN, INT_MAX; lia). simpl.
  rewrite !static_cast_int_small by (unfold MAX_POINTS; lia).
  rewrite (int_checked_ok (idx - _)) by (unfold INT_MIN, INT_MAX; lia). simpl.
  rewrite (int_checked_ok (idx + _)) by (unfold INT_MIN, INT_MAX; lia). simpl.
  rewrite (int_checked_ok (size b - 1)) by (unfold INT_MIN, INT_MAX; lia). simpl.
  rewrite smooth_loop_sum by (assumption || lia). rewrite Z.add_0_l. simpl.
  rewrite length_cache by assumption.
  destruct (Nat.ltb_spec (Z.to_nat idx) (Z.to_nat MAX_POINTS)) as [_|Hbad];
    [|unfold MAX_POINTS in Hbad; lia].
  pose proof (length_neighbours b is_temp idx w Hw) as Hlen.
  unfold fresh.
  destruct (Z.gtb_spec (Z.max 0 (Z.min (size b - 1) (idx + Z.quot w 2) + 1
                                 - Z.max 0 (idx - Z.quot w 2))) 0) as [Hgt|Hle].
  - simpl.
    assert (Hmean : F32.div
              (foldl F32.add F32.zero
                 (field is_temp <$>
                    take (Z.to_nat (Z.min (size b - 1) (idx + Z.quot w 2) + 1
                                    - Z.max 0 (idx - Z.quot w 2)))
                      (drop (Z.to_nat (Z.max 0 (idx - Z.quot w 2))) (logical b))))
              (F32.of_int (Z.max 0 (Z.min (size b - 1) (idx + Z.quot w 2) + 1
                                    - Z.max 0 (idx - Z.quot w 2))))
            = mean (neighbours b is_temp idx w)).
    { unfold mean, fsum. rewrite Hlen. unfold neighbours. do 2 f_equal. lia. }
    rewrite Hmean.
    destruct (neighbours b is_temp idx w) as [|x nb] eqn:Hnb; [simpl in Hlen; lia|].
    reflexivity.
  - destruct (neighbours b is_temp idx w) as [|x nb] eqn:Hnb; [|simpl in Hlen; lia].
    destruct (slot_lookup b idx Hw) as [d Hd].
    rewrite Hd. simpl.
    rewrite (logical_lookup b idx Hw Hidx), Hd. reflexivity.
Qed.

Lemma smooth_value_hit b is_temp index w c :
  wf b -> 0 < size b -> 0 <= index < 2 ^ 64 ->
  cache is_temp b !! Z.to_nat (Z.min index (size b - 1)) = Some c ->
  F32.eqb c F32.zero = false ->
  smooth_value b is_temp index w = Ret (c, b).
Proof.
  intros Hw Hpos Hi Hc Hz.
  pose proof (wf_size b Hw) as Hs. unfold MAX_POINTS in Hs.
  unfold smooth_value.
  destruct (Z.eqb_spec (size b) 0); [lia|].
  assert (Hwrap : wrap64 (size b - 1) = size b - 1).
  { unfold wrap64. apply Z.mod_small. lia. }
  rewrite Hwrap, Hc. simpl. now rewrite Hz.
Qed.

Lemma cache_lookup b is_temp i :
  wf b -> 0 <= i < size b -> is_Some (cache is_temp b !! Z.to_nat i).
Proof.
  intros Hw Hi. apply lookup_lt_is_Some. rewrite length_cache by assumption.
  pose proof (wf_size b Hw). lia.
Qed.

Lemma fill_zero_lookup l i c :
  fill_zero l !! i = Some c -> F32.eqb c F32.zero = true.
Proof.
  unfold fill_zero. intros H. apply lookup_replicate in H as [-> _]. reflexivity.
Qed.

Lemma cache_ok_zeroed b :
  (forall is_temp i c, cache is_temp b !! i = Some c -> F32.eqb c F32.zero = true) ->
  cache_ok b.
Proof.
  intros Hz is_temp i c _ Hc Hne. rewrite (Hz _ _ _ Hc) in Hne. discriminate.
Qed.

Lemma cache_ok_new mem : cache_ok (new mem).
Proof.
  apply cache_ok_zeroed. intros [|] i c H;
    unfold cache, new in H; cbn [temp_cache press_cache] in H;
    apply lookup_replicate in H as [-> _]; reflexivity.
Qed.

Lemma cache_ok_push b p : cache_ok (push b p).
Proof.
  apply cache_ok_zeroed. intros [|] i c H;
    unfold cache, push, clear in H; cbn [temp_cache press_cache] in H;
    eauto using fill_zero_lookup.
Qed.

Lemma cache_ok_clear b : cache_ok (clear b).
Proof.
  apply cache_ok_zeroed. intros [|] i c H;
    unfold cache, push, clear in H; cbn [temp_cache press_cache] in H;
    eauto using fill_zero_lookup.
Qed.

Lemma fresh_set_cache k is_temp b c i w :
  fresh (set_cache is_temp b c) k i w = fresh b k i w.
Proof. unfold fresh. now rewrite neighbours_set_cache, logical_set_cache. Qed.

Lemma smooth_value_invariant b is_temp index v b' :
  wf b -> cache_ok b -> 0 <= index < 2 ^ 64 ->
  smooth_value b is_temp index 5 = Ret (v, b') ->
  wf b' /\ cache_ok b' /\ logical b' = logical b /\ size b' = size b.
Proof.
  intros Hw Hok Hi Hsv.
  destruct (Z.eq_dec (size b) 0) as [H0|Hn0].
  { unfold smooth_value in Hsv. rewrite H0 in Hsv. simpl in Hsv.
    inversion Hsv; subst. auto. }
  pose proof (wf_size b Hw) as Hs.
  assert (Hpos : 0 < size b) by lia.
  set (idx := Z.min index (size b - 1)).
  assert (Hidx : 0 <= idx < size b) by (unfold idx; lia).
  destruct (cache_lookup b is_temp idx Hw Hidx) as [c Hc].
  destruct (F32.eqb c F32.zero) eqn:Hz.
  - rewrite (smooth_value_miss b is_temp index 5 c) in Hsv
      by (assumption || unfold INT_MIN, INT_MAX; lia).
    inversion Hsv; subst v b'; clear Hsv. fold idx.
    split; [|split; [|split]].
    + apply set_cache_wf; [assumption|].
      rewrite length_insert. now apply length_cache.
    + intros k j x Hj Hx Hne. rewrite size_set_cache in Hj.
      rewrite fresh_set_cache. rewrite cache_set_cache in Hx.
      destruct (Bool.eqb k is_temp) eqn:Hk.
      * apply Bool.eqb_prop in Hk. subst k.
        destruct (Nat.eq_dec (Z.to_nat idx) (Z.to_nat j)) as [He|Hd].
        -- rewrite He in Hx. rewrite list_lookup_insert_eq in Hx.
           ++ inversion Hx. f_equal. lia.
           ++ rewrite length_cache by assumption. lia.
        -- rewrite list_lookup_insert_ne in Hx by assumption. now apply Hok.
      * now apply Hok.
    + apply logical_set_cache.
    + apply size_set_cache.
  - rewrite (smooth_value_hit b is_temp index 5 c) in Hsv by assumption.
    inversion Hsv; subst. auto.
Qed.

Lemma reachable_invariant b : reachable b -> wf b /\ cache_ok b.
Proof.
  induction 1 as [mem Hm|b p _ [IHw IHc]|b _ [IHw IHc]|b is_temp index v b' _ [IHw IHc] Hi Hsv].
  - split; [now apply new_wf|apply cache_ok_new].
  - split; [now apply push_wf|apply cache_ok_push].
  - split; [now apply clear_wf|apply cache_ok_clear].
  - destruct (smooth_value_invariant b is_temp index v b' IHw IHc Hi Hsv) as (?&?&_).
    auto.
Qed.


Lemma fresh_five b is_temp i :
  wf b -> 0 <= i < size b ->
  fresh b is_temp i 5 = mean (neighbours b is_temp i 5).
Proof.
  intros Hw Hi. unfold fresh.
  pose proof (length_neighbours b is_temp i 5 Hw) as Hlen.
  change (Z.quot 5 2) with 2 in Hlen.
  destruct (neighbours b is_temp i 5); [simpl in Hlen; lia|reflexivity].
Qed.

Lemma smooth_value_five b is_temp i :
  wf b -> cache_ok b -> 0 <= i < size b ->
  exists b', smooth_value b is_temp i 5 = Ret (mean (neighbours b is_temp i 5), b').
Proof.
  intros Hw Hok Hi. pose proof (wf_size b Hw) as Hs. unfold MAX_POINTS in Hs.
  assert (Hmin : Z.min i (size b - 1) = i) by lia.
  destruct (cache_lookup b is_temp i Hw Hi) as [c Hc].
  destruct (F32.eqb c F32.zero) eqn:Hz.
  - eexists.
    rewrite (smooth_value_miss b is_temp i 5 c);
      rewrite ?Hmin; try assumption; try (unfold INT_MIN, INT_MAX; lia).
    rewrite fresh_five by assumption. reflexivity.
  - exists b.
    rewrite (smooth_value_hit b is_temp i 5 c);
      rewrite ?Hmin; try assumption; try lia.
    rewrite (Hok is_temp i c Hi Hc Hz).
    now rewrite fresh_five.
Qed.

End Smoothing.

(** ** C3: the smoothed value is the windowed mean *)

(** C3. In every state the buffer can reach, for a logical index [i]
    below the size and the window 5, [smooth_value] returns the mean of
    the field over the logical indices [max 0 (i - 2)] to
    [min (size - 1) (i + 2)]; and after a [push], which zeroes the caches,
    it returns the value of the same formula over the new contents. *)
Theorem smooth_value_is_windowed_mean
    (b : CircularBuffer.t) (is_temp : bool) (i : Z) :
  CircularBuffer.reachable b ->
  0 <= i < CircularBuffer.size b ->
  exists b',
    CircularBuffer.smooth_value b is_temp i 5 =
      Ret (CircularBuffer.mean (CircularBuffer.neighbours b is_temp i 5), b') /\
    forall p j,
      0 <= j < CircularBuffer.size (CircularBuffer.push b' p) ->
      exists b'',
        CircularBuffer.smooth_value (CircularBuffer.push b' p) is_temp j 5 =
          Ret (CircularBuffer.mean
                 (CircularBuffer.neighbours (CircularBuffer.push b' p) is_temp j 5), b'').
Proof.
  intros Hr Hi. destruct (reachable_invariant b Hr) as [Hw Hok].
  destruct (smooth_value_five b is_temp i Hw Hok Hi) as [b' Hb'].
  exists b'. split; [exact Hb'|].
  intros p j Hj.
  assert (Hi' : 0 <= i < 2 ^ 64).
  { pose proof (CircularBuffer.wf_size b Hw). unfold MAX_POINTS in *. lia. }
  destruct (smooth_value_invariant b is_temp i _ b' Hw Hok Hi' Hb') as (Hw' & _).
  apply smooth_value_five; [now apply push_wf|apply cache_ok_push|exact Hj].
Qed.

Lemma smooth_value_is_windowed_mean_witness :
  exists b',
    CircularBuffer.smooth_value one_sample_buffer true 0 5 =
      Ret (CircularBuffer.mean (CircularBuffer.neighbours one_sample_buffer true 0 5), b') /\
    forall p j,
      0 <= j < CircularBuffer.size (CircularBuffer.push b' p) ->
      exists b'',
        CircularBuffer.smooth_value (CircularBuffer.push b' p) true j 5 =
          Ret (CircularBuffer.mean
                 (CircularBuffer.neighbours (CircularBuffer.push b' p) true j 5), b'').
Proof.
  apply (smooth_value_is_windowed_mean one_sample_buffer true 0).
  - apply CircularBuffer.reach_push, CircularBuffer.reach_new. reflexivity.
  - simpl. lia.
Defined.

(** ** C10: the smoothing accessor never fails *)

(** C10. On a well-formed buffer, for every index of type [size_t] and
    every window of type [int], [smooth_value] returns a value: it neither
    throws nor reads or writes out of bounds nor overflows.  On an empty
    buffer the value is 0.0.  An index at or beyond the size is clamped to
    [size - 1], the newest retained sample, and the value returned is the
    smoothed value of that sample: the cache entry of index [size - 1]
    when it does not compare equal to zero, and otherwise the value
    computed over the window around [size - 1], which is then stored.  In
    every state the program can reach, with its window of 5, that value is
    the mean over the logical indices [max 0 (size - 3)] to [size - 1]. *)
Theorem smooth_value_never_fails
    (b : CircularBuffer.t) (is_temp : bool) (index window : Z) :
  CircularBuffer.wf b ->
  0 <= index < 2 ^ 64 ->
  INT_MIN <= window <= INT_MAX ->
  (exists v b', CircularBuffer.smooth_value b is_temp index window = Ret (v, b')) /\
  (CircularBuffer.size b = 0 ->
     CircularBuffer.smooth_value b is_temp index window = Ret (F32.zero, b)) /\
  (0 < CircularBuffer.size b -> CircularBuffer.size b <= index ->
     CircularBuffer.smooth_value b is_temp index window =
     CircularBuffer.smooth_value b is_temp (CircularBuffer.size b - 1) window) /\
  (0 < CircularBuffer.size b -> CircularBuffer.size b <= index ->
     exists c,
       CircularBuffer.cache is_temp b !! Z.to_nat (CircularBuffer.size b - 1) = Some c /\
       CircularBuffer.smooth_value b is_temp index window =
         if F32.eqb c F32.zero
         then Ret (CircularBuffer.fresh b is_temp (CircularBuffer.size b - 1) window,
                   CircularBuffer.set_cache is_temp b
                     (<[Z.to_nat (CircularBuffer.size b - 1) :=
                          CircularBuffer.fresh b is_temp (CircularBuffer.size b - 1) window]>
                        (CircularBuffer.cache is_temp b)))
         else Ret (c, b)) /\
  (CircularBuffer.reachable b ->
   0 < CircularBuffer.size b -> CircularBuffer.size b <= index ->
     exists b',
       CircularBuffer.smooth_value b is_temp index 5 =
         Ret (CircularBuffer.mean
                (CircularBuffer.neighbours b is_temp (CircularBuffer.size b - 1) 5), b')).
Proof.
  intros Hw Hi Hwin. pose proof (CircularBuffer.wf_size b Hw) as Hs.
  assert (Hempty : CircularBuffer.size b = 0 ->
            CircularBuffer.smooth_value b is_temp index window = Ret (F32.zero, b)).
  { intros H0. unfold CircularBuffer.smooth_value. now rewrite H0. }
  assert (Hlast : forall w, INT_MIN <= w <= INT_MAX ->
            0 < CircularBuffer.size b -> CircularBuffer.size b <= index ->
            exists c,
              CircularBuffer.cache is_temp b !! Z.to_nat (CircularBuffer.size b - 1) = Some c /\
              CircularBuffer.smooth_value b is_temp index w =
                if F32.eqb c F32.zero
                then Ret (CircularBuffer.fresh b is_temp (CircularBuffer.size b - 1) w,
                          CircularBuffer.set_cache is_temp b
                            (<[Z.to_nat (CircularBuffer.size b - 1) :=
                                 CircularBuffer.fresh b is_temp (CircularBuffer.size b - 1) w]>
                               (CircularBuffer.cache is_temp b)))
                else Ret (c, b)).
  { intros w Hwr Hpos Hge.
    assert (Hmin : Z.min index (CircularBuffer.size b - 1) = CircularBuffer.size b - 1) by lia.
    assert (Hidx : 0 <= CircularBuffer.size b - 1 < CircularBuffer.size b) by lia.
    destruct (cache_lookup b is_temp _ Hw Hidx) as [c Hc].
    exists c. split; [exact Hc|].
    destruct (F32.eqb c F32.zero) eqn:Hz.
    - rewrite (smooth_value_miss b is_temp index w c); rewrite ?Hmin; auto.
    - rewrite (smooth_value_hit b is_temp index w c); rewrite ?Hmin; auto. }
  split; [|split; [exact Hempty|split; [|split]]].
  - destruct (Z.eq_dec (CircularBuffer.size b) 0) as [H0|Hn0].
    { eauto. }
    assert (Hpos : 0 < CircularBuffer.size b) by lia.
    assert (Hidx : 0 <= Z.min index (CircularBuffer.size b - 1) < CircularBuffer.size b) by lia.
    destruct (cache_lookup b is_temp _ Hw Hidx) as [c Hc].
    destruct (F32.eqb c F32.zero) eqn:Hz.
    + rewrite (smooth_value_miss b is_temp index window c) by assumption. eauto.
    + rewrite (smooth_value_hit b is_temp index window c) by assumption. eauto.
  - intros Hpos Hge. unfold CircularBuffer.smooth_value.
    destruct (Z.eqb_spec (CircularBuffer.size b) 0); [lia|].
    assert (Hwrap : wrap64 (CircularBuffer.size b - 1) = CircularBuffer.size b - 1).
    { unfold wrap64. apply Z.mod_small. unfold MAX_POINTS in Hs. lia. }
    rewrite Hwrap.
    replace (Z.min index (CircularBuffer.size b - 1)) with (CircularBuffer.size b - 1) by lia.
    now rewrite Z.min_id.
  - apply Hlast. exact Hwin.
  - intros Hr Hpos Hge.
    destruct (reachable_invariant b Hr) as [_ Hok].
    assert (Hidx : 0 <= CircularBuffer.size b - 1 < CircularBuffer.size b) by lia.
    destruct (Hlast 5 ltac:(unfold INT_MIN, INT_MAX; lia) Hpos Hge) as (c & Hc & E).
    rewrite E. destruct (F32.eqb c F32.zero) eqn:Hz.
    + eexists. rewrite fresh_five by assumption. reflexivity.
    + exists b. rewrite (Hok is_temp _ c Hidx Hc Hz).
      rewrite fresh_five by assumption. reflexivity.
Qed.

Lemma smooth_value_never_fails_witness :
  CircularBuffer.smooth_value one_sample_buffer true 9 5 =
    CircularBuffer.smooth_value one_sample_buffer true 0 5 /\
  exists b',
    CircularBuffer.smooth_value one_sample_buffer true 9 5 =
      Ret (CircularBuffer.mean (CircularBuffer.neighbours one_sample_buffer true 0 5), b') /\
    CircularBuffer.mean (CircularBuffer.neighbours one_sample_buffer true 0 5) =
      temperature (sample 7).
Proof.
  destruct (smooth_value_never_fails one_sample_buffer true 9 5) as (_ & _ & C & _ & M).
  - apply push_wf, new_wf. reflexivity.
  - lia.
  - unfold INT_MIN, INT_MAX. lia.
  - split.
    + apply C; simpl; lia.
    + destruct M as [b' E].
      * apply CircularBuffer.reach_push, CircularBuffer.reach_new. reflexivity.
      * simpl. lia.
      * simpl. lia.
      * exists b'. split; [exact E|]. vm_compute. reflexivity.
Defined.

(** ** The serial reader *)

Section Reader.

Lemma char_eqb_eq a b : char_eqb a b = true <-> a = b.
Proof. apply Ascii.eqb_eq. Qed.

Lemma char_eqb_neq a b : char_eqb a b = false <-> a <> b.
Proof. apply Ascii.eqb_neq. Qed.




Lemma history_add_error msg p t g : history (add_error msg p t g) = history g.
Proof. now destruct p. Qed.




(** Every text is some lines closed by a newline followed by a remainder
    without newline, so the theorem below speaks of every read. *)
Lemma joined_exists s :
  exists lines rem, s = joined lines rem /\ Forall no_newline lines /\ no_newline rem.
Proof.
  induction s as [|c s (lines & rem & -> & Hls & Hrem)].
  - exists [], []. repeat split; constructor.
  - destruct (Ascii.eqb_spec c newline) as [->|Hc].
    + exists ([] :: lines), rem. repeat split; [|assumption].
      constructor; [constructor|assumption].
    + destruct lines as [|l ls].
      * exists [], (c :: rem). repeat split; [constructor|].
        constructor; assumption.
      * apply Forall_cons in Hls as [Hl Hls].
        exists ((c :: l) :: ls), rem. repeat split; [|assumption].
        constructor; [constructor; assumption|assumption].
Qed.

End Reader.

(** ** C4: a sample is pushed when both fields were seen *)




(** ** The pending bytes fit the serial buffer *)

Section PendingBuffer.

Lemma read_lines_length s : forall cur t rg,
  (length (fst (read_lines cur s t rg)) <= length cur + length s)%nat.
Proof.
  induction s as [|c s IH]; intros cur t rg; simpl.
  - lia.
  - destruct (char_eqb c newline).
    + specialize (IH [] t (process_line cur t rg)). simpl in IH. lia.
    + specialize (IH (cur ++ [c]) t rg). rewrite length_app in IH. simpl in IH. lia.
Qed.

Lemma length_store (a : list ascii) off data :
  (Z.to_nat off + length data <= length a)%nat ->
  length (store a off data) = length a.
Proof.
  intros H. unfold store. rewrite !length_app, length_take, length_drop. lia.
Qed.

Lemma read_serial_serial_ok w g : serial_ok g -> serial_ok (read_serial w g).
Proof.
  intros [Hlen Hpos]. pose proof (conj Hlen Hpos) as Hok.
  unfold read_serial.
  destruct ((fd g =? -1) || paused g); [exact Hok|].
  destruct (select_ready w <? 0).
  { exact Hok. }
  destruct (select_ready w =? 0); [exact Hok|].
  destruct (incoming w) as [data|eagain].
  2:{ destruct eagain; exact Hok. }
  set (got := take (Z.to_nat (BUFFER_SIZE - serial_buf_pos g - 1)) data).
  assert (Hgl : (length got <= Z.to_nat (BUFFER_SIZE - serial_buf_pos g - 1))%nat).
  { unfold got. rewrite length_take. lia. }
  destruct (Z.leb_spec (Z.of_nat (length got)) 0); [exact Hok|].
  unfold BUFFER_SIZE in *.
  set (mem := <[Z.to_nat (serial_buf_pos g + Z.of_nat (length got)) := NUL]>
                 (store (serial_buffer g) (serial_buf_pos g) got)).
  assert (Hmem : length mem = Z.to_nat 256).
  { unfold mem. rewrite length_insert, length_store by lia. exact Hlen. }
  pose proof (read_lines_length
                (take (Z.to_nat (serial_buf_pos g + Z.of_nat (length got))) mem)
                [] (now w) (no_reading, g)) as Hrest.
  rewrite length_take in Hrest. simpl in Hrest.
  destruct (read_lines [] (take (Z.to_nat (serial_buf_pos g + Z.of_nat (length got))) mem)
              (now w) (no_reading, g)) as [rest [r g1]].
  simpl in Hrest.
  destruct (Z.ltb_spec 0 (Z.of_nat (length rest))).
  - split; simpl; unfold BUFFER_SIZE; [|lia].
    rewrite length_insert, length_store by (simpl; lia). exact Hmem.
  - split; simpl; unfold BUFFER_SIZE; [exact Hmem|lia].
Qed.

End PendingBuffer.

(** ** C6: the reconnection policy *)

Section Reconnection.

Lemma try_reconnect_not_due w g :
  reconnect_due w g = false -> try_reconnect w g = g.
Proof.
  unfold reconnect_due, try_reconnect. intros H.
  destruct (negb (fd g =? -1) || (max_reconnect_attempts <=? reconnect_attempts g));
    [reflexivity|].
  simpl in H. apply negb_false_iff in H. now rewrite H.
Qed.

Lemma policy_add_error msg p t g :
  last_reconnect_attempt (add_error msg p t g) = last_reconnect_attempt g /\
  reconnect_attempts (add_error msg p t g) = reconnect_attempts g /\
  fd (add_error msg p t g) = fd g.
Proof. now destruct p. Qed.

Lemma try_baud_rates_result port w g :
  let g' := try_baud_rates [B9600; B115200] port w g in
  last_reconnect_attempt g' = last_reconnect_attempt g /\
  if is_inl (open_port w port B9600) || is_inl (open_port w port B115200)
  then reconnect_attempts g' = 0 /\ error_messages g' = [] /\
       persistent_errors g' = [] /\ fd g' <> -1
  else reconnect_attempts g' = reconnect_attempts g /\ fd g' = -1.
Proof.
  unfold try_baud_rates, open_serial.
  destruct (open_port w port B9600) as [d|what]; simpl.
  { repeat split. lia. }
  destruct (open_port w port B115200) as [d|what']; simpl.
  { repeat split. lia. }
  repeat split.
Qed.

Lemma try_reconnect_due w g :
  reconnect_due w g = true ->
  fd g = -1 /\
  reconnect_attempts g < max_reconnect_attempts /\
  last_reconnect_attempt g + RECONNECT_TIMEOUT <= now w /\
  last_reconnect_attempt (try_reconnect w g) = now w /\
  if port_opens w
  then reconnect_attempts (try_reconnect w g) = 0 /\
       error_messages (try_reconnect w g) = [] /\
       persistent_errors (try_reconnect w g) = [] /\
       fd (try_reconnect w g) <> -1
  else reconnect_attempts (try_reconnect w g) = reconnect_attempts g + 1 /\
       fd (try_reconnect w g) = -1.
Proof.
  unfold reconnect_due, try_reconnect, port_opens. intros H.
  apply andb_prop in H as [H1 H2].
  apply negb_true_iff in H1, H2. rewrite H1, H2.
  apply orb_false_elim in H1 as [Hfd Hatt].
  apply negb_false_iff, Z.eqb_eq in Hfd.
  apply Z.leb_gt in Hatt. apply Z.ltb_ge in H2.
  repeat (split; [lia|]).
  destruct (find_serial_port w) as [port|].
  - pose proof (try_baud_rates_result port w
                  (set_reconnect_attempts (reconnect_attempts g + 1)
                     (set_last_reconnect_attempt (now w) g))) as [Hl Hr].
    split; [exact Hl|].
    destruct (is_inl (open_port w port B9600) || is_inl (open_port w port B115200));
      exact Hr.
  - simpl. repeat split. exact Hfd.
Qed.

Lemma no_attempt_once_exhausted steps : forall g,
  Forall (fun s : step => keeps_policy (snd s)) steps ->
  max_reconnect_attempts <= reconnect_attempts g ->
  attempts steps g = [] /\
  reconnect_attempts (execute g steps) = reconnect_attempts g.
Proof.
  induction steps as [|[w f] steps IH]; intros g Hk Hmax; [easy|].
  apply Forall_cons in Hk as [Hf Hk]. simpl in Hf.
  assert (Hdue : reconnect_due w g = false).
  { unfold reconnect_due. destruct (Z.leb_spec max_reconnect_attempts (reconnect_attempts g));
      [|lia]. now rewrite orb_true_r. }
  simpl. rewrite Hdue. unfold do_step. simpl.
  rewrite (try_reconnect_not_due w g Hdue).
  destruct (Hf g) as [_ Hc].
  destruct (IH (f g) Hk) as [Ha He]; [lia|].
  split; [exact Ha|]. unfold execute in *. now rewrite He.
Qed.

Lemma attempts_paced_and_counted steps : forall g,
  Forall (fun s : step => keeps_policy (snd s)) steps ->
  0 <= reconnect_attempts g <= max_reconnect_attempts ->
  paced (last_reconnect_attempt g) (fst <$> attempts steps g) /\
  reconnect_attempts (execute g steps) =
    failures_in_a_row (reconnect_attempts g) (attempts steps g) /\
  0 <= reconnect_attempts (execute g steps) <= max_reconnect_attempts.
Proof.
  induction steps as [|[w f] steps IH]; intros g Hk Hc; [easy|].
  apply Forall_cons in Hk as [Hf Hk]. simpl in Hf.
  destruct (Hf (try_reconnect w g)) as [Hfl Hfc].
  simpl. unfold do_step. simpl.
  destruct (reconnect_due w g) eqn:Hdue.
  - destruct (try_reconnect_due w g Hdue) as (_ & Hlt & Hgap & Hlast & Hres).
    destruct (IH (f (try_reconnect w g)) Hk) as (Hp & He & Hb).
    { rewrite Hfc. destruct (port_opens w); unfold max_reconnect_attempts in *; lia. }
    rewrite Hfl, Hlast in Hp. rewrite Hfc in He.
    simpl. split; [split; assumption|]. split; [|exact Hb].
    unfold execute in *. rewrite He.
    destruct (port_opens w); [destruct Hres as [-> _]|destruct Hres as [-> _]]; reflexivity.
  - rewrite (try_reconnect_not_due w g Hdue) in *.
    destruct (IH (f g) Hk) as (Hp & He & Hb); [lia|].
    rewrite Hfl in Hp. rewrite Hfc in He. simpl.
    split; [exact Hp|]. split; [exact He|exact Hb].
Qed.

Lemma read_lines_policy s : forall c t rg,
  last_reconnect_attempt (snd (snd (read_lines c s t rg)))
    = last_reconnect_attempt (snd rg) /\
  reconnect_attempts (snd (snd (read_lines c s t rg)))
    = reconnect_attempts (snd rg).
Proof.
  induction s as [|a s IH]; intros c t [r0 g0]; cbn [read_lines]; [easy|].
  destruct (char_eqb a newline); [|apply IH].
  destruct (IH [] t (process_line c t (r0, g0))) as [-> ->].
  unfold process_line. destruct (classify c); easy.
Qed.

Lemma read_serial_keeps_policy w : keeps_policy (read_serial w).
Proof.
  intros g. unfold read_serial.
  destruct ((fd g =? -1) || paused g); [easy|].
  destruct (select_ready w <? 0); [easy|].
  destruct (select_ready w =? 0); [easy|].
  destruct (incoming w) as [data|[|]]; try easy.
  destruct (Z.of_nat (length (take (Z.to_nat (BUFFER_SIZE - serial_buf_pos g - 1)) data)) <=? 0);
    [easy|].
  match goal with |- context [read_lines ?c ?s ?t ?rg] =>
    pose proof (read_lines_policy s c t rg) as Hinv;
    destruct (read_lines c s t rg) as [rest [r g1]]
  end.
  simpl in Hinv.
  destruct (got_temp r && got_press r), (0 <? Z.of_nat (length rest)); exact Hinv.
Qed.

(** The loop of [run] is such an execution: apart from [try_reconnect],
    called by [update_state] and on a change of baud rate, nothing in it
    writes the two members. *)

Lemma policy_respected_refl g : policy_respected g g.
Proof. split; auto. Qed.

Lemma policy_respected_trans g1 g2 g3 :
  policy_respected g1 g2 -> policy_respected g2 g3 -> policy_respected g1 g3.
Proof.
  intros [Hb1 He1] [Hb2 He2]. split; [auto|].
  intros H. destruct (He1 H) as [H2 Hl]. destruct (He2 H2) as [H3 Hl'].
  split; congruence.
Qed.

Lemma policy_respected_same g g' :
  last_reconnect_attempt g' = last_reconnect_attempt g ->
  reconnect_attempts g' = reconnect_attempts g ->
  policy_respected g g'.
Proof. intros Hl Hc. split; rewrite Hc; auto. Qed.

Lemma try_reconnect_respects w g : policy_respected g (try_reconnect w g).
Proof.
  destruct (reconnect_due w g) eqn:Hdue.
  - destruct (try_reconnect_due w g Hdue) as (_ & Hlt & _ & _ & Hres).
    split; unfold max_reconnect_attempts in *; [|lia].
    intros Hc. destruct (port_opens w); destruct Hres as [-> _]; lia.
  - rewrite (try_reconnect_not_due w g Hdue). apply policy_respected_refl.
Qed.

Lemma save_data_respects w fs g g' fs' :
  save_data w fs g = Ret (g', fs') -> policy_respected g g'.
Proof.
  unfold save_data. intros H.
  destruct (negb (ofstream_opens w)).
  { inversion H; subst. now apply policy_respected_same. }
  destruct (save_rows _ 0 (history g) (csv_delimiter g)) as [content| |];
    try discriminate.
  simpl in H.
  destruct (write_limit w <? length content)%nat.
  { inversion H; subst. now apply policy_respected_same. }
  destruct (rename_what w); inversion H; subst; now apply policy_respected_same.
Qed.

Lemma handle_event_respects w ev g fs g' fs' :
  handle_event w ev (g, fs) = Ret (g', fs') -> policy_respected g g'.
Proof.
  unfold handle_event. intros H.
  destruct ev as [[|input| | |typed|]|]; try discriminate.
  - apply save_data_respects in H.
    destruct input as [|c input]; [exact H|].
    apply policy_respected_trans with (set_filename (c :: input) g);
      [now apply policy_respected_same|exact H].
  - inversion H; subst. now apply policy_respected_same.
  - inversion H; subst. destruct (negb (fd g =? -1));
      now apply policy_respected_same.
  - destruct typed as [baud|].
    2:{ inversion H; subst. now apply policy_respected_same. }
    destruct (negb (baud =? 9600) && negb (baud =? 115200)).
    { inversion H; subst. now apply policy_respected_same. }
    inversion H; subst; clear H.
    set (g1 := set_baud_rate (if baud =? 115200 then B115200 else B9600) g).
    set (g2 := if negb (fd g1 =? -1) then try_reconnect w (set_fd (-1) g1) else g1).
    apply policy_respected_trans with g2; [|now apply policy_respected_same].
    unfold g2. destruct (negb (fd g1 =? -1)).
    + apply policy_respected_trans with (set_fd (-1) g1);
        [now apply policy_respected_same|apply try_reconnect_respects].
    + now apply policy_respected_same.
  - inversion H; subst. apply policy_respected_refl.
  - inversion H; subst. apply policy_respected_refl.
Qed.

Lemma handle_events_respects w evs : forall g fs g' fs',
  handle_events w evs (g, fs) = Ret (g', fs') -> policy_respected g g'.
Proof.
  induction evs as [|ev evs IH]; intros g fs g' fs' H; cbn [handle_events] in H.
  - inversion H; subst. apply policy_respected_refl.
  - destruct (handle_event w ev (g, fs)) as [[g1 fs1]| |] eqn:He; try discriminate.
    cbn [bind] in H. apply policy_respected_trans with g1.
    + eapply handle_event_respects; exact He.
    + eapply IH; exact H.
Qed.

Lemma update_state_respects w g fs g' fs' :
  update_state w (g, fs) = Ret (g', fs') -> policy_respected g g'.
Proof.
  unfold update_state. intros H.
  assert (H1 : policy_respected g (read_serial w (try_reconnect w g))).
  { apply policy_respected_trans with (try_reconnect w g);
      [apply try_reconnect_respects|].
    destruct (read_serial_keeps_policy w (try_reconnect w g)).
    now apply policy_respected_same. }
  destruct (negb (paused (read_serial w (try_reconnect w g)))
            && (save_interval (read_serial w (try_reconnect w g))
                <=? now w - last_save (read_serial w (try_reconnect w g)))).
  - destruct (save_data w fs (read_serial w (try_reconnect w g)))
      as [[g2 fs2]| |] eqn:Hs; try discriminate.
    cbn [bind fst snd] in H. inversion H; subst.
    apply policy_respected_trans with (read_serial w (try_reconnect w g)); [exact H1|].
    apply policy_respected_trans with g2; [eapply save_data_respects; exact Hs|].
    now apply policy_respected_same.
  - inversion H; subst. exact H1.
Qed.

Lemma run_once_respects tk g fs g' fs' :
  run_once tk (g, fs) = Ret (g', fs') -> policy_respected g g'.
Proof.
  destruct tk as [evs w]. unfold run_once. intros H.
  destruct (handle_events w evs (g, fs)) as [[g1 fs1]| |] eqn:He; try discriminate.
  cbn [bind] in H.
  destruct (update_state w (g1, fs1)) as [[g2 fs2]| |] eqn:Hu; try discriminate.
  cbn [bind fst snd] in H. inversion H; subst; clear H.
  apply policy_respected_trans with g1; [eapply handle_events_respects; exact He|].
  apply policy_respected_trans with g2; [eapply update_state_respects; exact Hu|].
  cbn [fst]. destruct (error_messages g2); [apply policy_respected_refl|].
  destruct (ERROR_DISPLAY_TIME <? now w - last_error_time g2);
    now apply policy_respected_same.
Qed.

(** Along the loop the counter stays between 0 and 10, and once it is 10
    it stays 10 and the time of the last attempt no longer moves: no
    further attempt is made. *)
Lemma run_respects_policy ticks : forall g fs g' fs',
  run ticks (g, fs) = Ret (g', fs') -> policy_respected g g'.
Proof.
  induction ticks as [|tk ticks IH]; intros g fs g' fs' H; cbn [run] in H.
  - inversion H; subst. apply policy_respected_refl.
  - destruct (run_once tk (g, fs)) as [[g1 fs1]| |] eqn:Ho; try discriminate.
    cbn [bind] in H. apply policy_respected_trans with g1.
    + eapply run_once_respects; exact Ho.
    + eapply IH; exact H.
Qed.

End Reconnection.

(** C6. Along every execution, whatever the rest of the program does
    between the calls: two attempts to reconnect are at least
    [RECONNECT_TIMEOUT] = 5 seconds apart; the member
    [reconnect_attempts] counts the failed attempts in a row and never
    exceeds [max_reconnect_attempts] = 10; once it has reached 10 no
    further attempt is made; and an attempt that opens the port sets the
    counter back to 0, empties both error lists and leaves the link
    connected. *)
Theorem reconnection_policy (steps : list step) (g : BMP280Gui) :
  Forall (fun s : step => keeps_policy (snd s)) steps ->
  0 <= reconnect_attempts g <= max_reconnect_attempts ->
  paced (last_reconnect_attempt g) (fst <$> attempts steps g) /\
  reconnect_attempts (execute g steps) =
    failures_in_a_row (reconnect_attempts g) (attempts steps g) /\
  0 <= reconnect_attempts (execute g steps) <= max_reconnect_attempts /\
  (reconnect_attempts g = max_reconnect_attempts -> attempts steps g = []) /\
  (forall w, reconnect_due w g = true -> port_opens w = true ->
     reconnect_attempts (try_reconnect w g) = 0 /\
     error_messages (try_reconnect w g) = [] /\
     persistent_errors (try_reconnect w g) = [] /\
     fd (try_reconnect w g) <> -1).
Proof.
  intros Hk Hc.
  destruct (attempts_paced_and_counted steps g Hk Hc) as (Hp & He & Hb).
  repeat (split; [assumption|]). split.
  - intros Hmax. apply no_attempt_once_exhausted; [assumption|lia].
  - intros w Hdue Hopen.
    destruct (try_reconnect_due w g Hdue) as (_ & _ & _ & _ & Hres).
    now rewrite Hopen in Hres.
Qed.

Lemma reconnection_policy_witness :
  paced (last_reconnect_attempt disconnected_gui)
    (fst <$> attempts demo_steps disconnected_gui) /\
  reconnect_attempts (execute disconnected_gui demo_steps) =
    failures_in_a_row (reconnect_attempts disconnected_gui)
      (attempts demo_steps disconnected_gui) /\
  0 <= reconnect_attempts (execute disconnected_gui demo_steps) <= max_reconnect_attempts /\
  (reconnect_attempts disconnected_gui = max_reconnect_attempts ->
     attempts demo_steps disconnected_gui = []) /\
  (forall w, reconnect_due w disconnected_gui = true -> port_opens w = true ->
     reconnect_attempts (try_reconnect w disconnected_gui) = 0 /\
     error_messages (try_reconnect w disconnected_gui) = [] /\
     persistent_errors (try_reconnect w disconnected_gui) = [] /\
     fd (try_reconnect w disconnected_gui) <> -1).
Proof.
  apply (reconnection_policy demo_steps disconnected_gui).
  - unfold demo_steps.
    repeat (apply Forall_cons_2; [apply read_serial_keeps_policy|]).
    apply Forall_nil_2.
  - simpl. unfold max_reconnect_attempts. lia.
Defined.

(** ** C9: how the process ends *)

Section Exit.

Lemma run_app ticks1 : forall ticks2 gf,
  run (ticks1 ++ ticks2) gf = (gf' <- run ticks1 gf ;; run ticks2 gf').
Proof.
  induction ticks1 as [|tk ticks1 IH]; intros ticks2 gf; simpl; [reflexivity|].
  destruct (run_once tk gf); simpl; auto.
Qed.

Lemma handle_events_app w evs1 : forall evs2 gf,
  handle_events w (evs1 ++ evs2) gf =
    (gf' <- handle_events w evs1 gf ;; handle_events w evs2 gf').
Proof.
  induction evs1 as [|ev evs1 IH]; intros evs2 gf; simpl; [reflexivity|].
  destruct (handle_event w ev gf); simpl; auto.
Qed.

(** Whatever came before, the turn in which [q] is pressed ends [main]
    with exit code 1. *)
Lemma quit_exits_with_code_one su args w fs g before gf evs evs' w' gf' after :
  construct su args w fs = Ret g ->
  run before (g, fs) = Ret gf ->
  handle_events w' evs gf = Ret gf' ->
  main su args w fs (before ++ (evs ++ KeyPress Key_q :: evs', w') :: after) = exit_code 1.
Proof.
  intros Hc Hr He. unfold main. rewrite Hc. simpl.
  rewrite run_app, Hr. simpl.
  rewrite handle_events_app, He. simpl. destruct gf'. reflexivity.
Qed.

Lemma startup_failure_exits_with_code_one su args w fs ticks :
  display_opens su = false -> main su args w fs ticks = exit_code 1.
Proof. intros H. unfold main, construct. now rewrite H. Qed.

(** No path through [main] reaches [return 0]. *)
Lemma main_never_exits_with_code_zero su args w fs ticks :
  main su args w fs ticks <> exit_code 0.
Proof.
  unfold main.
  destruct (app <- construct su args w fs;; run ticks (app, fs)); discriminate.
Qed.

End Exit.

(** C9 at the failing input: the application starts, the operator
    presses [q] in the first turn of the loop, and [main] returns 1, not
    0. *)
Theorem user_quit_exits_with_code_one :
  main demo_startup demo_arguments (quiet_world 1700000000) no_files
       [([KeyPress Key_q], quiet_world 1700000000)] = exit_code 1.
Proof. vm_compute. reflexivity. Qed.

(** ** C7: loading a data file *)

Section Loading.

Lemma load_rows_accepted t lines : forall g,
  history (foldl (load_row t) g lines) =
    foldl CircularBuffer.push (history g) (omap (parse_row (csv_delimiter g) t) lines) /\
  csv_delimiter (foldl (load_row t) g lines) = csv_delimiter g.
Proof.
  induction lines as [|line lines IH]; intros g; [easy|].
  cbn [foldl]. simpl omap. unfold load_row at 2 4.
  destruct (parse_row (csv_delimiter g) t line) as [d|].
  - apply (IH (set_history (CircularBuffer.push (history g) d) g)).
  - apply (IH (add_error (chars "Invalid data line: " ++ line) false t g)).
Qed.

(** What [load_data] keeps of a file it can open: the rows [parse_row]
    accepts, pushed in file order into the emptied buffer; the result
    tells whether the buffer ends up non-empty. *)
Lemma load_data_keeps_parsed_rows path w fs g content :
  fs path = Some content ->
  ifstream_opens w = true ->
  history (fst (load_data path w fs g)) =
    foldl CircularBuffer.push (CircularBuffer.clear (history g))
      (omap (parse_row (csv_delimiter g) (now w)) (Stream.getlines content)) /\
  snd (load_data path w fs g) =
    (0 <? CircularBuffer.get_size (history (fst (load_data path w fs g)))).
Proof.
  intros Hf Ho. unfold load_data. rewrite Hf, Ho. simpl negb. cbv iota.
  cbn [fst snd]. split; [|reflexivity].
  now destruct (load_rows_accepted (now w) (Stream.getlines content)
                  (set_history (CircularBuffer.clear (history g)) g)) as [-> _].
Qed.

End Loading.

(** C7 at the failing input: with the comma configured, the row
    [23.5;990.0,1700000000] is accepted although its first separator is a
    semicolon; it is stored, no rejection is reported and [load_data]
    returns [true]. *)
Theorem load_accepts_row_with_foreign_first_separator :
  csv_delimiter connected_gui = ascii_of_N 44 /\
  parse_row (csv_delimiter connected_gui) 1800000000 mixed_row
    = Some (mkDataPoint (F32.div (F32.of_int 47) (F32.of_int 2)) (F32.of_int 990) 1700000000)
  /\ CircularBuffer.get_size
       (history (fst (load_data (chars "logs/data.csv") (quiet_world 1800000000)
                        mixed_file connected_gui))) = 1
  /\ error_messages (fst (load_data (chars "logs/data.csv") (quiet_world 1800000000)
                            mixed_file connected_gui)) = []
  /\ snd (load_data (chars "logs/data.csv") (quiet_world 1800000000)
            mixed_file connected_gui) = true.
Proof. vm_compute. repeat split. Qed.

(** ** The data file: extraction after insertion *)

Section Extraction.

Lemma benign_spec d :
  benign d = true ->
  Libc.isspace d = false /\ Libc.isdigit d = false /\
  code d <> 46 /\ code d <> 101 /\ code d <> 69 /\ code d <> 43 /\ code d <> 45.
Proof.
  unfold benign. intros H.
  repeat (apply andb_prop in H as [H ?]).
  repeat match goal with
         | H : negb _ = true |- _ => apply negb_true_iff in H
         | H : (_ =? _) = false |- _ => apply Z.eqb_neq in H
         end.
  auto 10.
Qed.

Lemma skipws_app s c s' t :
  Libc.skipws s = c :: s' -> Libc.skipws (s ++ t) = c :: s' ++ t.
Proof.
  induction s as [|a s IH]; simpl; [discriminate|].
  destruct (Libc.isspace a); [exact IH|].
  intros H. inversion H; subst. reflexivity.
Qed.

Lemma skip_zeros_app s d r :
  code d <> 48 ->
  Stream.skip_zeros (s ++ d :: r) = Stream.skip_zeros s ++ d :: r.
Proof.
  intros Hd. induction s as [|a s IH]; simpl.
  - apply Z.eqb_neq in Hd. now rewrite Hd.
  - destruct (code a =? 48); [exact IH|reflexivity].
Qed.

Lemma accumulate_benign d r fm fdec fsci :
  benign d = true -> Stream.accumulate (d :: r) fm fdec fsci = ([], d :: r).
Proof.
  intros H. apply benign_spec in H as (_ & Hdig & H46 & H101 & H69 & _).
  simpl. rewrite Hdig.
  apply Z.eqb_neq in H46. apply Z.eqb_neq in H101. apply Z.eqb_neq in H69.
  now rewrite H46, H101, H69.
Qed.

Lemma accumulate_app d r n : forall s fm fdec fsci,
  benign d = true ->
  (length s <= n)%nat ->
  snd (Stream.accumulate s fm fdec fsci) = [] ->
  Stream.accumulate (s ++ d :: r) fm fdec fsci =
    (fst (Stream.accumulate s fm fdec fsci), d :: r).
Proof.
  induction n as [|n IH]; intros s fm fdec fsci Hd Hn Hs.
  - destruct s; [|simpl in Hn; lia]. simpl. now apply accumulate_benign.
  - destruct s as [|c s]; [simpl; now apply accumulate_benign|].
    simpl in Hn. cbn [app Stream.accumulate] in *.
    destruct (Libc.isdigit c).
    { simpl in Hs. rewrite IH by (assumption || lia). reflexivity. }
    destruct ((code c =? 46) && negb fdec && negb fsci).
    { simpl in Hs. rewrite IH by (assumption || lia). reflexivity. }
    destruct (((code c =? 101) || (code c =? 69)) && negb fsci && fm).
    2:{ simpl in Hs. discriminate. }
    destruct s as [|c2 s].
    + cbn [app]. pose proof (benign_spec d Hd) as (_ & _ & _ & _ & _ & H43 & H45).
      apply Z.eqb_neq in H43. apply Z.eqb_neq in H45.
      rewrite H43, H45. simpl orb. cbv iota.
      rewrite accumulate_benign by assumption. reflexivity.
    + cbn [app]. simpl in Hn.
      destruct ((code c2 =? 43) || (code c2 =? 45)).
      * simpl in Hs. rewrite IH by (assumption || lia). reflexivity.
      * simpl in Hs. rewrite (IH (c2 :: s)) by (assumption || simpl; lia).
        reflexivity.
Qed.

Lemma starts_with_zero_app s d r :
  code d <> 48 ->
  Stream.starts_with_zero (s ++ d :: r) = Stream.starts_with_zero s.
Proof.
  intros Hd. destruct s; simpl; [|reflexivity]. now apply Z.eqb_neq.
Qed.

Lemma isdigit_48 d : Libc.isdigit d = false -> code d <> 48.
Proof. unfold Libc.isdigit. intros H Heq. rewrite Heq in H. discriminate. Qed.

Lemma extract_float_app s d r :
  benign d = true ->
  snd (Stream.extract_float s) = [] ->
  Stream.extract_float (s ++ d :: r) = (fst (Stream.extract_float s), d :: r).
Proof.
  intros Hd Hs.
  pose proof (benign_spec d Hd) as (_ & Hdig & _ & _ & _ & H43 & H45).
  pose proof (isdigit_48 d Hdig) as H48.
  assert (Hrest : forall s1 sg,
    snd (Stream.accumulate (Stream.skip_zeros s1) (Stream.starts_with_zero s1)
           false false) = [] ->
    (let z := Stream.starts_with_zero (s1 ++ d :: r) in
     let a := Stream.accumulate (Stream.skip_zeros (s1 ++ d :: r)) z false false in
     (sg ++ (if z then chars "0" else []) ++ fst a, snd a)) =
    (sg ++ (if Stream.starts_with_zero s1 then chars "0" else [])
        ++ fst (Stream.accumulate (Stream.skip_zeros s1)
                  (Stream.starts_with_zero s1) false false), d :: r)).
  { intros s1 sg H. cbv zeta.
    rewrite starts_with_zero_app, skip_zeros_app by assumption.
    rewrite (accumulate_app d r (length (Stream.skip_zeros s1))) by (assumption || lia).
    reflexivity. }
  unfold Stream.extract_float in *.
  destruct s as [|c s].
  - simpl in *. apply Z.eqb_neq in H43. apply Z.eqb_neq in H45.
    rewrite H43, H45. simpl.
    apply Z.eqb_neq in H48. rewrite H48.
    rewrite accumulate_benign by assumption. reflexivity.
  - cbn [app]. destruct ((code c =? 43) || (code c =? 45)).
    + apply (Hrest s [c]). exact Hs.
    + apply (Hrest (c :: s) []). exact Hs.
Qed.

Lemma get_float_app s d r v :
  benign d = true ->
  Stream.get_float s = Some (v, []) ->
  Stream.get_float (s ++ d :: r) = Some (v, d :: r).
Proof.
  intros Hd. unfold Stream.get_float.
  destruct (Libc.skipws s) as [|c s0] eqn:Hws; [discriminate|].
  rewrite (skipws_app s c s0 (d :: r) Hws).
  change (c :: s0 ++ d :: r) with ((c :: s0) ++ d :: r).
  destruct (Stream.extract_float (c :: s0)) as [xtrc rest] eqn:He.
  intros H.
  assert (Hrest : rest = []).
  { destruct (Libc.strtof xtrc) as [cv|]; [|discriminate].
    destruct xtrc; [discriminate|].
    destruct (Libc.conv_rest cv); [|discriminate].
    destruct (Libc.is_infinite (Libc.conv_value cv)); [discriminate|].
    now inversion H. }
  subst rest.
  rewrite (extract_float_app (c :: s0) d r Hd) by now rewrite He.
  rewrite He. cbn [fst app].
  destruct (Libc.strtof xtrc) as [cv|]; [|discriminate].
  destruct xtrc; [discriminate|].
  destruct (Libc.conv_rest cv); [|discriminate].
  destruct (Libc.is_infinite (Libc.conv_value cv)); [discriminate|].
  inversion H; subst. reflexivity.
Qed.

End Extraction.

Section Insertion.

Lemma code_digit_char d : code (Libc.digit_char d) = 48 + d mod 10.
Proof.
  unfold code, Libc.digit_char.
  rewrite N_ascii_embedding; lia.
Qed.

Lemma isdigit_digit_char d : Libc.isdigit (Libc.digit_char d) = true.
Proof. unfold Libc.isdigit. rewrite code_digit_char. lia. Qed.

Lemma digit_value_digit_char d : Libc.digit_value (Libc.digit_char d) = d mod 10.
Proof. unfold Libc.digit_value. rewrite code_digit_char. lia. Qed.

Lemma isdigit_visible c : Libc.isdigit c = true -> visible c = true.
Proof. unfold Libc.isdigit, visible. lia. Qed.

Lemma isdigit_plain c :
  Libc.isdigit c = true ->
  Libc.isspace c = false /\ (code c =? 45) = false /\ (code c =? 43) = false.
Proof. unfold Libc.isdigit, Libc.isspace. lia. Qed.

Lemma decimal_snoc l c :
  Libc.decimal (l ++ [c]) = Libc.decimal l * 10 + Libc.digit_value c.
Proof. unfold Libc.decimal, Libc.number. now rewrite foldl_snoc. Qed.

Lemma digits_fuel_value fuel : forall n,
  0 <= n < 2 ^ Z.of_nat fuel ->
  Libc.decimal (Stream.digits_fuel fuel n) = n.
Proof.
  induction fuel as [|fuel IH]; intros n Hn.
  - simpl in *. assert (n = 0) by lia. subst. reflexivity.
  - rewrite Nat2Z.inj_succ, Z.pow_succ_r in Hn by lia.
    cbn [Stream.digits_fuel]. rewrite decimal_snoc, digit_value_digit_char.
    destruct (Z.ltb_spec n 10).
    + change (Libc.decimal []) with 0. lia.
    + rewrite IH; [lia|].
      assert (0 < 2 ^ Z.of_nat fuel) by (apply Z.pow_pos_nonneg; lia).
      lia.
Qed.

Lemma digits_fuel_isdigit fuel : forall n,
  Forall (fun c => Libc.isdigit c = true) (Stream.digits_fuel fuel n).
Proof.
  induction fuel as [|fuel IH]; intros n; cbn [Stream.digits_fuel]; [constructor|].
  apply Forall_app. split.
  - destruct (n <? 10); [constructor|apply IH].
  - repeat constructor. apply isdigit_digit_char.
Qed.

Lemma digits_value n : 0 <= n -> Libc.decimal (Stream.digits n) = n.
Proof.
  intros Hn. unfold Stream.digits. apply digits_fuel_value.
  destruct (Z.eq_dec n 0) as [->|Hnz]; [simpl; lia|].
  rewrite Nat2Z.inj_succ, Z2Nat.id by apply Z.log2_nonneg.
  pose proof (Z.log2_spec n). lia.
Qed.

Lemma digits_isdigit n : Forall (fun c => Libc.isdigit c = true) (Stream.digits n).
Proof. apply digits_fuel_isdigit. Qed.

Lemma digits_nonempty n : Stream.digits n <> [].
Proof.
  unfold Stream.digits. cbn [Stream.digits_fuel].
  intros H. apply app_eq_nil in H as [_ H]. discriminate.
Qed.

Lemma span_all p l :
  Forall (fun c => p c = true) l -> Libc.span p l = (l, []).
Proof.
  induction 1 as [|c l Hc _ IH]; simpl; [reflexivity|].
  now rewrite Hc, IH.
Qed.

Lemma get_long_put_long n :
  0 < n <= Stream.LONG_MAX ->
  Stream.get_long (Stream.put_long n) = Some (n, []).
Proof.
  intros Hn. unfold Stream.put_long.
  destruct (Z.ltb_spec n 0); [lia|].
  pose proof (digits_isdigit n) as Hd. pose proof (digits_nonempty n) as Hne.
  pose proof (digits_value n ltac:(lia)) as Hv.
  destruct (Stream.digits n) as [|c ds]; [contradiction|].
  pose proof Hd as Hall. apply Forall_cons in Hd as [Hc _].
  destruct (isdigit_plain c Hc) as (Hsp & H45 & H43).
  unfold Stream.get_long. simpl Libc.skipws. rewrite Hsp, H45, H43. simpl orb. cbv iota.
  rewrite (span_all _ _ Hall), Hv. unfold Stream.LONG_MIN, Stream.LONG_MAX in *.
  destruct (Z.leb_spec (- 2 ^ 63) n); [|lia].
  destruct (Z.leb_spec n (2 ^ 63 - 1)); [|lia]. reflexivity.
Qed.

Lemma strip_zeros_Forall (P : ascii -> Prop) l :
  Forall P l -> Forall P (Stream.strip_zeros l).
Proof.
  induction 1 as [|c l Hc _ IH]; simpl; [constructor|].
  destruct (Stream.strip_zeros l) as [|a r].
  - destruct (code c =? 48); repeat constructor; assumption.
  - constructor; assumption.
Qed.

Lemma fraction_visible l :
  Forall (fun c => visible c = true) l ->
  Forall (fun c => visible c = true) (Stream.fraction l).
Proof.
  intros H. unfold Stream.fraction.
  pose proof (strip_zeros_Forall _ l H) as Hs.
  destruct (Stream.strip_zeros l); [constructor|].
  apply Forall_app. split; [repeat constructor|exact Hs].
Qed.

Lemma six_visible D : Forall (fun c => visible c = true) (Stream.six D).
Proof.
  unfold Stream.six. repeat constructor; apply isdigit_visible, isdigit_digit_char.
Qed.

Lemma digits_visible n : Forall (fun c => visible c = true) (Stream.digits n).
Proof.
  eapply Forall_impl; [apply digits_isdigit|]. intros c. apply isdigit_visible.
Qed.

Lemma general_visible m e : Forall (fun c => visible c = true) (Stream.general m e).
Proof.
  unfold Stream.general. destruct (Stream.six_digits m e) as [D X].
  pose proof (six_visible D) as H6.
  destruct ((-4 <=? X) && (X <? 6)).
  - destruct (0 <=? X); apply Forall_app; split.
    + now apply Forall_take.
    + now apply fraction_visible, Forall_drop.
    + repeat constructor.
    + apply fraction_visible, Forall_app. split; [|exact H6].
      apply Forall_replicate, isdigit_visible, isdigit_digit_char.
  - apply Forall_app; split; [now apply Forall_take|].
    apply Forall_app; split; [now apply fraction_visible, Forall_drop|].
    apply Forall_app; split; [repeat constructor|].
    apply Forall_app; split; [destruct (X <? 0); repeat constructor|].
    apply Forall_app; split; [destruct (Z.abs X <? 10); repeat constructor|].
    apply digits_visible.
Qed.

Lemma put_float_visible x : Forall (fun c => visible c = true) (Stream.put_float x).
Proof.
  destruct x as [s|s| |s m e]; simpl.
  - destruct s; repeat constructor.
  - destruct s; repeat constructor.
  - repeat constructor.
  - apply Forall_app. split; [destruct s; repeat constructor|apply general_visible].
Qed.

Lemma put_long_visible n : Forall (fun c => visible c = true) (Stream.put_long n).
Proof.
  unfold Stream.put_long. destruct (n <? 0); [|apply digits_visible].
  apply Forall_app. split; [repeat constructor|apply digits_visible].
Qed.

Lemma visible_no_newline l :
  Forall (fun c => visible c = true) l -> no_newline l.
Proof.
  intros H. eapply Forall_impl; [exact H|].
  intros c Hc Heq. subst c. discriminate.
Qed.

Lemma benign_visible d : benign d = true -> d <> newline.
Proof.
  intros H. apply benign_spec in H as (Hsp & _). intros Heq. subst d. discriminate.
Qed.

Lemma row_no_newline delim d : benign delim = true -> no_newline (row delim d).
Proof.
  intros Hb. apply benign_visible in Hb. unfold row, Stream.put_char, no_newline.
  apply Forall_app; split; [apply visible_no_newline, put_float_visible|].
  apply Forall_app; split; [repeat constructor; exact Hb|].
  apply Forall_app; split; [apply visible_no_newline, put_float_visible|].
  apply Forall_app; split; [repeat constructor; exact Hb|].
  apply visible_no_newline, put_long_visible.
Qed.

End Insertion.

(** ** The data file: what is saved and what is loaded *)

Section Persistence.

Lemma getlines_from_segment l : forall cur s,
  no_newline l ->
  Stream.getlines_from cur (l ++ s) = Stream.getlines_from (cur ++ l) s.
Proof.
  induction l as [|c l IH]; intros cur s Hl.
  - now rewrite app_nil_r.
  - apply Forall_cons in Hl as [Hc Hl]. cbn [app Stream.getlines_from].
    apply char_eqb_neq in Hc. rewrite Hc, IH by assumption.
    now rewrite <- app_assoc.
Qed.

Lemma getlines_joined rows :
  Forall no_newline rows -> Stream.getlines (joined rows []) = rows.
Proof.
  unfold Stream.getlines.
  induction 1 as [|l rows Hl _ IH]; [reflexivity|].
  unfold joined in *. rewrite fmap_cons. simpl concat. rewrite <- !app_assoc.
  rewrite getlines_from_segment by assumption.
  cbn [app Stream.getlines_from].
  assert (He : char_eqb newline newline = true) by now apply char_eqb_eq.
  rewrite He, IH. reflexivity.
Qed.

Lemma saved_text_joined g :
  saved_text g = joined (row (csv_delimiter g) <$> CircularBuffer.logical (history g)) [].
Proof.
  unfold saved_text, joined. rewrite app_nil_r. f_equal.
  rewrite <- list_fmap_compose. apply list_fmap_ext. intros _ d _.
  unfold sample_line, row, compose. now rewrite <- !app_assoc.
Qed.

Lemma save_rows_logical h delim n : forall i0,
  CircularBuffer.wf h ->
  0 <= i0 -> i0 + Z.of_nat n <= CircularBuffer.size h ->
  save_rows n i0 h delim =
    Ret (concat (sample_line delim <$>
                   take n (drop (Z.to_nat i0) (CircularBuffer.logical h)))).
Proof.
  induction n as [|n IH]; intros i0 Hw Hi Hn; [reflexivity|].
  cbn [save_rows].
  destruct (lookup_lt_is_Some_2 (CircularBuffer.logical h) (Z.to_nat i0)) as [d Hd].
  { rewrite length_logical by assumption. lia. }
  rewrite at_logical by (assumption || lia). rewrite Hd. simpl.
  rewrite IH by (assumption || lia). simpl.
  rewrite (drop_S _ _ _ Hd).
  replace (S (Z.to_nat i0)) with (Z.to_nat (i0 + 1)) by lia.
  reflexivity.
Qed.

Lemma save_rows_all g :
  CircularBuffer.wf (history g) ->
  save_rows (Z.to_nat (CircularBuffer.get_size (history g))) 0 (history g) (csv_delimiter g)
    = Ret (saved_text g).
Proof.
  intros Hw. pose proof (CircularBuffer.wf_size _ Hw).
  unfold CircularBuffer.get_size.
  rewrite save_rows_logical by (assumption || lia).
  change (Z.to_nat 0) with 0%nat. rewrite drop_0, take_ge; [reflexivity|].
  rewrite length_logical by assumption. lia.
Qed.

Lemma text_eqb_refl a : text_eqb a a = true.
Proof.
  induction a as [|c a IH]; simpl; [reflexivity|].
  now rewrite Ascii.eqb_refl, IH.
Qed.

Lemma parse_row_row delim t_now d :
  benign delim = true -> storable t_now d ->
  parse_row delim t_now (row delim d) = Some d.
Proof.
  intros Hb (Ht & Hp & Hts & Hmax & Hrt & Hrp).
  pose proof (benign_spec delim Hb) as (Hsp & _).
  unfold parse_row, row, Stream.put_char.
  cbn [app].
  rewrite (get_float_app _ delim _ _ Hb Hrt).
  unfold Stream.get_char at 1. cbn [Libc.skipws]. rewrite Hsp.
  rewrite (get_float_app _ delim _ _ Hb Hrp).
  unfold Stream.get_char. cbn [Libc.skipws]. rewrite Hsp.
  rewrite get_long_put_long by lia.
  unfold char_eqb. rewrite Ascii.eqb_refl, Ht, Hp.
  destruct (Z.ltb_spec 0 (timestamp d)); [|lia].
  destruct (Z.leb_spec (timestamp d) t_now); [|lia].
  simpl. now destruct d.
Qed.

Lemma load_rows t delim ds : forall g,
  csv_delimiter g = delim ->
  Forall (fun d => parse_row delim t (row delim d) = Some d) ds ->
  history (foldl (load_row t) g (row delim <$> ds)) =
    foldl CircularBuffer.push (history g) ds.
Proof.
  induction ds as [|d ds IH]; intros g Hg Hds; [reflexivity|].
  apply Forall_cons in Hds as [Hd Hds].
  rewrite fmap_cons. cbn [foldl]. unfold load_row at 2. rewrite Hg, Hd.
  now rewrite IH.
Qed.

Lemma logical_refill h ds :
  CircularBuffer.wf h ->
  (length ds <= Z.to_nat MAX_POINTS)%nat ->
  CircularBuffer.logical (foldl CircularBuffer.push (CircularBuffer.clear h) ds) = ds /\
  CircularBuffer.get_size (foldl CircularBuffer.push (CircularBuffer.clear h) ds)
    = Z.of_nat (length ds).
Proof.
  intros Hw Hlen.
  destruct (logical_pushes ds (CircularBuffer.clear h) (clear_wf h Hw)) as [Hw' Hl].
  rewrite (logical_empty (CircularBuffer.clear h)) in Hl by reflexivity.
  simpl in Hl.
  replace (length ds - Z.to_nat MAX_POINTS)%nat with 0%nat in Hl by lia.
  rewrite drop_0 in Hl. split; [exact Hl|].
  unfold CircularBuffer.get_size. now rewrite (size_of_logical _ Hw'), Hl.
Qed.

End Persistence.

(** ** C2: save, then load *)

(** C2, as the code has it.  For a buffer of 0 to [MAX_POINTS] samples
    that [load_data] accepts (values in range, time stamps positive and
    not in the future), [save_data] followed by [load_data] gives back the
    same samples in the same order, provided each temperature and pressure
    is a value that reading back its own six-significant-digit text
    reproduces, and the separator is not white space nor a character of a
    number; [load_data] then returns whether there was a sample. *)
Theorem save_then_load_round_trip
    (g g0 : BMP280Gui) (ws wl : world) (fs : files) :
  CircularBuffer.wf (history g) ->
  CircularBuffer.wf (history g0) ->
  csv_delimiter g0 = csv_delimiter g ->
  benign (csv_delimiter g) = true ->
  Forall (storable (now wl)) (CircularBuffer.logical (history g)) ->
  ofstream_opens ws = true ->
  (length (saved_text g) <= write_limit ws)%nat ->
  rename_what ws = None ->
  ifstream_opens wl = true ->
  exists g1 fs1,
    save_data ws fs g = Ret (g1, fs1) /\
    fs1 (final_path g) = Some (saved_text g) /\
    CircularBuffer.logical (history (fst (load_data (final_path g) wl fs1 g0)))
      = CircularBuffer.logical (history g) /\
    snd (load_data (final_path g) wl fs1 g0)
      = (0 <? CircularBuffer.get_size (history g)).
Proof.
  intros Hw Hw0 Hdelim Hb Hst Hopen Hlim Hren Hin.
  unfold save_data. rewrite Hopen. simpl negb. cbv iota.
  rewrite save_rows_all by assumption. simpl bind.
  destruct (Nat.ltb_spec (write_limit ws) (length (saved_text g))); [lia|].
  rewrite Hren. eexists _, _. split; [reflexivity|].
  assert (Hfile : write_file (final_path g) (saved_text g)
                    (remove_file (temp_path g)
                       (write_file (temp_path g)
                          (take (write_limit ws) (saved_text g)) fs))
                    (final_path g) = Some (saved_text g)).
  { unfold write_file at 1. now rewrite text_eqb_refl. }
  split; [exact Hfile|].
  unfold load_data. rewrite Hfile, Hin. simpl negb. cbv iota.
  rewrite saved_text_joined, getlines_joined.
  2:{ apply Forall_fmap, Forall_forall. intros d _. now apply row_no_newline. }
  cbn [fst snd].
  rewrite (load_rows (now wl) (csv_delimiter g)).
  2:{ exact Hdelim. }
  2:{ eapply Forall_impl; [exact Hst|]. intros d Hd. now apply parse_row_row. }
  cbn [history set_history].
  destruct (logical_refill (history g0) (CircularBuffer.logical (history g)) Hw0) as [Hl Hs].
  { rewrite length_logical by assumption.
    pose proof (CircularBuffer.wf_size _ Hw). lia. }
  split; [exact Hl|].
  rewrite Hs, <- size_of_logical by assumption. reflexivity.
Qed.

Lemma save_then_load_round_trip_witness :
  exists g1 fs1,
    save_data (quiet_world 1700000002) no_files plain_gui = Ret (g1, fs1) /\
    fs1 (final_path plain_gui) = Some (saved_text plain_gui) /\
    CircularBuffer.logical
      (history (fst (load_data (final_path plain_gui) (quiet_world 1700000003)
                       fs1 connected_gui)))
      = CircularBuffer.logical (history plain_gui) /\
    snd (load_data (final_path plain_gui) (quiet_world 1700000003) fs1 connected_gui)
      = (0 <? CircularBuffer.get_size (history plain_gui)).
Proof.
  apply (save_then_load_round_trip plain_gui connected_gui
           (quiet_world 1700000002) (quiet_world 1700000003) no_files).
  - split; vm_compute; try reflexivity; split; (discriminate || reflexivity).
  - apply new_wf. reflexivity.
  - reflexivity.
  - reflexivity.
  - let l := eval vm_compute in (CircularBuffer.logical (history plain_gui)) in
    change (CircularBuffer.logical (history plain_gui)) with l.
    repeat (apply Forall_cons_2;
            [repeat split; vm_compute; (reflexivity || discriminate)|]).
    apply Forall_nil_2.
  - reflexivity.
  - apply Nat.leb_le. vm_compute. reflexivity.
  - reflexivity.
  - reflexivity.
Defined.

(** C2 as stated fails.  The line [Temp: 23.456789 C] stores the
    binary32 value nearest to 23.456789; [save_data] writes it with six
    significant digits, as [23.4568], and [load_data] reads that back as
    another binary32 value, although the sample is in range and its time
    stamp is positive and not in the future. *)
Lemma round_trip_loses_digits :
  forallb (acceptable 1700000003) (CircularBuffer.logical (history precise_gui)) = true /\
  saved_files (quiet_world 1700000002) no_files precise_gui (final_path precise_gui)
    = Some (joined [chars "23.5,990,1700000000"; chars "23.4568,1013.25,1700000001"] []) /\
  reloaded precise_gui <> CircularBuffer.logical (history precise_gui).
Proof.
  split; [vm_compute; reflexivity|].
  split; [vm_compute; reflexivity|].
  vm_compute. discriminate.
Qed.

(** * Further properties

    Properties of the functions that C1 to C10 do not reach, and of how
    the functions compose. *)

(** ** The ring buffer *)

Section RingWindow.

(** X1. [push] on a well-formed buffer appends the sample as the newest
    one and drops the oldest exactly when the buffer is full: the
    retained samples slide by one, the size grows by one up to
    [MAX_POINTS], the representation invariant is kept and the sample
    just pushed is at the last index. *)
Theorem push_slides_the_window (b : CircularBuffer.t) (p : DataPoint) :
  CircularBuffer.wf b ->
  CircularBuffer.wf (CircularBuffer.push b p) /\
  CircularBuffer.logical (CircularBuffer.push b p) =
    (if CircularBuffer.get_size b <? MAX_POINTS
     then CircularBuffer.logical b
     else drop 1 (CircularBuffer.logical b)) ++ [p] /\
  CircularBuffer.get_size (CircularBuffer.push b p) =
    Z.min MAX_POINTS (CircularBuffer.get_size b + 1) /\
  CircularBuffer.at_ (CircularBuffer.push b p)
    (CircularBuffer.get_size (CircularBuffer.push b p) - 1) = Ret p.
Proof.
  intros W. pose proof (push_wf b p W) as W'.
  pose proof (logical_push b p W) as L.
  pose proof (CircularBuffer.wf_size b W) as Hs.
  pose proof (length_logical b W) as Hl.
  pose proof (length_logical _ W') as Hl'.
  unfold CircularBuffer.get_size.
  assert (Hsz : CircularBuffer.size (CircularBuffer.push b p)
                = Z.min MAX_POINTS (CircularBuffer.size b + 1)).
  { cbn [CircularBuffer.push CircularBuffer.size].
    destruct (Z.ltb_spec (CircularBuffer.size b) MAX_POINTS); lia. }
  split; [exact W'|]. split.
  { rewrite L. destruct (CircularBuffer.size b <? MAX_POINTS); reflexivity. }
  split; [exact Hsz|].
  rewrite at_logical by (try assumption; rewrite Hsz; unfold MAX_POINTS in *; lia).
  rewrite L.
  replace (Z.to_nat (CircularBuffer.size (CircularBuffer.push b p) - 1))
    with (length (if CircularBuffer.size b <? MAX_POINTS
                  then CircularBuffer.logical b
                  else drop 1 (CircularBuffer.logical b))).
  - destruct (CircularBuffer.size b <? MAX_POINTS);
      rewrite lookup_app_r by lia; rewrite Nat.sub_diag; reflexivity.
  - rewrite Hsz. unfold MAX_POINTS in *.
    destruct (Z.ltb_spec (CircularBuffer.size b) 300);
      rewrite ?length_drop; lia.
Qed.

Lemma push_slides_the_window_witness :
  CircularBuffer.wf (CircularBuffer.push one_sample_buffer (sample 8)) /\
  CircularBuffer.logical (CircularBuffer.push one_sample_buffer (sample 8)) =
    (if CircularBuffer.get_size one_sample_buffer <? MAX_POINTS
     then CircularBuffer.logical one_sample_buffer
     else drop 1 (CircularBuffer.logical one_sample_buffer)) ++ [sample 8] /\
  CircularBuffer.get_size (CircularBuffer.push one_sample_buffer (sample 8)) =
    Z.min MAX_POINTS (CircularBuffer.get_size one_sample_buffer + 1) /\
  CircularBuffer.at_ (CircularBuffer.push one_sample_buffer (sample 8))
    (CircularBuffer.get_size (CircularBuffer.push one_sample_buffer (sample 8)) - 1)
    = Ret (sample 8).
Proof.
  apply (push_slides_the_window one_sample_buffer (sample 8)).
  apply push_wf, new_wf. reflexivity.
Defined.

(** X2. After [clear] nothing of the earlier contents is retained:
    whatever the buffer held, the samples pushed since are kept, the last
    [MAX_POINTS] of them in the order pushed, and the size is their number
    capped at [MAX_POINTS]. *)
Theorem clear_then_pushes (b : CircularBuffer.t) (ds : list DataPoint) :
  CircularBuffer.wf b ->
  CircularBuffer.wf (foldl CircularBuffer.push (CircularBuffer.clear b) ds) /\
  CircularBuffer.logical (foldl CircularBuffer.push (CircularBuffer.clear b) ds) =
    drop (length ds - Z.to_nat MAX_POINTS) ds /\
  CircularBuffer.get_size (foldl CircularBuffer.push (CircularBuffer.clear b) ds) =
    Z.min MAX_POINTS (Z.of_nat (length ds)).
Proof.
  intros W.
  destruct (logical_pushes ds (CircularBuffer.clear b) (clear_wf b W)) as [W' L].
  rewrite (logical_empty (CircularBuffer.clear b)) in L by reflexivity.
  cbn [app] in L. split; [exact W'|]. split; [exact L|].
  unfold CircularBuffer.get_size. rewrite (size_of_logical _ W'), L, length_drop.
  unfold MAX_POINTS. lia.
Qed.

Lemma clear_then_pushes_witness :
  CircularBuffer.wf
    (foldl CircularBuffer.push (CircularBuffer.clear one_sample_buffer) (samples 2)) /\
  CircularBuffer.logical
    (foldl CircularBuffer.push (CircularBuffer.clear one_sample_buffer) (samples 2)) =
    drop (length (samples 2) - Z.to_nat MAX_POINTS) (samples 2) /\
  CircularBuffer.get_size
    (foldl CircularBuffer.push (CircularBuffer.clear one_sample_buffer) (samples 2)) =
    Z.min MAX_POINTS (Z.of_nat (length (samples 2))).
Proof.
  apply (clear_then_pushes one_sample_buffer (samples 2)).
  apply push_wf, new_wf. reflexivity.
Defined.

Lemma smooth_value_fresh b is_temp index v b' :
  CircularBuffer.wf b -> CircularBuffer.cache_ok b ->
  0 < CircularBuffer.size b -> 0 <= index < 2 ^ 64 ->
  CircularBuffer.smooth_value b is_temp index 5 = Ret (v, b') ->
  v = CircularBuffer.fresh b is_temp (Z.min index (CircularBuffer.size b - 1)) 5 /\
  CircularBuffer.buffer b' = CircularBuffer.buffer b /\
  CircularBuffer.head b' = CircularBuffer.head b /\
  forall k i w, CircularBuffer.fresh b' k i w = CircularBuffer.fresh b k i w.
Proof.
  intros Hw Hok Hpos Hi Hsv.
  pose proof (CircularBuffer.wf_size b Hw) as Hs.
  set (idx := Z.min index (CircularBuffer.size b - 1)).
  assert (Hidx : 0 <= idx < CircularBuffer.size b) by (unfold idx; lia).
  destruct (cache_lookup b is_temp idx Hw Hidx) as [c Hc].
  destruct (F32.eqb c F32.zero) eqn:Hz.
  - rewrite (smooth_value_miss b is_temp index 5 c) in Hsv
      by (assumption || unfold INT_MIN, INT_MAX; lia).
    inversion Hsv; subst v b'; clear Hsv. fold idx.
    split; [reflexivity|].
    split; [destruct is_temp; reflexivity|].
    split; [destruct is_temp; reflexivity|].
    intros k i w. apply fresh_set_cache.
  - rewrite (smooth_value_hit b is_temp index 5 c) in Hsv by assumption.
    inversion Hsv; subst v b'; clear Hsv.
    split; [apply (Hok is_temp idx c Hidx Hc Hz)|]. auto.
Qed.

Lemma smooth_value_returns b is_temp index :
  CircularBuffer.wf b -> 0 <= index < 2 ^ 64 ->
  exists v b', CircularBuffer.smooth_value b is_temp index 5 = Ret (v, b').
Proof.
  intros Hw Hi.
  destruct (Z.eq_dec (CircularBuffer.size b) 0) as [H0|Hn0].
  { exists F32.zero, b. unfold CircularBuffer.smooth_value. rewrite H0. reflexivity. }
  pose proof (CircularBuffer.wf_size b Hw) as Hs.
  set (idx := Z.min index (CircularBuffer.size b - 1)).
  assert (Hidx : 0 <= idx < CircularBuffer.size b) by (unfold idx; lia).
  destruct (cache_lookup b is_temp idx Hw Hidx) as [c Hc].
  destruct (F32.eqb c F32.zero) eqn:Hz.
  - eexists _, _.
    apply (smooth_value_miss b is_temp index 5 c);
      (assumption || lia || unfold INT_MIN, INT_MAX; lia).
  - exists c, b.
    apply (smooth_value_hit b is_temp index 5 c); (assumption || lia).
Qed.

(** X3. [smooth_value] is invisible to the rest of the interface: on a
    buffer reached through the public interface it returns a value, the
    retained samples, the size and every [operator[]] result are the same
    afterwards, and asking again for the same index returns the same
    value. *)
Theorem smooth_value_is_transparent b is_temp index :
  CircularBuffer.reachable b -> 0 <= index < 2 ^ 64 ->
  exists v b',
    CircularBuffer.smooth_value b is_temp index 5 = Ret (v, b') /\
    CircularBuffer.logical b' = CircularBuffer.logical b /\
    CircularBuffer.get_size b' = CircularBuffer.get_size b /\
    (forall i, CircularBuffer.at_ b' i = CircularBuffer.at_ b i) /\
    exists b'', CircularBuffer.smooth_value b' is_temp index 5 = Ret (v, b'').
Proof.
  intros Hr Hi.
  destruct (reachable_invariant b Hr) as [Hw Hok].
  destruct (smooth_value_returns b is_temp index Hw Hi) as (v & b' & Hsv).
  exists v, b'. split; [exact Hsv|].
  destruct (smooth_value_invariant b is_temp index v b' Hw Hok Hi Hsv)
    as (Hw' & Hok' & Hl & Hs).
  destruct (Z.eq_dec (CircularBuffer.size b) 0) as [H0|Hn0].
  { unfold CircularBuffer.smooth_value in Hsv. rewrite H0 in Hsv.
    cbn in Hsv. inversion Hsv; subst v b'.
    repeat split; try reflexivity.
    exists b. unfold CircularBuffer.smooth_value. rewrite H0. reflexivity. }
  pose proof (CircularBuffer.wf_size b Hw) as Hsz.
  assert (Hpos : 0 < CircularBuffer.size b) by lia.
  destruct (smooth_value_fresh b is_temp index v b' Hw Hok Hpos Hi Hsv)
    as (Hv & Hb & Hh & Hf).
  split; [exact Hl|]. split; [exact Hs|]. split.
  { intros i. unfold CircularBuffer.at_, CircularBuffer.slot. now rewrite Hs, Hb, Hh. }
  set (idx := Z.min index (CircularBuffer.size b' - 1)).
  assert (Hidx : 0 <= idx < CircularBuffer.size b') by (unfold idx; lia).
  destruct (cache_lookup b' is_temp idx Hw' Hidx) as [c Hc].
  destruct (F32.eqb c F32.zero) eqn:Hz.
  - eexists.
    rewrite (smooth_value_miss b' is_temp index 5 c)
      by (assumption || lia || unfold INT_MIN, INT_MAX; lia).
    rewrite Hf, Hs, <- Hv. reflexivity.
  - exists b'.
    rewrite (smooth_value_hit b' is_temp index 5 c) by (assumption || lia).
    rewrite (Hok' is_temp idx c Hidx Hc Hz). unfold idx.
    rewrite Hf, Hs, <- Hv. reflexivity.
Qed.

Lemma smooth_value_is_transparent_witness :
  exists v b',
    CircularBuffer.smooth_value one_sample_buffer true 0 5 = Ret (v, b') /\
    CircularBuffer.logical b' = CircularBuffer.logical one_sample_buffer /\
    CircularBuffer.get_size b' = CircularBuffer.get_size one_sample_buffer /\
    (forall i, CircularBuffer.at_ b' i = CircularBuffer.at_ one_sample_buffer i) /\
    exists b'', CircularBuffer.smooth_value b' true 0 5 = Ret (v, b'').
Proof.
  apply (smooth_value_is_transparent one_sample_buffer true 0).
  - apply CircularBuffer.reach_push, CircularBuffer.reach_new. reflexivity.
  - simpl. lia.
Defined.

End RingWindow.

(** ** Rolling statistics and the visible average *)

Section RollingStatistics.

(** The comparison of two values is the order of their keys, unless one
    of them is NaN. *)
Lemma float_ltb_key (a b : float) :
  float_ltb a b = true <->
  is_nan a = false /\ is_nan b = false /\ key_lt (order_key a) (order_key b).
Proof.
  unfold float_ltb, SFltb, key_lt.
  destruct a as [sa|sa| |sa ma ea], b as [sb|sb| |sb mb eb];
    try destruct sa; try destruct sb; cbn -[Z.compare Pos.compare];
    try (split; [intros H; try discriminate H; repeat split; lia
                | intros (H1 & H2 & H3); try discriminate; try reflexivity; lia]).
  all: destruct (Z.compare_spec ea eb) as [He|He|He];
    change (Pos.compare_cont Eq ma mb) with (Pos.compare ma mb);
    destruct (Pos.compare_spec ma mb) as [Hm|Hm|Hm]; cbn;
    (split; [intros H; try discriminate H; repeat split; lia
            | intros (H1 & H2 & H3); try discriminate; try reflexivity; lia]).
Qed.

Lemma float_leb_key (a b : float) :
  F32.leb a b = true <->
  is_nan a = false /\ is_nan b = false /\ key_le (order_key a) (order_key b).
Proof.
  unfold F32.leb, SFleb, key_le.
  destruct a as [sa|sa| |sa ma ea], b as [sb|sb| |sb mb eb];
    try destruct sa; try destruct sb; cbn -[Z.compare Pos.compare];
    try (split; [intros H; try discriminate H; repeat split; lia
                | intros (H1 & H2 & H3); try discriminate; try reflexivity; lia]).
  all: destruct (Z.compare_spec ea eb) as [He|He|He];
    change (Pos.compare_cont Eq ma mb) with (Pos.compare ma mb);
    destruct (Pos.compare_spec ma mb) as [Hm|Hm|Hm]; cbn;
    (split; [intros H; try discriminate H; repeat split; lia
            | intros (H1 & H2 & H3); try discriminate; try reflexivity; lia]).
Qed.

Lemma float_leb_refl (a : float) : is_nan a = false -> F32.leb a a = true.
Proof.
  intros H. apply float_leb_key. repeat split; try assumption.
  unfold key_le. lia.
Qed.

Lemma float_leb_trans (a b c : float) :
  F32.leb a b = true -> F32.leb b c = true -> F32.leb a c = true.
Proof.
  rewrite !float_leb_key. unfold key_le.
  intros (Ha & Hb & H1) (_ & Hc & H2). repeat split; try assumption. lia.
Qed.

Lemma std_min_le (a b : float) :
  is_nan a = false -> is_nan b = false ->
  F32.leb (std_min a b) a = true /\ F32.leb (std_min a b) b = true /\
  (std_min a b = a \/ std_min a b = b).
Proof.
  intros Ha Hb. unfold std_min. destruct (float_ltb b a) eqn:E.
  - apply float_ltb_key in E. destruct E as (_ & _ & E).
    split; [|split; [apply float_leb_refl; assumption | right; reflexivity]].
    apply float_leb_key. repeat split; try assumption.
    unfold key_lt in E. unfold key_le. lia.
  - split; [apply float_leb_refl; assumption|]. split; [|left; reflexivity].
    apply float_leb_key. repeat split; try assumption.
    assert (N : ~ key_lt (order_key b) (order_key a)).
    { intros K. assert (float_ltb b a = true) as T
        by (apply float_ltb_key; repeat split; assumption).
      rewrite T in E. discriminate E. }
    unfold key_lt in N. unfold key_le. lia.
Qed.

Lemma std_max_ge (a b : float) :
  is_nan a = false -> is_nan b = false ->
  F32.leb a (std_max a b) = true /\ F32.leb b (std_max a b) = true /\
  (std_max a b = a \/ std_max a b = b).
Proof.
  intros Ha Hb. unfold std_max. destruct (float_ltb a b) eqn:E.
  - apply float_ltb_key in E. destruct E as (_ & _ & E).
    split; [|split; [apply float_leb_refl; assumption | right; reflexivity]].
    apply float_leb_key. repeat split; try assumption.
    unfold key_lt in E. unfold key_le. lia.
  - split; [apply float_leb_refl; assumption|]. split; [|left; reflexivity].
    apply float_leb_key. repeat split; try assumption.
    assert (N : ~ key_lt (order_key a) (order_key b)).
    { intros K. assert (float_ltb a b = true) as T
        by (apply float_ltb_key; repeat split; assumption).
      rewrite T in E. discriminate E. }
    unfold key_lt in N. unfold key_le. lia.
Qed.

Lemma foldl_std_min (r : list float) : forall a,
  is_nan a = false -> Forall (fun x => is_nan x = false) r ->
  Forall (fun x => F32.leb (foldl std_min a r) x = true) (a :: r) /\
  foldl std_min a r ∈ a :: r.
Proof.
  induction r as [|y r IH]; intros a Ha Hr.
  - cbn. split; [|left]. constructor; [apply float_leb_refl; assumption|constructor].
  - inversion Hr as [|? ? Hy Hr']; subst.
    destruct (std_min_le a y Ha Hy) as (M1 & M2 & M3).
    assert (Hm : is_nan (std_min a y) = false) by (destruct M3 as [-> | ->]; assumption).
    destruct (IH (std_min a y) Hm Hr') as (I1 & I2).
    cbn [foldl]. inversion I1 as [|? ? I3 I4]; subst. split.
    + constructor; [eapply float_leb_trans; eassumption|].
      constructor; [eapply float_leb_trans; eassumption|assumption].
    + apply elem_of_cons in I2. destruct I2 as [I2 | I2].
      * rewrite I2. destruct M3 as [-> | ->]; [left | right; left].
      * right; right; assumption.
Qed.

Lemma foldl_std_max (r : list float) : forall a,
  is_nan a = false -> Forall (fun x => is_nan x = false) r ->
  Forall (fun x => F32.leb x (foldl std_max a r) = true) (a :: r) /\
  foldl std_max a r ∈ a :: r.
Proof.
  induction r as [|y r IH]; intros a Ha Hr.
  - cbn. split; [|left]. constructor; [apply float_leb_refl; assumption|constructor].
  - inversion Hr as [|? ? Hy Hr']; subst.
    destruct (std_max_ge a y Ha Hy) as (M1 & M2 & M3).
    assert (Hm : is_nan (std_max a y) = false) by (destruct M3 as [-> | ->]; assumption).
    destruct (IH (std_max a y) Hm Hr') as (I1 & I2).
    cbn [foldl]. inversion I1 as [|? ? I3 I4]; subst. split.
    + constructor; [eapply float_leb_trans; eassumption|].
      constructor; [eapply float_leb_trans; eassumption|assumption].
    + apply elem_of_cons in I2. destruct I2 as [I2 | I2].
      * rewrite I2. destruct M3 as [-> | ->]; [left | right; left].
      * right; right; assumption.
Qed.

Lemma least_and_greatest (xs : list float) (x : float) :
  Forall (fun x => is_nan x = false) xs -> x ∈ xs ->
  F32.leb (least xs) x = true /\ F32.leb x (greatest xs) = true /\
  least xs ∈ xs /\ greatest xs ∈ xs.
Proof.
  intros Hx Hin. destruct xs as [|y r]; [inversion Hin|].
  inversion Hx as [|? ? Hy Hr]; subst.
  destruct (foldl_std_min r y Hy Hr) as (A1 & A2).
  destruct (foldl_std_max r y Hy Hr) as (B1 & B2).
  rewrite Forall_forall in A1, B1.
  cbn [least greatest]. repeat split; auto.
Qed.

Lemma at_in_range (b : CircularBuffer.t) (i : Z) :
  CircularBuffer.wf b -> 0 <= i < CircularBuffer.size b ->
  exists d, CircularBuffer.at_ b i = Ret d /\ CircularBuffer.logical b !! Z.to_nat i = Some d.
Proof.
  intros W Hi.
  pose proof (length_logical b W) as L.
  destruct (CircularBuffer.logical b !! Z.to_nat i) as [d|] eqn:E.
  - exists d. split; [|reflexivity].
    rewrite (at_logical b i W Hi). rewrite E. reflexivity.
  - apply lookup_ge_None in E. lia.
Qed.

Lemma least_snoc (l : list float) (x : float) :
  least (l ++ [x]) = match l with [] => x | _ => std_min (least l) x end.
Proof. destruct l as [|y r]; [reflexivity|]. cbn [app least]. apply foldl_snoc. Qed.

Lemma greatest_snoc (l : list float) (x : float) :
  greatest (l ++ [x]) = match l with [] => x | _ => std_max (greatest l) x end.
Proof. destruct l as [|y r]; [reflexivity|]. cbn [app greatest]. apply foldl_snoc. Qed.

Lemma fsum_snoc (l : list float) (x : float) :
  CircularBuffer.fsum (l ++ [x]) = F32.add (CircularBuffer.fsum l) x.
Proof. unfold CircularBuffer.fsum. apply foldl_snoc. Qed.

Lemma summarises_take (a : stats_state) (l : list DataPoint) (d : DataPoint) :
  summarises a l ->
  summarises (stats_take d (Z.of_nat (length l) + 1) a) (l ++ [d]).
Proof.
  intros (Hf & Ht & Hp & Hs). unfold summarises, stats_take.
  cbn [first temp_sum press_sum stats].
  rewrite !fmap_app.
  change (temperature <$> [d]) with [temperature d].
  change (pressure <$> [d]) with [pressure d].
  rewrite !fsum_snoc, !least_snoc, !greatest_snoc, Ht, Hp, Hs, Hf.
  cbn [min_temp max_temp avg_temp min_press max_press avg_press].
  rewrite length_app. cbn [length].
  replace (Z.of_nat (length l + 1)) with (Z.of_nat (length l) + 1) by lia.
  destruct l as [|x r]; repeat split; reflexivity.
Qed.

Lemma stats_loop_summarises (h : CircularBuffer.t) (t_now : Z) (n : nat) :
  forall i0 a,
    CircularBuffer.wf h ->
    0 <= i0 -> i0 + Z.of_nat n <= CircularBuffer.size h ->
    summarises a (List.filter (in_window t_now)
                    (take (Z.to_nat i0) (CircularBuffer.logical h))) ->
    exists a',
      stats_loop n i0 h t_now a = Ret a' /\
      summarises a' (List.filter (in_window t_now)
                       (take (Z.to_nat i0 + n) (CircularBuffer.logical h))).
Proof.
  induction n as [|n IH]; intros i0 a W Hi Hn Ha.
  - exists a. split; [reflexivity|]. now rewrite Nat.add_0_r.
  - cbn [stats_loop].
    destruct (at_in_range h i0 W ltac:(lia)) as (d & Hat & Hd).
    rewrite Hat. cbn [bind].
    assert (Htake : take (S (Z.to_nat i0)) (CircularBuffer.logical h)
                    = take (Z.to_nat i0) (CircularBuffer.logical h) ++ [d])
      by (apply take_S_r; exact Hd).
    set (seen := List.filter (in_window t_now)
                   (take (Z.to_nat i0) (CircularBuffer.logical h))) in *.
    assert (Hlen : (length seen <= 300)%nat).
    { unfold seen. etransitivity; [apply List.filter_length_le|].
      rewrite length_take. pose proof (CircularBuffer.wf_size h W).
      unfold MAX_POINTS in *. lia. }
    assert (Hnext : exists a1,
      (if STATS_WINDOW <? t_now - timestamp d then Ret a
       else c <- int_add (count (stats a)) 1 ;; Ret (stats_take d c a)) = Ret a1 /\
      summarises a1 (List.filter (in_window t_now)
                       (take (Z.to_nat (i0 + 1)) (CircularBuffer.logical h)))).
    { replace (Z.to_nat (i0 + 1)) with (S (Z.to_nat i0)) by lia.
      rewrite Htake, List.filter_app. cbn [List.filter].
      assert (Ew : in_window t_now d = negb (STATS_WINDOW <? t_now - timestamp d))
        by reflexivity.
      rewrite Ew. clear Ew.
      destruct (STATS_WINDOW <? t_now - timestamp d); cbn [negb].
      - exists a. split; [reflexivity|]. now rewrite app_nil_r.
      - destruct Ha as (Hf & Ht & Hp & Hs).
        unfold int_add. rewrite Hs. cbn [count].
        rewrite int_checked_ok by (unfold INT_MIN, INT_MAX; lia). cbn [bind].
        eexists. split; [reflexivity|].
        apply summarises_take. repeat split; assumption. }
    destruct Hnext as (a1 & -> & Ha1). cbn [bind].
    destruct (IH (i0 + 1) a1 W ltac:(lia) ltac:(lia) Ha1) as (a' & Hl & Ha').
    exists a'. split; [exact Hl|].
    replace (Z.to_nat i0 + S n)%nat with (Z.to_nat (i0 + 1) + n)%nat by lia.
    exact Ha'.
Qed.

(** The loop of [calculate_statistics] computes the summary of the
    samples inside the window. *)
Lemma calculate_statistics_recent (w : world) (g : BMP280Gui) :
  CircularBuffer.wf (history g) ->
  calculate_statistics w g = Ret (statistics_of (recent (now w) (history g))).
Proof.
  intros W. unfold calculate_statistics, CircularBuffer.get_size.
  destruct (Z.eqb_spec (CircularBuffer.size (history g)) 0) as [E|E].
  - unfold recent. rewrite (logical_empty _ E). reflexivity.
  - pose proof (CircularBuffer.wf_size _ W) as Hs.
    pose proof (length_logical _ W) as Hl.
    destruct (stats_loop_summarises (history g) (now w)
                (Z.to_nat (CircularBuffer.size (history g))) 0 stats_start W
                ltac:(lia) ltac:(lia)) as (a & Hloop & Ha).
    { repeat split. }
    rewrite Hloop. cbn [bind]. f_equal.
    change (Z.to_nat 0) with 0%nat in Ha. rewrite Nat.add_0_l in Ha.
    rewrite take_ge in Ha by lia. fold (recent (now w) (history g)) in Ha.
    destruct Ha as (Hf & Ht & Hp & Hst). rewrite Hst, Ht, Hp.
    cbn [count min_temp max_temp min_press max_press].
    unfold statistics_of.
    destruct (recent (now w) (history g)) as [|d r]; [reflexivity|].
    destruct (Z.ltb_spec 0 (Z.of_nat (length (d :: r)))) as [_|C];
      [|cbn [length] in C; lia].
    unfold average, CircularBuffer.mean. rewrite !length_fmap. reflexivity.
Qed.

(** X4. [calculate_statistics] counts exactly the retained samples that
    are at most [STATS_WINDOW] seconds old and averages them alone: each
    average is the binary32 sum of their values in buffer order divided
    by their number.  When no sample is that recent, the buffer being
    empty or not, every field of the result is zero. *)
Theorem calculate_statistics_counts_the_window (w : world) (g : BMP280Gui) :
  CircularBuffer.wf (history g) ->
  exists s,
    calculate_statistics w g = Ret s /\
    count s = Z.of_nat (length (recent (now w) (history g))) /\
    0 <= count s <= CircularBuffer.get_size (history g) /\
    avg_temp s = average (temperature <$> recent (now w) (history g)) /\
    avg_press s = average (pressure <$> recent (now w) (history g)) /\
    (recent (now w) (history g) = [] ->
     s = mkStatistics F32.zero F32.zero F32.zero F32.zero F32.zero F32.zero 0).
Proof.
  intros W. eexists. split; [apply calculate_statistics_recent; exact W|].
  unfold statistics_of. cbn [count avg_temp avg_press].
  split; [reflexivity|]. split.
  - unfold CircularBuffer.get_size. rewrite (size_of_logical _ W).
    pose proof (List.filter_length_le (in_window (now w))
                  (CircularBuffer.logical (history g))) as H.
    unfold recent. lia.
  - split; [reflexivity|]. split; [reflexivity|].
    intros ->. reflexivity.
Qed.

Lemma calculate_statistics_counts_the_window_witness :
  exists s,
    calculate_statistics (quiet_world 1700000100) one_sample_gui = Ret s /\
    count s = Z.of_nat (length (recent (now (quiet_world 1700000100))
                                  (history one_sample_gui))) /\
    0 <= count s <= CircularBuffer.get_size (history one_sample_gui) /\
    avg_temp s = average (temperature <$> recent (now (quiet_world 1700000100))
                                            (history one_sample_gui)) /\
    avg_press s = average (pressure <$> recent (now (quiet_world 1700000100))
                                          (history one_sample_gui)) /\
    (recent (now (quiet_world 1700000100)) (history one_sample_gui) = [] ->
     s = mkStatistics F32.zero F32.zero F32.zero F32.zero F32.zero F32.zero 0).
Proof.
  apply (calculate_statistics_counts_the_window (quiet_world 1700000100) one_sample_gui).
  exact (push_wf _ _ (new_wf blank_memory eq_refl)).
Defined.

(** X5. When none of the samples inside the window holds a NaN, the
    minimum and the maximum that [calculate_statistics] reports bound
    every one of them, temperature and pressure alike, and each of the
    four is the value of one of these samples. *)
Theorem statistics_bounds (w : world) (g : BMP280Gui) (d : DataPoint) :
  CircularBuffer.wf (history g) ->
  Forall (fun p => is_nan (temperature p) = false /\ is_nan (pressure p) = false)
    (recent (now w) (history g)) ->
  d ∈ recent (now w) (history g) ->
  exists s,
    calculate_statistics w g = Ret s /\
    F32.leb (min_temp s) (temperature d) = true /\
    F32.leb (temperature d) (max_temp s) = true /\
    F32.leb (min_press s) (pressure d) = true /\
    F32.leb (pressure d) (max_press s) = true /\
    min_temp s ∈ temperature <$> recent (now w) (history g) /\
    max_temp s ∈ temperature <$> recent (now w) (history g) /\
    min_press s ∈ pressure <$> recent (now w) (history g) /\
    max_press s ∈ pressure <$> recent (now w) (history g).
Proof.
  intros W Hn Hd. eexists. split; [apply calculate_statistics_recent; exact W|].
  unfold statistics_of. cbn [min_temp max_temp min_press max_press].
  set (l := recent (now w) (history g)) in *.
  assert (Ht : Forall (fun x => is_nan x = false) (temperature <$> l)).
  { apply Forall_fmap. eapply Forall_impl; [exact Hn|]. intros p [H _]. exact H. }
  assert (Hp : Forall (fun x => is_nan x = false) (pressure <$> l)).
  { apply Forall_fmap. eapply Forall_impl; [exact Hn|]. intros p [_ H]. exact H. }
  assert (Hdt : temperature d ∈ temperature <$> l)
    by (apply list_elem_of_fmap_2; exact Hd).
  assert (Hdp : pressure d ∈ pressure <$> l)
    by (apply list_elem_of_fmap_2; exact Hd).
  destruct (least_and_greatest _ _ Ht Hdt) as (T1 & T2 & T3 & T4).
  destruct (least_and_greatest _ _ Hp Hdp) as (P1 & P2 & P3 & P4).
  repeat split; assumption.
Qed.

Lemma statistics_bounds_witness :
  exists s,
    calculate_statistics (quiet_world 1700000100) one_sample_gui = Ret s /\
    F32.leb (min_temp s) (temperature (sample 7)) = true /\
    F32.leb (temperature (sample 7)) (max_temp s) = true /\
    F32.leb (min_press s) (pressure (sample 7)) = true /\
    F32.leb (pressure (sample 7)) (max_press s) = true /\
    min_temp s ∈ temperature <$> recent (now (quiet_world 1700000100))
                                   (history one_sample_gui) /\
    max_temp s ∈ temperature <$> recent (now (quiet_world 1700000100))
                                   (history one_sample_gui) /\
    min_press s ∈ pressure <$> recent (now (quiet_world 1700000100))
                                 (history one_sample_gui) /\
    max_press s ∈ pressure <$> recent (now (quiet_world 1700000100))
                                 (history one_sample_gui).
Proof.
  apply (statistics_bounds (quiet_world 1700000100) one_sample_gui (sample 7)).
  - exact (push_wf _ _ (new_wf blank_memory eq_refl)).
  - vm_compute. repeat constructor.
  - vm_compute. constructor.
Defined.

Lemma visible_loop_sum (h : CircularBuffer.t) (is_temp : bool) (start max_points : Z)
    (fuel : nat) : forall i sum cnt,
  CircularBuffer.wf h ->
  INT_MIN <= start + max_points <= INT_MAX ->
  0 <= i <= INT_MAX -> 0 <= cnt <= i ->
  CircularBuffer.size h - i <= Z.of_nat fuel ->
  visible_loop fuel h is_temp start max_points i sum cnt =
    Ret (foldl F32.add sum
           (CircularBuffer.field is_temp <$>
              take (Z.to_nat (start + max_points - i))
                (drop (Z.to_nat i) (CircularBuffer.logical h))),
         cnt + Z.of_nat (length (take (Z.to_nat (start + max_points - i))
                                   (drop (Z.to_nat i) (CircularBuffer.logical h))))).
Proof.
  induction fuel as [|fuel IH]; intros i sum cnt W Hl Hi Hc Hf;
    pose proof (CircularBuffer.wf_size h W) as Hs;
    pose proof (length_logical h W) as Hlen;
    unfold MAX_POINTS in Hs;
    assert (Hw : wrap64 i = i)
      by (unfold wrap64; apply Z.mod_small; unfold INT_MAX in Hi; lia);
    cbn [visible_loop]; unfold int_add at 1;
    rewrite (int_checked_ok _ Hl); cbn [bind]; rewrite Hw;
    unfold CircularBuffer.get_size.
  - destruct (Z.ltb_spec i (start + max_points)) as [A|A];
      destruct (Z.ltb_spec i (CircularBuffer.size h)) as [B|B]; cbn [andb]; try lia.
    + rewrite drop_ge by lia. rewrite take_nil. cbn. f_equal. f_equal. lia.
    + replace (Z.to_nat (start + max_points - i)) with 0%nat by lia.
      rewrite take_0. cbn. f_equal. f_equal. lia.
  - destruct (Z.ltb_spec i (start + max_points)) as [A|A];
      destruct (Z.ltb_spec i (CircularBuffer.size h)) as [B|B]; cbn [andb].
    + destruct (lookup_lt_is_Some_2 (CircularBuffer.logical h) (Z.to_nat i)) as [d Hd];
        [lia|].
      rewrite at_logical by (assumption || lia). rewrite Hd. cbn [of_option bind].
      unfold int_add.
      rewrite (int_checked_ok (cnt + 1)) by (unfold INT_MIN, INT_MAX; lia).
      rewrite (int_checked_ok (i + 1)) by (unfold INT_MIN, INT_MAX; lia).
      cbn [bind].
      rewrite IH by (try assumption; unfold INT_MAX in *; lia).
      rewrite (drop_S _ _ _ Hd).
      replace (Z.to_nat (start + max_points - i))
        with (S (Z.to_nat (start + max_points - (i + 1)))) by lia.
      replace (Z.to_nat (i + 1)) with (S (Z.to_nat i)) by lia.
      cbn [take fmap list_fmap foldl length]. f_equal. f_equal. lia.
    + rewrite drop_ge by lia. rewrite take_nil. cbn. f_equal. f_equal. lia.
    + replace (Z.to_nat (start + max_points - i)) with 0%nat by lia.
      rewrite take_0. cbn. f_equal. f_equal. lia.
    + replace (Z.to_nat (start + max_points - i)) with 0%nat by lia.
      rewrite take_0. cbn. f_equal. f_equal. lia.
Qed.

Lemma compute_visible_average_from (g : BMP280Gui) (is_temp : bool)
    (start max_points : Z) :
  CircularBuffer.wf (history g) ->
  0 <= start <= INT_MAX ->
  INT_MIN <= start + max_points <= INT_MAX ->
  compute_visible_average g is_temp start max_points =
    Ret (average (CircularBuffer.field is_temp <$>
                    take (Z.to_nat max_points)
                      (drop (Z.to_nat start) (CircularBuffer.logical (history g))))).
Proof.
  intros W Hs Hl. unfold compute_visible_average, CircularBuffer.get_size.
  destruct (Z.eqb_spec (CircularBuffer.size (history g)) 0) as [E|E].
  - rewrite (logical_empty _ E), drop_nil, take_nil. reflexivity.
  - pose proof (CircularBuffer.wf_size _ W) as Hsz.
    rewrite visible_loop_sum by (try assumption; lia).
    cbn [bind fst snd]. rewrite Z.add_0_l.
    replace (start + max_points - start) with max_points by lia.
    f_equal.
    destruct (take (Z.to_nat max_points)
                (drop (Z.to_nat start) (CircularBuffer.logical (history g))))
      as [|d r]; [reflexivity|].
    destruct (Z.ltb_spec 0 (Z.of_nat (length (d :: r)))) as [_|C];
      [|cbn [length] in C; lia].
    unfold average, CircularBuffer.mean.
    rewrite !length_fmap. reflexivity.
Qed.

Lemma compute_visible_average_negative_start (g : BMP280Gui) (is_temp : bool)
    (start max_points : Z) :
  CircularBuffer.wf (history g) ->
  INT_MIN <= start < 0 ->
  INT_MIN <= start + max_points <= INT_MAX ->
  compute_visible_average g is_temp start max_points = Ret F32.zero.
Proof.
  intros W Hs Hl. unfold compute_visible_average, CircularBuffer.get_size.
  destruct (Z.eqb_spec (CircularBuffer.size (history g)) 0) as [E|E]; [reflexivity|].
  pose proof (CircularBuffer.wf_size _ W) as Hsz. unfold MAX_POINTS in Hsz.
  destruct (Z.to_nat (CircularBuffer.size (history g))) as [|n];
    cbn [visible_loop]; unfold int_add at 1; rewrite (int_checked_ok _ Hl);
    cbn [bind]; unfold CircularBuffer.get_size;
    (assert (Hw : CircularBuffer.size (history g) <= wrap64 start)
      by (unfold wrap64, INT_MIN in *; lia));
    destruct (Z.ltb_spec (wrap64 start) (CircularBuffer.size (history g))); try lia;
    rewrite andb_false_r; reflexivity.
Qed.

(** X6. When [start + max_points] fits an [int],
    [compute_visible_average] returns the binary32 mean of the chosen
    field over the logical indices from [start] up to, and without,
    [start + max_points], as far as the buffer reaches, and 0.0 when that
    range holds no sample; it neither throws nor reads out of bounds.  A
    negative [start] selects nothing, because the index is compared as a
    [size_t]. *)
Theorem compute_visible_average_is_window_mean (g : BMP280Gui) (is_temp : bool)
    (start max_points : Z) :
  CircularBuffer.wf (history g) ->
  INT_MIN <= start <= INT_MAX ->
  INT_MIN <= start + max_points <= INT_MAX ->
  compute_visible_average g is_temp start max_points =
    Ret (if start <? 0 then F32.zero
         else average (CircularBuffer.field is_temp <$>
                         take (Z.to_nat max_points)
                           (drop (Z.to_nat start)
                              (CircularBuffer.logical (history g))))).
Proof.
  intros W Hs Hl. destruct (Z.ltb_spec start 0).
  - apply compute_visible_average_negative_start; (assumption || lia).
  - apply compute_visible_average_from; (assumption || lia).
Qed.

Lemma compute_visible_average_is_window_mean_witness :
  compute_visible_average one_sample_gui true 0 300 =
    Ret (if 0 <? 0 then F32.zero
         else average (CircularBuffer.field true <$>
                         take (Z.to_nat 300)
                           (drop (Z.to_nat 0)
                              (CircularBuffer.logical (history one_sample_gui))))).
Proof.
  apply (compute_visible_average_is_window_mean one_sample_gui true 0 300).
  - exact (push_wf _ _ (new_wf blank_memory eq_refl)).
  - unfold INT_MIN, INT_MAX. lia.
  - unfold INT_MIN, INT_MAX. lia.
Defined.

End RollingStatistics.

(** ** Error reports and the search for a port *)

Section Reports.

Lemma push_capped_last_five (msg : text) (l : list text) :
  (length l <= 5)%nat -> push_capped msg l = last_five (l ++ [msg]).
Proof.
  intros H. unfold push_capped, last_five. rewrite length_app. cbn [length].
  destruct (Nat.leb_spec 5 (length l)).
  - replace (length l + 1 - 5)%nat with 1%nat by lia.
    rewrite drop_app_le by lia. reflexivity.
  - replace (length l + 1 - 5)%nat with 0%nat by lia. reflexivity.
Qed.

Lemma last_five_length (l : list text) : (length (last_five l) <= 5)%nat.
Proof. unfold last_five. rewrite length_drop. lia. Qed.

Lemma last_five_snoc (l : list text) (msg : text) :
  last_five (last_five l ++ [msg]) = last_five (l ++ [msg]).
Proof.
  unfold last_five. rewrite !length_app, length_drop. cbn [length].
  destruct (Nat.leb_spec (length l) 5).
  - replace (length l - 5)%nat with 0%nat by lia.
    rewrite drop_0, Nat.sub_0_r. reflexivity.
  - replace (length l - (length l - 5) + 1 - 5)%nat with 1%nat by lia.
    replace (length l + 1 - 5)%nat with ((length l - 5) + 1)%nat by lia.
    rewrite <- drop_drop.
    rewrite (drop_app_le l [msg] (length l - 5)) by lia.
    reflexivity.
Qed.

Lemma last_five_small (l : list text) : (length l <= 5)%nat -> last_five l = l.
Proof.
  intros H. unfold last_five.
  replace (length l - 5)%nat with 0%nat by lia. reflexivity.
Qed.

Lemma add_errors_snoc (reports : list report) (r : report) (g : BMP280Gui) :
  add_errors (reports ++ [r]) g =
    add_error (report_text r) (report_persistent r) (report_time r)
      (add_errors reports g).
Proof. unfold add_errors. now rewrite foldl_snoc. Qed.

(** X7. Both error lists keep the five most recent messages: after any
    sequence of [add_error] calls, starting from lists of at most five
    entries, [error_messages] is the last five of its earlier entries
    followed by all the messages reported, [persistent_errors] the same
    with the messages reported as persistent, both oldest first, and
    [last_error_time] is the time of the last call. *)
Theorem add_error_keeps_last_five (reports : list report) (g : BMP280Gui) :
  (length (error_messages g) <= 5)%nat ->
  (length (persistent_errors g) <= 5)%nat ->
  error_messages (add_errors reports g) =
    last_five (error_messages g ++ (report_text <$> reports)) /\
  persistent_errors (add_errors reports g) =
    last_five (persistent_errors g ++
               (report_text <$> persistent_only reports)) /\
  last_error_time (add_errors reports g) =
    default (last_error_time g) (last (report_time <$> reports)).
Proof.
  intros He Hp.
  induction reports as [|[[msg p] t] reports IH] using rev_ind.
  - cbn. rewrite !app_nil_r, !last_five_small by assumption. auto.
  - destruct IH as (IH1 & IH2 & IH3).
    rewrite add_errors_snoc.
    set (g1 := add_errors reports g) in *.
    unfold persistent_only. rewrite List.filter_app. cbn [List.filter].
    change (report_persistent (msg, p, t)) with p.
    change (report_time (msg, p, t)) with t.
    fold (persistent_only reports).
    assert (E1 : error_messages (add_error msg p t g1) =
                 last_five (error_messages g ++
                            (report_text <$> reports ++ [(msg, p, t)]))).
    { rewrite fmap_app, list_fmap_singleton, app_assoc.
        change (report_text (msg, p, t)) with msg.
      rewrite <- last_five_snoc, <- IH1.
      rewrite <- push_capped_last_five by (rewrite IH1; apply last_five_length).
      destruct p; reflexivity. }
    split; [exact E1|]. split.
    + destruct p.
      * rewrite fmap_app, list_fmap_singleton, app_assoc.
        change (report_text (msg, true, t)) with msg.
        rewrite <- last_five_snoc, <- IH2.
        rewrite <- push_capped_last_five by (rewrite IH2; apply last_five_length).
        reflexivity.
      * rewrite app_nil_r, <- IH2. reflexivity.
    + rewrite fmap_app, list_fmap_singleton, last_snoc. destruct p; reflexivity.
Qed.

Lemma add_error_keeps_last_five_witness :
  error_messages (add_errors two_reports connected_gui) =
    last_five (error_messages connected_gui ++ (report_text <$> two_reports)) /\
  persistent_errors (add_errors two_reports connected_gui) =
    last_five (persistent_errors connected_gui ++
               (report_text <$> persistent_only two_reports)) /\
  last_error_time (add_errors two_reports connected_gui) =
    default (last_error_time connected_gui) (last (report_time <$> two_reports)).
Proof.
  apply (add_error_keeps_last_five two_reports connected_gui).
  - simpl. lia.
  - simpl. lia.
Defined.

Lemma find_first (w : world) (l : list text) :
  match List.find (path_exists w) l with
  | Some port =>
      path_exists w port = true /\
      exists before after,
        l = before ++ port :: after /\
        Forall (fun p => path_exists w p = false) before
  | None => Forall (fun p => path_exists w p = false) l
  end.
Proof.
  induction l as [|p l IH]; [constructor|].
  cbn [List.find]. destruct (path_exists w p) eqn:E.
  - split; [exact E|]. exists [], l. split; [reflexivity|constructor].
  - destruct (List.find (path_exists w) l) as [port|].
    + destruct IH as (Hp & before & after & Hl & Hb).
      split; [exact Hp|]. exists (p :: before), after. split.
      * rewrite Hl. reflexivity.
      * constructor; assumption.
    + constructor; assumption.
Qed.

(** X8. [find_serial_port] tries [/dev/ttyACM0] to [/dev/ttyACM9] and
    then [/dev/ttyUSB0] to [/dev/ttyUSB9], in this order, and returns the
    first that exists: no candidate before the one returned exists, and
    nothing is returned only when none of the twenty exists. *)
Theorem find_serial_port_first (w : world) :
  candidate_ports =
    [chars "/dev/ttyACM0"; chars "/dev/ttyACM1"; chars "/dev/ttyACM2";
     chars "/dev/ttyACM3"; chars "/dev/ttyACM4"; chars "/dev/ttyACM5";
     chars "/dev/ttyACM6"; chars "/dev/ttyACM7"; chars "/dev/ttyACM8";
     chars "/dev/ttyACM9"; chars "/dev/ttyUSB0"; chars "/dev/ttyUSB1";
     chars "/dev/ttyUSB2"; chars "/dev/ttyUSB3"; chars "/dev/ttyUSB4";
     chars "/dev/ttyUSB5"; chars "/dev/ttyUSB6"; chars "/dev/ttyUSB7";
     chars "/dev/ttyUSB8"; chars "/dev/ttyUSB9"] /\
  match find_serial_port w with
  | Some port =>
      path_exists w port = true /\
      exists before after,
        candidate_ports = before ++ port :: after /\
        Forall (fun p => path_exists w p = false) before
  | None => Forall (fun p => path_exists w p = false) candidate_ports
  end.
Proof.
  split; [vm_compute; reflexivity|].
  apply (find_first w candidate_ports).
Qed.

End Reports.

(** ** What the serial reader stores *)

Section StoredSamples.

Lemma same_data_refl g : same_data g g.
Proof. repeat split. Qed.

Lemma same_data_trans g1 g2 g3 : same_data g1 g2 -> same_data g2 g3 -> same_data g1 g3.
Proof.
  unfold same_data. intros (A1&A2&A3&A4&A5&A6&A7&A8) (B1&B2&B3&B4&B5&B6&B7&B8).
  repeat split; congruence.
Qed.

Lemma same_data_add_error msg p t g : same_data g (add_error msg p t g).
Proof. destruct p; repeat split. Qed.

Lemma same_data_open_serial port baud w g :
  same_data g (fst (open_serial port baud w g)).
Proof.
  unfold open_serial. destruct (open_port w port baud); cbn [fst].
  - repeat split.
  - apply same_data_trans with (add_error t true (now w) g);
      [apply same_data_add_error|repeat split].
Qed.

Lemma same_data_try_baud_rates bauds : forall port w g,
  same_data g (try_baud_rates bauds port w g).
Proof.
  induction bauds as [|baud bauds IH]; intros port w g; cbn [try_baud_rates].
  - apply same_data_add_error.
  - pose proof (same_data_open_serial port baud w g) as H.
    destruct (open_serial port baud w g) as [g1 ok]. cbn [fst] in H.
    destruct ok.
    + eapply same_data_trans; [exact H|repeat split].
    + eapply same_data_trans; [exact H|apply IH].
Qed.

Lemma same_data_try_reconnect w g : same_data g (try_reconnect w g).
Proof.
  unfold try_reconnect.
  destruct (negb (fd g =? -1) || (max_reconnect_attempts <=? reconnect_attempts g));
    [apply same_data_refl|].
  destruct (now w - last_reconnect_attempt g <? RECONNECT_TIMEOUT);
    [apply same_data_refl|].
  destruct (find_serial_port w) as [port|].
  - eapply same_data_trans; [|apply same_data_try_baud_rates]. repeat split.
  - eapply same_data_trans; [|apply same_data_add_error]. repeat split.
Qed.

Lemma gui_ok_same_data g g' : same_data g g' -> gui_ok g -> gui_ok g'.
Proof.
  intros (H1&H2&H3&_) (W&(S1&S2)&F). unfold gui_ok, serial_ok.
  rewrite H1, H2, H3. auto.
Qed.

Lemma classify_in_range line :
  match classify line with
  | temp_line v => temp_in_range v = true
  | press_line v => press_in_range v = true
  | _ => True
  end.
Proof.
  unfold classify.
  destruct (if contains (chars "Temp") line then parse_value line else None) as [v|].
  - destruct (temp_in_range v) eqn:E; [exact E|exact I].
  - destruct (if contains (chars "Pres") line then parse_value line else None) as [v|];
      [|exact I].
    destruct (press_in_range v) eqn:E; [exact E|exact I].
Qed.

Lemma process_line_reading line t r g :
  reading_ok r ->
  reading_ok (fst (process_line line t (r, g))) /\
  history (snd (process_line line t (r, g))) = history g /\
  fd (snd (process_line line t (r, g))) = fd g.
Proof.
  intros [Ht Hp]. unfold process_line.
  pose proof (classify_in_range line) as C.
  destruct (classify line) as [v|v|v|v|]; cbn [fst snd].
  - split; [split; cbn; auto|split; reflexivity].
  - split; [split; assumption|]. split; [apply history_add_error|].
    apply (policy_add_error _ false t g).
  - split; [split; cbn; auto|split; reflexivity].
  - split; [split; assumption|]. split; [apply history_add_error|].
    apply (policy_add_error _ false t g).
  - split; [split; assumption|split; reflexivity].
Qed.

Lemma read_lines_reading s : forall cur t r g,
  reading_ok r ->
  reading_ok (fst (snd (read_lines cur s t (r, g)))) /\
  history (snd (snd (read_lines cur s t (r, g)))) = history g /\
  fd (snd (snd (read_lines cur s t (r, g)))) = fd g.
Proof.
  induction s as [|c s IH]; intros cur t r g Hr; cbn [read_lines].
  - cbn [fst snd]. auto.
  - destruct (char_eqb c newline).
    + destruct (process_line_reading cur t r g Hr) as (H1 & H2 & H3).
      destruct (process_line cur t (r, g)) as [r1 g1]. cbn [fst snd] in *.
      destruct (IH [] t r1 g1 H1) as (I1 & I2 & I3).
      rewrite I2, I3, H2, H3. auto.
    + apply IH. exact Hr.
Qed.

(** What one call of [read_serial] does to the descriptor and to the
    buffer. *)
Lemma read_serial_effect (w : world) (g : BMP280Gui) :
  (fd (read_serial w g) = fd g \/ fd (read_serial w g) = -1) /\
  (history (read_serial w g) = history g \/
   exists d,
     history (read_serial w g) = CircularBuffer.push (history g) d /\
     sample_ok d /\ timestamp d = now w /\
     fd g <> -1 /\ paused g = false).
Proof.
  unfold read_serial.
  destruct (Z.eqb_spec (fd g) (-1)) as [Hfd|Hfd]; cbn [orb]; [auto|].
  destruct (paused g) eqn:Hp; [auto|].
  destruct (select_ready w <? 0).
  { split; [right; reflexivity|left; reflexivity]. }
  destruct (select_ready w =? 0); [auto|].
  destruct (incoming w) as [data|eagain].
  2:{ destruct eagain; [auto|].
      split; [right; reflexivity|left; reflexivity]. }
  destruct (Z.of_nat (length (take (Z.to_nat (BUFFER_SIZE - serial_buf_pos g - 1)) data)) <=? 0);
    [auto|].
  match goal with
  | |- context [read_lines [] ?buf (now w) (no_reading, g)] =>
      pose proof (read_lines_reading buf [] (now w) no_reading g) as H;
      destruct (read_lines [] buf (now w) (no_reading, g)) as [rest [r g1]]
  end.
  cbn [fst snd] in H.
  destruct H as ((Ht & Hpr) & Hh & Hf); [split; discriminate|].
  assert (Hfd2 : forall b pos g2, fd (set_serial b pos g2) = fd g2) by reflexivity.
  assert (Hh2 : forall b pos g2, history (set_serial b pos g2) = history g2) by reflexivity.
  destruct (got_temp r) eqn:Gt, (got_press r) eqn:Gp; cbn [andb];
    destruct (0 <? Z.of_nat (length rest)); rewrite Hfd2, Hh2;
    try (split; [left; exact Hf | left; exact Hh]).
  all: split; [left; exact Hf|right].
  all: exists (mkDataPoint (temp r) (press r) (now w)); cbn [history set_history];
    rewrite Hh; repeat split; auto.
Qed.

Lemma Forall_logical_push (P : DataPoint -> Prop) b d :
  CircularBuffer.wf b ->
  Forall P (CircularBuffer.logical b) -> P d ->
  Forall P (CircularBuffer.logical (CircularBuffer.push b d)).
Proof.
  intros W F Hd. rewrite logical_push by assumption.
  destruct (CircularBuffer.size b <? MAX_POINTS); apply Forall_app; split;
    try (constructor; [exact Hd|constructor]); try assumption.
  apply Forall_drop. assumption.
Qed.

Lemma read_serial_gui_ok w g : gui_ok g -> gui_ok (read_serial w g).
Proof.
  intros (W & S & F). split; [|split].
  - destruct (read_serial_effect w g) as [_ [-> | (d & -> & _)]];
      [assumption|apply push_wf; assumption].
  - apply read_serial_serial_ok. assumption.
  - destruct (read_serial_effect w g) as [_ [-> | (d & -> & Hd & _)]];
      [assumption|apply Forall_logical_push; assumption].
Qed.

(** X9. [read_serial] never opens the line, it can only close it: the
    descriptor is unchanged or -1.  It leaves the buffer alone or pushes
    exactly one sample, and only when connected and not paused; the
    sample pushed has a temperature within -40 to 85, a pressure within
    300 to 1100 and the time of the call as its time stamp. *)
Theorem read_serial_stores_valid_samples (w : world) (g : BMP280Gui) :
  (fd (read_serial w g) = fd g \/ fd (read_serial w g) = -1) /\
  (history (read_serial w g) = history g \/
   exists d,
     history (read_serial w g) = CircularBuffer.push (history g) d /\
     sample_ok d /\ timestamp d = now w /\
     fd g <> -1 /\ paused g = false).
Proof. exact (read_serial_effect w g). Qed.

End StoredSamples.

(** ** Saving and loading *)

Section Files.

Lemma text_eqb_eq (a : text) : forall b, text_eqb a b = true -> a = b.
Proof.
  induction a as [|x a IH]; intros [|y b] H; try discriminate H; [reflexivity|].
  cbn [text_eqb] in H. apply andb_true_iff in H as [H1 H2].
  apply Ascii.eqb_eq in H1. rewrite H1, (IH b H2). reflexivity.
Qed.

Lemma text_eqb_false (a b : text) : a <> b -> text_eqb a b = false.
Proof.
  intros H. destruct (text_eqb a b) eqn:E; [|reflexivity].
  apply text_eqb_eq in E. contradiction.
Qed.

Lemma final_is_not_temp g : final_path g <> temp_path g.
Proof.
  unfold final_path, temp_path. intros H.
  apply (f_equal (@length ascii)) in H. rewrite !length_app in H.
  cbn [length chars list_ascii_of_string] in H. lia.
Qed.

Lemma save_data_outcome (w : world) (fs : files) (g : BMP280Gui) :
  CircularBuffer.wf (history g) ->
  exists msg fs',
    save_data w fs g = Ret (add_error msg false (now w) g, fs') /\
    (forall p, p <> final_path g -> p <> temp_path g -> fs' p = fs p) /\
    (if save_succeeds w g
     then fs' (final_path g) = Some (saved_text g) /\ fs' (temp_path g) = None
     else fs' (final_path g) = fs (final_path g)).
Proof.
  intros W. unfold save_data, save_succeeds.
  destruct (ofstream_opens w); cbn [negb andb].
  2:{ eexists _, fs. split; [reflexivity|]. auto. }
  rewrite (save_rows_all g W). cbn [bind].
  pose proof (final_is_not_temp g) as Hne.
  destruct (Nat.ltb_spec (write_limit w) (length (saved_text g))) as [L|L].
  - destruct (Nat.leb_spec (length (saved_text g)) (write_limit w)); [lia|].
    cbn [andb]. eexists _, _. split; [reflexivity|]. split.
    + intros p _ Hp. unfold write_file. now rewrite (text_eqb_false _ _ Hp).
    + unfold write_file. now rewrite (text_eqb_false _ _ Hne).
  - destruct (Nat.leb_spec (length (saved_text g)) (write_limit w)); [|lia].
    cbn [andb]. destruct (rename_what w) as [what|].
    + eexists _, _. split; [reflexivity|]. split.
      * intros p _ Hp. unfold write_file. now rewrite (text_eqb_false _ _ Hp).
      * unfold write_file. now rewrite (text_eqb_false _ _ Hne).
    + eexists _, _. split; [reflexivity|]. split.
      * intros p Hp1 Hp2. unfold write_file, remove_file.
        now rewrite (text_eqb_false _ _ Hp1), (text_eqb_false _ _ Hp2).
      * unfold write_file, remove_file. rewrite text_eqb_refl.
        rewrite (text_eqb_false (temp_path g) (final_path g)) by congruence.
        rewrite text_eqb_refl. auto.
Qed.

(** X10. Whenever [save_data] on a well-formed buffer returns (the
    creation of the directory [logs], its first statement, did not
    throw), the buffer is what it was and no file other than the data
    file, its temporary neighbour and the error log is touched.  When the
    data file is not the error log, it changes only if the whole save
    succeeds, and then it holds exactly the rows of the buffer and the
    temporary file is gone; when the temporary file cannot be opened, the
    disk does not take all of the text, or the rename fails, the data
    file is what it was before. *)
Theorem save_data_is_atomic (w : world) (fs fs' : files) (g g' : BMP280Gui) :
  CircularBuffer.wf (history g) ->
  final_path g <> error_log ->
  save_data w fs g = Ret (g', fs') ->
  history g' = history g /\
  (forall p, p <> final_path g -> p <> temp_path g -> p <> error_log -> fs' p = fs p) /\
  (if save_succeeds w g
   then fs' (final_path g) = Some (saved_text g) /\ fs' (temp_path g) = None
   else fs' (final_path g) = fs (final_path g)).
Proof.
  intros W _ E. destruct (save_data_outcome w fs g W) as (msg & fs1 & E1 & H1 & H2).
  rewrite E1 in E. inversion E; subst g' fs'. clear E.
  split; [apply history_add_error|]. split; [|exact H2].
  intros p Hp1 Hp2 _. apply H1; assumption.
Qed.

Lemma save_data_is_atomic_witness :
  exists g' fs',
    save_data (quiet_world 1700000002) no_files one_sample_gui = Ret (g', fs') /\
    history g' = history one_sample_gui /\
    (forall p, p <> final_path one_sample_gui -> p <> temp_path one_sample_gui ->
               p <> error_log -> fs' p = no_files p) /\
    (if save_succeeds (quiet_world 1700000002) one_sample_gui
     then fs' (final_path one_sample_gui) = Some (saved_text one_sample_gui) /\
          fs' (temp_path one_sample_gui) = None
     else fs' (final_path one_sample_gui) = no_files (final_path one_sample_gui)).
Proof.
  destruct (save_data_outcome (quiet_world 1700000002) no_files one_sample_gui
              (push_wf _ _ (new_wf blank_memory eq_refl))) as (msg & fs' & E & _).
  eexists _, fs'. split; [exact E|].
  apply (save_data_is_atomic (quiet_world 1700000002) no_files fs' one_sample_gui).
  - exact (push_wf _ _ (new_wf blank_memory eq_refl)).
  - vm_compute. discriminate.
  - exact E.
Defined.

Lemma parse_row_acceptable delim t line d :
  parse_row delim t line = Some d -> acceptable t d = true.
Proof.
  unfold parse_row, acceptable.
  destruct (Stream.get_float line) as [[tv s1]|]; [|discriminate].
  destruct (Stream.get_char s1) as [[c1 s2]|]; [|discriminate].
  destruct (Stream.get_float s2) as [[pv s3]|]; [|discriminate].
  destruct (Stream.get_char s3) as [[c2 s4]|]; [|discriminate].
  destruct (Stream.get_long s4) as [[ts s5]|]; [|discriminate].
  destruct (char_eqb c2 delim); cbn [andb]; [|discriminate].
  destruct (temp_in_range tv && press_in_range pv && (0 <? ts) && (ts <=? t)) eqn:E;
    [|discriminate].
  intros H. inversion H; subst d. exact E.
Qed.

Lemma omap_parse_row_acceptable delim t lines :
  Forall (fun d => acceptable t d = true) (omap (parse_row delim t) lines).
Proof.
  induction lines as [|l lines IH]; [constructor|].
  cbn [omap list_omap]. destruct (parse_row delim t l) as [d|] eqn:E; [|exact IH].
  constructor; [eapply parse_row_acceptable; exact E|exact IH].
Qed.

Lemma acceptable_sample_ok t d : acceptable t d = true -> sample_ok d.
Proof.
  unfold acceptable, sample_ok. rewrite !andb_true_iff. tauto.
Qed.

(** X11. From a data file that opens, [load_data] keeps the rows that
    pass its checks and nothing else: the buffer afterwards holds the
    last [MAX_POINTS] accepted rows in file order, whatever it held
    before; every sample in it is in range with a positive time stamp not
    after the time of the call; and the result is [true] exactly when at
    least one row was accepted. *)
Theorem load_data_keeps_newest_valid_rows path w fs g content :
  fs path = Some content ->
  ifstream_opens w = true ->
  CircularBuffer.wf (history g) ->
  CircularBuffer.logical (history (fst (load_data path w fs g))) =
    drop (length (omap (parse_row (csv_delimiter g) (now w)) (Stream.getlines content))
          - Z.to_nat MAX_POINTS)
      (omap (parse_row (csv_delimiter g) (now w)) (Stream.getlines content)) /\
  Forall (fun d => acceptable (now w) d = true)
    (CircularBuffer.logical (history (fst (load_data path w fs g)))) /\
  snd (load_data path w fs g) =
    match omap (parse_row (csv_delimiter g) (now w)) (Stream.getlines content) with
    | [] => false
    | _ => true
    end.
Proof.
  intros Hf Ho W.
  destruct (load_data_keeps_parsed_rows path w fs g content Hf Ho) as [Hh Hs].
  set (rows := omap (parse_row (csv_delimiter g) (now w)) (Stream.getlines content)) in *.
  destruct (logical_pushes rows (CircularBuffer.clear (history g))
              (clear_wf _ W)) as [W' L].
  rewrite (logical_empty (CircularBuffer.clear (history g))) in L by reflexivity.
  cbn [app] in L. rewrite <- Hh in L, W'.
  split; [exact L|]. split.
  - rewrite L. apply Forall_drop. apply omap_parse_row_acceptable.
  - rewrite Hs. unfold CircularBuffer.get_size.
    rewrite (size_of_logical _ W'), L, length_drop. unfold MAX_POINTS.
    destruct rows as [|d r]; cbn [length]; [reflexivity|].
    apply Z.ltb_lt. lia.
Qed.

Lemma load_data_keeps_newest_valid_rows_witness :
  CircularBuffer.logical
    (history (fst (load_data (chars "logs/data.csv") (quiet_world 1700000003)
                     mixed_file connected_gui))) =
    drop (length (omap (parse_row (csv_delimiter connected_gui)
                          (now (quiet_world 1700000003)))
                    (Stream.getlines (mixed_row ++ [newline])))
          - Z.to_nat MAX_POINTS)
      (omap (parse_row (csv_delimiter connected_gui) (now (quiet_world 1700000003)))
         (Stream.getlines (mixed_row ++ [newline]))) /\
  Forall (fun d => acceptable (now (quiet_world 1700000003)) d = true)
    (CircularBuffer.logical
       (history (fst (load_data (chars "logs/data.csv") (quiet_world 1700000003)
                        mixed_file connected_gui)))) /\
  snd (load_data (chars "logs/data.csv") (quiet_world 1700000003) mixed_file
         connected_gui) =
    match omap (parse_row (csv_delimiter connected_gui) (now (quiet_world 1700000003)))
            (Stream.getlines (mixed_row ++ [newline])) with
    | [] => false
    | _ => true
    end.
Proof.
  apply (load_data_keeps_newest_valid_rows (chars "logs/data.csv")
           (quiet_world 1700000003) mixed_file connected_gui (mixed_row ++ [newline])).
  - reflexivity.
  - reflexivity.
  - apply new_wf. reflexivity.
Defined.

Lemma load_data_gui_ok path w fs g : gui_ok g -> gui_ok (fst (load_data path w fs g)).
Proof.
  intros (W & S & F). unfold load_data.
  destruct (fs path) as [content|] eqn:Hf; [|cbn [fst]; unfold gui_ok; auto].
  destruct (ifstream_opens w) eqn:Ho; cbn [negb].
  - pose proof (load_data_keeps_parsed_rows path w fs g content Hf Ho) as [Hh _].
    unfold load_data in Hh. rewrite Hf, Ho in Hh. cbn [negb fst] in Hh.
    cbn [fst].
    set (g2 := foldl (load_row (now w)) _ _) in *.
    destruct (logical_pushes
                (omap (parse_row (csv_delimiter g) (now w)) (Stream.getlines content))
                (CircularBuffer.clear (history g)) (clear_wf _ W)) as [W' L].
    rewrite (logical_empty (CircularBuffer.clear (history g))) in L by reflexivity.
    cbn [app] in L. rewrite <- Hh in L, W'.
    split; [exact W'|]. split.
    + assert (Hser : forall lines g0,
                serial_buffer (foldl (load_row (now w)) g0 lines) = serial_buffer g0 /\
                serial_buf_pos (foldl (load_row (now w)) g0 lines) = serial_buf_pos g0).
      { induction lines as [|l lines IH]; intros g0; [auto|].
        cbn [foldl]. destruct (IH (load_row (now w) g0 l)) as [-> ->].
        unfold load_row. destruct (parse_row (csv_delimiter g0) (now w) l); [auto|].
        pose proof (same_data_add_error (chars "Invalid data line: " ++ l) false (now w) g0)
          as (_ & A & B & _). auto. }
      destruct (Hser (Stream.getlines content)
                  (set_history (CircularBuffer.clear (history g)) g)) as [E1 E2].
      unfold serial_ok, g2. rewrite E1, E2. exact S.
    + rewrite L. apply Forall_drop.
      eapply Forall_impl; [apply omap_parse_row_acceptable|].
      intros d. apply acceptable_sample_ok.
  - cbn [fst]. eapply gui_ok_same_data; [apply same_data_add_error|].
    split; [apply clear_wf; exact W|]. split; [exact S|].
    cbn [history set_history]. rewrite logical_empty by reflexivity. constructor.
Qed.

End Files.

(** ** The invariant of the application *)

Section Invariant.

Lemma gui_ok_frame g g' :
  history g' = history g -> serial_buffer g' = serial_buffer g ->
  serial_buf_pos g' = serial_buf_pos g -> gui_ok g -> gui_ok g'.
Proof.
  intros H1 H2 H3 (W & (S1 & S2) & F). unfold gui_ok, serial_ok.
  rewrite H1, H2, H3. auto.
Qed.

Lemma save_data_gui_ok w fs g :
  gui_ok g ->
  exists g' fs', save_data w fs g = Ret (g', fs') /\ gui_ok g' /\ same_data g g'.
Proof.
  intros G. destruct (save_data_outcome w fs g (proj1 G)) as (msg & fs' & E & _).
  eexists _, fs'. split; [exact E|]. split.
  - eapply gui_ok_same_data; [apply same_data_add_error|exact G].
  - apply same_data_add_error.
Qed.

Lemma handle_event_gui_ok w ev g fs :
  gui_ok g ->
  if quits ev
  then handle_event w ev (g, fs) = Throw (runtime_error "User quit")
  else exists g' fs', handle_event w ev (g, fs) = Ret (g', fs') /\ gui_ok g'.
Proof.
  intros G. destruct ev as [[|input| | |typed|]|]; cbn [quits handle_event];
    try reflexivity; try (eexists _, _; split; [reflexivity|]).
  - assert (G0 : gui_ok (match input with [] => g | _ => set_filename input g end))
      by (destruct input; [exact G|revert G; apply gui_ok_frame; reflexivity]).
    destruct (save_data_gui_ok w fs _ G0) as (g' & fs' & E & G' & _).
    exists g', fs'. auto.
  - revert G. apply gui_ok_frame; reflexivity.
  - revert G. apply gui_ok_frame; destruct (negb (fd (set_error_messages [] g) =? -1));
      reflexivity.
  - destruct typed as [baud|].
    + destruct (negb (baud =? 9600) && negb (baud =? 115200)).
      * eexists _, _. split; [reflexivity|].
        eapply gui_ok_same_data; [apply same_data_add_error|exact G].
      * eexists _, _. split; [reflexivity|].
        eapply gui_ok_same_data; [apply same_data_add_error|].
        set (g1 := set_baud_rate _ g).
        assert (G1 : gui_ok g1) by (revert G; apply gui_ok_frame; reflexivity).
        destruct (negb (fd g1 =? -1)); [|exact G1].
        eapply gui_ok_same_data; [apply same_data_try_reconnect|].
        revert G1. apply gui_ok_frame; reflexivity.
    + eexists _, _. split; [reflexivity|].
      eapply gui_ok_same_data; [apply same_data_add_error|exact G].
  - exact G.
  - exact G.
Qed.

Lemma handle_events_gui_ok w evs : forall g fs,
  gui_ok g ->
  if existsb quits evs
  then handle_events w evs (g, fs) = Throw (runtime_error "User quit")
  else exists g' fs', handle_events w evs (g, fs) = Ret (g', fs') /\ gui_ok g'.
Proof.
  induction evs as [|ev evs IH]; intros g fs G; cbn [existsb handle_events].
  - exists g, fs. auto.
  - pose proof (handle_event_gui_ok w ev g fs G) as H.
    destruct (quits ev); cbn [orb].
    + rewrite H. reflexivity.
    + destruct H as (g1 & fs1 & -> & G1). cbn [bind]. apply IH. exact G1.
Qed.

Lemma update_state_gui_ok w g fs :
  gui_ok g ->
  exists g' fs', update_state w (g, fs) = Ret (g', fs') /\ gui_ok g'.
Proof.
  intros G. unfold update_state.
  assert (G1 : gui_ok (read_serial w (try_reconnect w g))).
  { apply read_serial_gui_ok. eapply gui_ok_same_data; [apply same_data_try_reconnect|exact G]. }
  set (g1 := read_serial w (try_reconnect w g)) in *.
  destruct (negb (paused g1) && (save_interval g1 <=? now w - last_save g1)).
  - destruct (save_data_gui_ok w fs g1 G1) as (g2 & fs2 & -> & G2 & _).
    cbn [bind fst snd]. eexists _, _. split; [reflexivity|].
    revert G2. apply gui_ok_frame; reflexivity.
  - eexists _, _. split; [reflexivity|exact G1].
Qed.

Lemma run_once_gui_ok tk g fs :
  gui_ok g ->
  if existsb quits (fst tk)
  then run_once tk (g, fs) = Throw (runtime_error "User quit")
  else exists g' fs', run_once tk (g, fs) = Ret (g', fs') /\ gui_ok g'.
Proof.
  intros G. destruct tk as [evs w]. cbn [fst]. unfold run_once.
  pose proof (handle_events_gui_ok w evs g fs G) as H.
  destruct (existsb quits evs).
  - rewrite H. reflexivity.
  - destruct H as (g1 & fs1 & -> & G1). cbn [bind].
    destruct (update_state_gui_ok w g1 fs1 G1) as (g2 & fs2 & -> & G2).
    cbn [bind fst snd]. eexists _, _. split; [reflexivity|].
    destruct (error_messages g2); [exact G2|].
    destruct (ERROR_DISPLAY_TIME <? now w - last_error_time g2); [|exact G2].
    revert G2. apply gui_ok_frame; reflexivity.
Qed.

Lemma run_gui_ok ticks : forall g fs,
  gui_ok g ->
  if quit_pressed ticks
  then run ticks (g, fs) = Throw (runtime_error "User quit")
  else exists g' fs', run ticks (g, fs) = Ret (g', fs') /\ gui_ok g'.
Proof.
  induction ticks as [|tk ticks IH]; intros g fs G; unfold quit_pressed;
    cbn [existsb run].
  - exists g, fs. auto.
  - fold (quit_pressed ticks).
    pose proof (run_once_gui_ok tk g fs G) as H.
    destruct (existsb quits (fst tk)); cbn [orb].
    + rewrite H. reflexivity.
    + destruct H as (g1 & fs1 & -> & G1). cbn [bind]. apply IH. exact G1.
Qed.

Lemma construct_gui_ok su args w fs :
  length (memory su) = Z.to_nat MAX_POINTS ->
  if display_opens su
  then exists g, construct su args w fs = Ret g /\ gui_ok g
  else construct su args w fs = Throw (runtime_error "Cannot open display").
Proof.
  intros Hm. unfold construct. destruct (display_opens su); cbn [negb]; [|reflexivity].
  set (g0 := mkGui _ _ _ _ _ _ _ _ _ _ _ _ _ _ _).
  assert (G0 : gui_ok g0).
  { split; [apply new_wf; exact Hm|]. split.
    - split; cbn; [rewrite length_replicate; reflexivity|unfold BUFFER_SIZE; lia].
    - cbn [history g0]. rewrite logical_empty by reflexivity. constructor. }
  set (g1 := match arg_baud args with None => g0 | Some baud => _ end).
  assert (G1 : gui_ok g1).
  { unfold g1. destruct (arg_baud args) as [baud|]; [|exact G0].
    destruct (baud =? 9600); [revert G0; apply gui_ok_frame; reflexivity|].
    destruct (baud =? 115200); [revert G0; apply gui_ok_frame; reflexivity|].
    eapply gui_ok_same_data; [apply same_data_add_error|].
    revert G0; apply gui_ok_frame; reflexivity. }
  clearbody g1. clear G0 g0.
  set (g2 := match arg_delimiter args with None => g1 | Some c => _ end).
  assert (G2 : gui_ok g2).
  { unfold g2. destruct (arg_delimiter args) as [c|]; [|exact G1].
    destruct (code c =? 0); [exact G1|].
    revert G1; apply gui_ok_frame; reflexivity. }
  clearbody g2. clear G1 g1.
  set (g3 := match find_serial_port w with None => _ | Some port => _ end).
  assert (G3 : gui_ok g3).
  { unfold g3. destruct (find_serial_port w) as [port|].
    - pose proof (same_data_open_serial port (baud_rate g2) w g2) as H.
      destruct (open_serial port (baud_rate g2) w g2) as [g ok]. cbn [fst] in H.
      assert (G : gui_ok g) by (eapply gui_ok_same_data; eassumption).
      destruct ok; [exact G|].
      eapply gui_ok_same_data; [apply same_data_add_error|exact G].
    - eapply gui_ok_same_data; [apply same_data_add_error|exact G2]. }
  clearbody g3. clear G2 g2.
  pose proof (load_data_gui_ok (final_path g3) w fs g3 G3) as G4.
  destruct (load_data (final_path g3) w fs g3) as [g4 loaded]. cbn [fst] in G4.
  eexists. split; [reflexivity|].
  destruct loaded; [|exact G4].
  eapply gui_ok_same_data; [apply same_data_add_error|exact G4].
Qed.

Lemma load_rows_serial t lines : forall g,
  serial_buffer (foldl (load_row t) g lines) = serial_buffer g /\
  serial_buf_pos (foldl (load_row t) g lines) = serial_buf_pos g.
Proof.
  induction lines as [|l lines IH]; intros g; [auto|].
  cbn [foldl]. destruct (IH (load_row t g l)) as [-> ->].
  unfold load_row. destruct (parse_row (csv_delimiter g) t l); [auto|].
  pose proof (same_data_add_error (chars "Invalid data line: " ++ l) false t g)
    as (_ & A & B & _). auto.
Qed.

Lemma load_data_serial path w fs g :
  serial_buffer (fst (load_data path w fs g)) = serial_buffer g /\
  serial_buf_pos (fst (load_data path w fs g)) = serial_buf_pos g.
Proof.
  unfold load_data. destruct (fs path) as [content|]; [|auto].
  destruct (negb (ifstream_opens w)); cbn [fst].
  - pose proof (same_data_add_error (chars "Failed to open data file: " ++ path) false
                  (now w) (set_history (CircularBuffer.clear (history g)) g))
      as (_ & A & B & _).
    rewrite A, B. auto.
  - destruct (load_rows_serial (now w) (Stream.getlines content)
                (set_history (CircularBuffer.clear (history g)) g)) as [-> ->].
    auto.
Qed.

Lemma construct_nothing_pending su args w fs g :
  construct su args w fs = Ret g -> serial_buf_pos g = 0.
Proof.
  unfold construct. destruct (display_opens su); cbn [negb]; [|discriminate].
  set (g0 := mkGui _ _ _ _ _ _ _ _ _ _ _ _ _ _ _).
  assert (P0 : serial_buf_pos g0 = 0) by reflexivity.
  set (g1 := match arg_baud args with None => g0 | Some baud => _ end).
  assert (P1 : serial_buf_pos g1 = 0).
  { unfold g1. destruct (arg_baud args) as [baud|]; [|exact P0].
    destruct (baud =? 9600); [exact P0|].
    destruct (baud =? 115200); exact P0. }
  clearbody g1. clear P0 g0.
  set (g2 := match arg_delimiter args with None => g1 | Some c => _ end).
  assert (P2 : serial_buf_pos g2 = 0).
  { unfold g2. destruct (arg_delimiter args) as [c|]; [|exact P1].
    destruct (code c =? 0); exact P1. }
  clearbody g2. clear P1 g1.
  set (g3 := match find_serial_port w with None => _ | Some port => _ end).
  assert (P3 : serial_buf_pos g3 = 0).
  { unfold g3. destruct (find_serial_port w) as [port|].
    - pose proof (same_data_open_serial port (baud_rate g2) w g2) as (_ & _ & H & _).
      destruct (open_serial port (baud_rate g2) w g2) as [g1 ok]. cbn [fst] in H.
      destruct ok; [congruence|].
      pose proof (same_data_add_error (chars "Unable to open serial port: " ++ port)
                    true (now w) g1) as (_ & _ & H' & _).
      congruence.
    - exact P2. }
  clearbody g3. clear P2 g2.
  pose proof (load_data_serial (final_path g3) w fs g3) as [_ P4].
  destruct (load_data (final_path g3) w fs g3) as [g4 loaded]. cbn [fst] in P4.
  destruct loaded; intros H; inversion H; subst g; clear H; [|exact (eq_trans P4 P3)].
  pose proof (same_data_add_error (chars "Loaded data from logs/" ++ filename g4)
                false (now w) g4) as (_ & _ & H' & _).
  exact (eq_trans H' (eq_trans P4 P3)).
Qed.

(** X12. Whenever the constructor returns, the application satisfies
    the invariant: the ring buffer is well formed, the serial buffer has
    [BUFFER_SIZE] bytes, none of them pending, and every sample loaded
    from the data file is in range, whatever the command line, the ports
    and the files are.  No step of the constructor is undefined, and the
    only exceptions that leave it are runtime errors. *)
Theorem construct_establishes_the_invariant su args w fs :
  length (memory su) = Z.to_nat MAX_POINTS ->
  construct su args w fs <> Undefined /\
  (forall e, construct su args w fs = Throw e -> exists what, e = runtime_error what) /\
  (forall g, construct su args w fs = Ret g ->
     gui_ok g /\ serial_buf_pos g = 0 /\ pending g = []).
Proof.
  intros Hm. pose proof (construct_gui_ok su args w fs Hm) as H.
  destruct (display_opens su).
  - destruct H as (g & E & G). rewrite E.
    split; [discriminate|]. split; [discriminate|].
    intros g' H. inversion H; subst g'. clear H.
    pose proof (construct_nothing_pending _ _ _ _ _ E) as P.
    split; [exact G|]. split; [exact P|].
    unfold pending. rewrite P. apply take_0.
  - rewrite H. split; [discriminate|]. split; [|discriminate].
    intros e He. inversion He. eauto.
Qed.

Lemma construct_establishes_the_invariant_witness :
  exists g,
    construct demo_startup demo_arguments (quiet_world 1700000000) no_files = Ret g /\
    gui_ok g /\ serial_buf_pos g = 0 /\ pending g = [].
Proof.
  destruct (construct_gui_ok demo_startup demo_arguments (quiet_world 1700000000)
              no_files eq_refl) as (g & E & _).
  exists g. split; [exact E|].
  exact (proj2 (proj2 (construct_establishes_the_invariant demo_startup demo_arguments
                         (quiet_world 1700000000) no_files eq_refl)) g E).
Defined.

Lemma connected_gui_ok : gui_ok connected_gui.
Proof.
  split; [apply new_wf; reflexivity|]. split.
  - split; [reflexivity|simpl; unfold BUFFER_SIZE; lia].
  - cbn [history connected_gui]. rewrite logical_empty by reflexivity. constructor.
Qed.

(** X13. The loop of [run] keeps the invariant through every turn,
    whatever arrives on the serial line, whatever the file system does
    and whichever of the keys [q], [s], [p], [c], [b] are pressed (a
    click on the first two menu fields runs the statements of [s] and
    [p]): as long as the loop is going the ring buffer is well formed,
    the pending bytes fit the serial buffer and every retained sample is
    in range.  No step of a turn is undefined, no access to the ring
    buffer throws or leaves its array, and the only exceptions that leave
    the loop are runtime errors.  The events on the view and the drawing
    are not part of these turns. *)
Theorem run_keeps_the_invariant ticks g fs :
  gui_ok g ->
  run ticks (g, fs) <> Undefined /\
  (forall e, run ticks (g, fs) = Throw e -> exists what, e = runtime_error what) /\
  (forall g' fs', run ticks (g, fs) = Ret (g', fs') -> gui_ok g').
Proof.
  intros G. pose proof (run_gui_ok ticks g fs G) as H.
  destruct (quit_pressed ticks).
  - rewrite H. split; [discriminate|]. split; [|discriminate].
    intros e He. inversion He. eauto.
  - destruct H as (g1 & fs1 & E & G1). rewrite E.
    split; [discriminate|]. split; [discriminate|].
    intros g' fs' H. inversion H; subst. exact G1.
Qed.

Lemma run_keeps_the_invariant_witness :
  exists g' fs', run demo_ticks (connected_gui, no_files) = Ret (g', fs') /\ gui_ok g'.
Proof.
  pose proof (run_gui_ok demo_ticks connected_gui no_files connected_gui_ok) as H.
  change (quit_pressed demo_ticks) with false in H.
  destruct H as (g' & fs' & E & _).
  exists g', fs'. split; [exact E|].
  exact (proj2 (proj2 (run_keeps_the_invariant demo_ticks connected_gui no_files
                         connected_gui_ok)) g' fs' E).
Defined.

(** X15. While the application is paused, a turn of [update_state] that
    returns has read nothing and saved nothing: the application is what
    the reconnection logic alone makes of it, so the buffer, the pending
    bytes, the pause flag, the file name, the separator, the save
    interval and the time of the last save are what they were, and no
    file other than the error log is touched. *)
Theorem update_state_when_paused w g fs g' fs' :
  paused g = true ->
  update_state w (g, fs) = Ret (g', fs') ->
  g' = try_reconnect w g /\
  same_data g g' /\
  (forall p, p <> error_log -> fs' p = fs p).
Proof.
  intros Hp. unfold update_state.
  pose proof (same_data_try_reconnect w g) as S.
  assert (Hp1 : paused (try_reconnect w g) = true)
    by (destruct S as (_ & _ & _ & -> & _); exact Hp).
  assert (Hr : read_serial w (try_reconnect w g) = try_reconnect w g)
    by (unfold read_serial; rewrite Hp1, orb_true_r; reflexivity).
  rewrite Hr, Hp1. cbn [negb andb]. intros H. inversion H; subst g' fs'.
  split; [reflexivity|]. split; [exact S|]. reflexivity.
Qed.

Lemma update_state_when_paused_witness :
  exists g' fs',
    update_state (quiet_world 1700000000) (paused_gui, no_files) = Ret (g', fs') /\
    g' = try_reconnect (quiet_world 1700000000) paused_gui /\
    same_data paused_gui g' /\
    (forall p, p <> error_log -> fs' p = no_files p).
Proof.
  exists (try_reconnect (quiet_world 1700000000) paused_gui), no_files.
  split; [reflexivity|].
  apply (update_state_when_paused (quiet_world 1700000000) paused_gui no_files).
  - reflexivity.
  - reflexivity.
Defined.

End Invariant.

(** ** The configuration file *)

Section Configuration.

Lemma default_settings_in_bounds : settings_in_bounds default_settings.
Proof.
  unfold settings_in_bounds, default_settings.
  cbn [ini_save_interval temp_min temp_max press_min press_max graph_colors].
  repeat split; try reflexivity; lia.
Qed.

Ltac settings_step :=
  let H := fresh "H" in
  intros H; inversion H; subst; clear H;
  repeat match goal with
  | E : _ || _ = false |- _ => apply orb_false_elim in E; destruct E
  end;
  unfold settings_in_bounds, set_ini_baud_rate, set_ini_save_interval,
    set_ini_csv_delimiter, set_temp_min, set_temp_max, set_press_min, set_press_max,
    set_menu_bg_color, set_help_bg_color, set_graph_color;
  cbn [ini_save_interval temp_min temp_max press_min press_max graph_colors];
  rewrite ?length_insert;
  repeat split; try assumption; try reflexivity; try lia.

Lemma config_entry_in_bounds line t c g c' g' :
  settings_in_bounds c ->
  config_entry line t c g = Ret (c', g') ->
  settings_in_bounds c'.
Proof.
  intros (B1 & B2 & B3 & B4 & B5 & B6 & B7 & B8). unfold config_entry.
  repeat match goal with
  | |- context [if is_prefix ?p line && ?e then _ else _] =>
      destruct (is_prefix p line && e)
  | |- context [if is_prefix ?p line then _ else _] => destruct (is_prefix p line)
  end.
  all: try match goal with
  | |- context [stoi ?s] => destruct (stoi s) as [v| |]; cbn [bind]; try discriminate
  | |- context [Libc.stof ?s] => destruct (Libc.stof s) as [v| |]; cbn [bind]; try discriminate
  end.
  all: repeat match goal with
  | |- context [if ?b then _ else _] => destruct b eqn:?
  end.
  all: settings_step.
Qed.

Lemma config_line_in_bounds t c g line :
  settings_in_bounds c -> settings_in_bounds (fst (config_line t (c, g) line)).
Proof.
  intros B. unfold config_line. destruct line as [|ch rest]; [exact B|].
  destruct (code ch =? 35); [exact B|].
  destruct (config_entry (ch :: rest) t c g) as [[c' g']| |] eqn:E; cbn [fst];
    [eapply config_entry_in_bounds; eassumption|exact B|exact B].
Qed.

Lemma config_lines_in_bounds t lines : forall c g,
  settings_in_bounds c ->
  settings_in_bounds (fst (foldl (config_line t) (c, g) lines)).
Proof.
  induction lines as [|line lines IH]; intros c g B; [exact B|].
  cbn [foldl].
  pose proof (config_line_in_bounds t c g line B) as B'.
  destruct (config_line t (c, g) line) as [c' g']. apply IH. exact B'.
Qed.

(** X16. Whatever the configuration file contains, the settings
    [load_config] hands over stay within the bounds it checks: the save
    interval is between 1 and 3600, the lower temperature bound is
    neither below -40 nor above 85, the upper one is not above 85, the
    lower pressure bound is neither below 300 nor above 1100, the upper
    one is not above 1100, and there are four graph colours.  The three
    settings the application keeps as members are the ones read; when the
    file cannot be opened they are left as they were. *)
Theorem load_config_stays_in_bounds (path : text) (w : world) (fs : files)
    (g : BMP280Gui) :
  match load_config path w fs g with
  | (g', Some c, _) =>
      settings_in_bounds c /\
      baud_rate g' = ini_baud_rate c /\
      save_interval g' = ini_save_interval c /\
      csv_delimiter g' = ini_csv_delimiter c
  | (g', None, _) =>
      baud_rate g' = baud_rate g /\
      save_interval g' = save_interval g /\
      csv_delimiter g' = csv_delimiter g
  end.
Proof.
  unfold load_config.
  assert (Hc : forall p, baud_rate (fst (create_default_config p w fs g)) = baud_rate g /\
                 save_interval (fst (create_default_config p w fs g)) = save_interval g /\
                 csv_delimiter (fst (create_default_config p w fs g)) = csv_delimiter g).
  { intros p. unfold create_default_config.
    destruct (negb (ofstream_opens w)); [cbn; auto|].
    destruct (write_limit w <? length default_config_text)%nat; cbn; auto. }
  set (gf := match fs path with
             | None => create_default_config path w fs g
             | Some _ => (g, fs)
             end).
  assert (Hg : baud_rate (fst gf) = baud_rate g /\
               save_interval (fst gf) = save_interval g /\
               csv_delimiter (fst gf) = csv_delimiter g).
  { unfold gf. destruct (fs path); [cbn; auto|apply Hc]. }
  destruct gf as [g1 fs1]. cbn [fst] in Hg.
  destruct (if ifstream_opens w then fs1 path else None) as [content|].
  - pose proof (config_lines_in_bounds (now w) (Stream.getlines content)
                  default_settings g1 default_settings_in_bounds) as B.
    destruct (foldl (config_line (now w)) (default_settings, g1)
                (Stream.getlines content)) as [c g2].
    cbn [fst] in B. split; [exact B|]. cbn. auto.
  - cbn. exact Hg.
Qed.

(** X17. The four graph colour keys store their value together with
    the equals sign that precedes it: the position they cut the line at
    is one short of the length of the key.  The keys [menu_bg_color] and
    [help_bg_color] store the value alone. *)
Theorem graph_colour_keys_keep_the_equals_sign (t : Z) (c : Settings) (g : BMP280Gui)
    (v : text) :
  config_line t (c, g) (chars "graph_color_temp_low=" ++ v)
    = (set_graph_color 0 (chars "=" ++ v) c, g) /\
  config_line t (c, g) (chars "graph_color_temp_high=" ++ v)
    = (set_graph_color 1 (chars "=" ++ v) c, g) /\
  config_line t (c, g) (chars "graph_color_press_low=" ++ v)
    = (set_graph_color 2 (chars "=" ++ v) c, g) /\
  config_line t (c, g) (chars "graph_color_press_high=" ++ v)
    = (set_graph_color 3 (chars "=" ++ v) c, g) /\
  config_line t (c, g) (chars "menu_bg_color=" ++ v) = (set_menu_bg_color v c, g) /\
  config_line t (c, g) (chars "help_bg_color=" ++ v) = (set_help_bg_color v c, g).
Proof. repeat split; reflexivity. Qed.

End Configuration.

(** ** Reporting a failed reconnection, and the periodic save *)

Section Turn.

Lemma last_push_capped (msg : text) (l : list text) :
  last (push_capped msg l) = Some msg.
Proof. unfold push_capped. apply last_snoc. Qed.

Lemma add_error_persistent_last msg t g :
  last (error_messages (add_error msg true t g)) = Some msg /\
  last (persistent_errors (add_error msg true t g)) = Some msg /\
  last_error_time (add_error msg true t g) = t.
Proof.
  unfold add_error, set_last_error_time, set_persistent_errors, set_error_messages.
  cbn [error_messages persistent_errors last_error_time].
  rewrite !last_push_capped. auto.
Qed.

(** X18. A reconnection attempt that is made and does not end connected
    is always reported: the newest entry of both error lists is the
    message that says why, that no port exists or that the port found
    opens at neither baud rate, and the time of the last error is the
    time of the attempt. *)
Theorem failed_reconnect_is_reported (w : world) (g : BMP280Gui) :
  reconnect_due w g = true ->
  port_opens w = false ->
  last (error_messages (try_reconnect w g)) = Some (reconnect_failure_message w) /\
  last (persistent_errors (try_reconnect w g)) = Some (reconnect_failure_message w) /\
  last_error_time (try_reconnect w g) = now w.
Proof.
  intros Hd Ho. unfold reconnect_due in Hd. apply andb_true_iff in Hd as [H1 H2].
  apply negb_true_iff in H1, H2.
  unfold try_reconnect. rewrite H1, H2.
  unfold port_opens, reconnect_failure_message in *.
  destruct (find_serial_port w) as [port|]; [|apply add_error_persistent_last].
  apply orb_false_elim in Ho as [O1 O2].
  cbn [try_baud_rates]. unfold open_serial.
  destruct (open_port w port B9600) as [d|what1]; [discriminate O1|].
  destruct (open_port w port B115200) as [d|what2]; [discriminate O2|].
  apply add_error_persistent_last.
Qed.

Lemma failed_reconnect_is_reported_witness :
  last (error_messages (try_reconnect (quiet_world 1700000000) waiting_gui))
    = Some (reconnect_failure_message (quiet_world 1700000000)) /\
  last (persistent_errors (try_reconnect (quiet_world 1700000000) waiting_gui))
    = Some (reconnect_failure_message (quiet_world 1700000000)) /\
  last_error_time (try_reconnect (quiet_world 1700000000) waiting_gui)
    = now (quiet_world 1700000000).
Proof.
  apply (failed_reconnect_is_reported (quiet_world 1700000000) waiting_gui).
  - reflexivity.
  - reflexivity.
Defined.

Lemma same_settings_refl g : same_settings g g.
Proof. repeat split. Qed.

Lemma same_settings_add_error msg p t g : same_settings g (add_error msg p t g).
Proof. destruct p; repeat split. Qed.

Lemma same_settings_trans g1 g2 g3 :
  same_settings g1 g2 -> same_settings g2 g3 -> same_settings g1 g3.
Proof.
  unfold same_settings. intros (A1&A2&A3&A4&A5) (B1&B2&B3&B4&B5).
  repeat split; congruence.
Qed.

Lemma process_line_settings line t r g :
  same_settings g (snd (process_line line t (r, g))).
Proof.
  unfold process_line. destruct (classify line); cbn [snd];
    (apply same_settings_refl || apply same_settings_add_error).
Qed.

Lemma read_lines_settings s : forall cur t r g,
  same_settings g (snd (snd (read_lines cur s t (r, g)))).
Proof.
  induction s as [|c s IH]; intros cur t r g; cbn [read_lines].
  - apply same_settings_refl.
  - destruct (char_eqb c newline); [|apply IH].
    pose proof (process_line_settings cur t r g) as H.
    destruct (process_line cur t (r, g)) as [r1 g1]. cbn [snd] in H.
    eapply same_settings_trans; [exact H|apply IH].
Qed.

Lemma read_serial_settings w g : same_settings g (read_serial w g).
Proof.
  unfold read_serial.
  destruct ((fd g =? -1) || paused g); [apply same_settings_refl|].
  destruct (select_ready w <? 0); [repeat split|].
  destruct (select_ready w =? 0); [apply same_settings_refl|].
  destruct (incoming w) as [data|eagain].
  2:{ destruct eagain; [apply same_settings_refl|repeat split]. }
  destruct (Z.of_nat (length (take (Z.to_nat (BUFFER_SIZE - serial_buf_pos g - 1)) data)) <=? 0);
    [apply same_settings_refl|].
  match goal with
  | |- context [read_lines [] ?buf (now w) (no_reading, g)] =>
      pose proof (read_lines_settings buf [] (now w) no_reading g) as H;
      destruct (read_lines [] buf (now w) (no_reading, g)) as [rest [r g1]]
  end.
  cbn [snd] in H.
  eapply same_settings_trans; [exact H|].
  destruct (got_temp r && got_press r), (0 <? Z.of_nat (length rest)); repeat split.
Qed.

Lemma same_data_settings g g' : same_data g g' -> same_settings g g'.
Proof. intros (_&_&_&A&B&C&D&E). repeat split; assumption. Qed.

(** X19. When the application is not paused and the save interval has
    elapsed, a turn of [update_state] that returns has saved what the
    buffer holds after the read of that same turn, and has set the time
    of the last save to the time of the turn whether or not the save
    succeeded: a save that fails is not tried again before another
    interval has passed, and the data file, when it is not the error
    log, is then what it was. *)
Theorem periodic_save_restarts_the_interval w g fs g' fs' :
  gui_ok g ->
  paused g = false ->
  save_interval g <= now w - last_save g ->
  final_path g <> error_log ->
  update_state w (g, fs) = Ret (g', fs') ->
  last_save g' = now w /\
  history g' = history (read_serial w (try_reconnect w g)) /\
  if save_succeeds w (read_serial w (try_reconnect w g))
  then fs' (final_path g) = Some (saved_text (read_serial w (try_reconnect w g)))
  else fs' (final_path g) = fs (final_path g).
Proof.
  intros G Hp Hs _. unfold update_state.
  assert (G1 : gui_ok (read_serial w (try_reconnect w g))).
  { apply read_serial_gui_ok.
    eapply gui_ok_same_data; [apply same_data_try_reconnect|exact G]. }
  assert (S : same_settings g (read_serial w (try_reconnect w g))).
  { eapply same_settings_trans;
      [apply same_data_settings, same_data_try_reconnect|apply read_serial_settings]. }
  set (g1 := read_serial w (try_reconnect w g)) in *.
  destruct S as (S1 & S2 & S3 & S4 & S5).
  rewrite S1, S4, S5, Hp. cbn [negb andb].
  destruct (Z.leb_spec (save_interval g) (now w - last_save g)) as [_|C]; [|lia].
  destruct (save_data_outcome w fs g1 (proj1 G1)) as (msg & fs1 & E & _ & H2).
  rewrite E. cbn [bind fst snd]. intros H. inversion H; subst g' fs'. clear H.
  split; [reflexivity|]. split.
  { cbn [history set_last_save]. apply history_add_error. }
  assert (Hf : final_path g1 = final_path g) by (unfold final_path; now rewrite S2).
  rewrite <- Hf. destruct (save_succeeds w g1); [apply H2|exact H2].
Qed.

Lemma unsaved_gui_ok : gui_ok unsaved_gui.
Proof.
  split; [exact (push_wf _ _ (new_wf blank_memory eq_refl))|]. split.
  - split; [reflexivity|simpl; unfold BUFFER_SIZE; lia].
  - let l := eval vm_compute in (CircularBuffer.logical (history unsaved_gui)) in
    change (CircularBuffer.logical (history unsaved_gui)) with l.
    repeat (apply Forall_cons_2; [split; vm_compute; reflexivity|]).
    apply Forall_nil_2.
Qed.

Lemma periodic_save_restarts_the_interval_witness :
  exists g' fs',
    update_state (quiet_world 1700000000) (unsaved_gui, no_files) = Ret (g', fs') /\
    last_save g' = now (quiet_world 1700000000) /\
    history g' =
      history (read_serial (quiet_world 1700000000)
                 (try_reconnect (quiet_world 1700000000) unsaved_gui)) /\
    if save_succeeds (quiet_world 1700000000)
         (read_serial (quiet_world 1700000000)
            (try_reconnect (quiet_world 1700000000) unsaved_gui))
    then fs' (final_path unsaved_gui) =
           Some (saved_text (read_serial (quiet_world 1700000000)
                               (try_reconnect (quiet_world 1700000000) unsaved_gui)))
    else fs' (final_path unsaved_gui) = no_files (final_path unsaved_gui).
Proof.
  destruct (update_state_gui_ok (quiet_world 1700000000) unsaved_gui no_files
              unsaved_gui_ok) as (g' & fs' & E & _).
  exists g', fs'. split; [exact E|].
  apply (periodic_save_restarts_the_interval (quiet_world 1700000000) unsaved_gui no_files).
  - exact unsaved_gui_ok.
  - reflexivity.
  - simpl. lia.
  - vm_compute. discriminate.
  - exact E.
Defined.

End Turn.

(** ** The view *)

Section View.

Ltac int_ops H :=
  unfold int_add, int_sub, int_checked in H;
  repeat match type of H with
  | context [if in_int ?x then _ else _] =>
      let E := fresh "E" in destruct (in_int x) eqn:E; cbn [bind] in H;
      [|try discriminate H]
  end.

Lemma clamp_int_range v lo hi r :
  clamp_int v lo hi = Ret r -> lo <= r <= hi.
Proof.
  unfold clamp_int. destruct (Z.ltb_spec hi lo) as [A|A]; [discriminate|].
  intros E. inversion E; subst r.
  destruct (Z.ltb_spec v lo) as [B|B]; [lia|]. destruct (Z.ltb_spec hi v); lia.
Qed.

Lemma handle_view_key_ok size k v v' :
  view_ok v -> handle_view_key size k v = Ret v' -> view_ok v'.
Proof.
  intros (O1 & O2 & Hh) H. unfold view_ok. destruct k; cbn [handle_view_key] in H.
  - destruct (show_help v) eqn:Hs; inversion H; subst v'; simpl;
      repeat split; try assumption; try discriminate; unfold help_lines_size; lia.
  - inversion H; subst v'. cbn. auto.
  - inversion H; subst v'. cbn. repeat split; try lia; apply Hh; assumption.
  - inversion H; subst v'. cbn. repeat split; try lia; apply Hh; assumption.
  - destruct (show_help v) eqn:Hs.
    + int_ops H. inversion H; subst v'. simpl.
      repeat split; try assumption; specialize (Hh eq_refl);
        unfold help_lines_size in *; lia.
    + inversion H; subst v'. simpl. rewrite Hs.
      repeat split; try assumption; discriminate.
  - destruct (show_help v) eqn:Hs.
    + int_ops H. inversion H; subst v'. simpl.
      change (static_cast_int help_lines_size - 1) with 10.
      repeat split; try assumption; specialize (Hh eq_refl);
        unfold help_lines_size in *; lia.
    + inversion H; subst v'. simpl. rewrite Hs.
      repeat split; try assumption; discriminate.
  - destruct (max_offset size v) as [m| |]; cbn [bind] in H; try discriminate H.
    cbn [offset_press set_offsets offset_temp] in H.
    int_ops H. inversion H; subst v'. cbn. repeat split; try lia; try exact Hh.
  - cbn [offset_press set_offsets offset_temp] in H.
    int_ops H. inversion H; subst v'. cbn. repeat split; try lia; try exact Hh.
Qed.

Lemma help_click_ok x y w v v' :
  view_ok v -> help_click x y w v = Ret v' -> view_ok v'.
Proof.
  intros G H. pose proof G as (O1 & O2 & Hh). unfold help_click in H.
  destruct (int_add w (2 * 10)) as [rw| |]; cbn [bind] in H; try discriminate H.
  destruct (Z.quot WIDTH 2 - Z.quot rw 2 <=? x);
    [|inversion H; subst v'; exact G].
  destruct (int_add _ rw) as [re| |]; cbn [bind] in H; try discriminate H.
  match type of H with
  | (if ?c then _ else _) = _ => destruct c
  end; [|inversion H; subst v'; exact G].
  match type of H with
  | Ret (if ?c then _ else _) = _ => destruct c eqn:C
  end; inversion H; subst v'; [|exact G].
  apply andb_true_iff in C as [C1 C2].
  apply Z.leb_le in C1. apply Z.ltb_lt in C2.
  change (static_cast_int help_lines_size) with 11 in C2.
  unfold view_ok, set_help.
  cbn [offset_temp offset_press show_help selected_help_item].
  split; [exact O1|]. split; [exact O2|]. intros _.
  unfold help_lines_size. split; [exact C1|].
  apply Z.lt_succ_r. exact C2.
Qed.

Lemma handle_pointer_ok size ev v v' :
  view_ok v -> handle_pointer size ev v = Ret v' -> view_ok v'.
Proof.
  intros G H. destruct ev as [x y b w|b|x]; cbn [handle_pointer] in H.
  - assert (G1 : forall v1,
              (if show_help v then help_click x y w v else Ret v) = Ret v1 -> view_ok v1).
    { intros v1 E. destruct (show_help v); [eapply help_click_ok; eassumption|].
      inversion E; subst; exact G. }
    destruct (if show_help v then help_click x y w v else Ret v) as [v1| |];
      cbn [bind] in H; try discriminate H.
    specialize (G1 v1 eq_refl). destruct G1 as (O1 & O2 & Hh).
    inversion H; subst v'. unfold view_ok.
    destruct b, (on_temp_graph x y), (on_press_graph x y); simpl;
      (split; [|split]); try assumption; try lia.
  - inversion H; subst v'. destruct b; exact G.
  - destruct (dragging v); [|inversion H; subst; exact G].
    destruct (int_sub (drag_start_x v) x) as [d| |]; cbn [bind] in H; try discriminate H.
    destruct (max_offset size v) as [m| |]; cbn [bind] in H; try discriminate H.
    destruct (int_add (offset_temp v) (Z.quot d 10)) as [t| |];
      cbn [bind] in H; try discriminate H.
    destruct (clamp_int t 0 m) as [ot| |] eqn:Ct; cbn [bind] in H; try discriminate H.
    destruct (int_add (offset_press v) (Z.quot d 10)) as [p| |];
      cbn [bind] in H; try discriminate H.
    destruct (clamp_int p 0 m) as [op| |] eqn:Cp; cbn [bind] in H; try discriminate H.
    inversion H; subst v'. destruct G as (O1 & O2 & Hh).
    apply clamp_int_range in Ct, Cp.
    unfold view_ok. simpl. (split; [|split]); try lia; try exact Hh.
Qed.

(** X20. No event makes a scroll position negative or moves the help
    selection off the help lines: whenever a key or a pointer event is
    handled without undefined behaviour, the two scroll positions are
    still at least 0 and, while the help is shown, the selected item is
    still one of the lines 1 to 10. *)
Theorem events_keep_the_view_valid (size : Z) (v : view) :
  view_ok v ->
  (forall k v', handle_view_key size k v = Ret v' -> view_ok v') /\
  (forall ev v', handle_pointer size ev v = Ret v' -> view_ok v').
Proof.
  intros G. split.
  - intros k v'. apply handle_view_key_ok. exact G.
  - intros ev v'. apply handle_pointer_ok. exact G.
Qed.

Lemma events_keep_the_view_valid_witness :
  (forall k v', handle_view_key 0 k initial_view = Ret v' -> view_ok v') /\
  (forall ev v', handle_pointer 0 ev initial_view = Ret v' -> view_ok v').
Proof.
  apply (events_keep_the_view_valid 0 initial_view).
  split; [simpl; lia|]. split; [simpl; lia|]. discriminate.
Defined.

(** X21. Dragging while the buffer holds fewer samples than the
    temperature graph shows is undefined behaviour: the upper bound
    handed to [std::clamp] is then negative, below its lower bound 0,
    which [std::clamp] does not allow.  With the initial zoom this is the
    case until the buffer is full. *)
Theorem drag_with_short_history_is_undefined (size x n : Z) (v : view) :
  dragging v = true ->
  float_to_int (F32.div (F32.of_int MAX_POINTS) (zoom_temp v)) = Ret n ->
  static_cast_int size < n ->
  handle_pointer size (MotionNotify x) v = Undefined.
Proof.
  intros Hd Hn Hs. cbn [handle_pointer]. rewrite Hd.
  unfold max_offset. rewrite Hn. cbn [bind].
  unfold int_sub, int_add, int_checked.
  destruct (in_int (drag_start_x v - x)); cbn [bind]; [|reflexivity].
  destruct (in_int (static_cast_int size - n)); cbn [bind]; [|reflexivity].
  destruct (in_int (offset_temp v + Z.quot (drag_start_x v - x) 10)); cbn [bind];
    [|reflexivity].
  unfold clamp_int at 1.
  destruct (Z.ltb_spec (static_cast_int size - n) 0); [reflexivity|lia].
Qed.

Lemma drag_with_short_history_is_undefined_witness :
  handle_pointer 0 (MotionNotify 90) dragging_view = Undefined.
Proof.
  apply (drag_with_short_history_is_undefined 0 90 300 dragging_view).
  - reflexivity.
  - vm_compute. reflexivity.
  - vm_compute. reflexivity.
Defined.

Lemma float_ltb_leb (a b : float) : float_ltb a b = true -> F32.leb a b = true.
Proof.
  intros H. apply float_ltb_key in H as (Ha & Hb & K).
  apply float_leb_key. repeat split; try assumption.
  unfold key_lt in K. unfold key_le. lia.
Qed.

Lemma zoom_in_at_most_ten (z : float) : F32.leb (zoom_in z) (F32.of_int 10) = true.
Proof.
  unfold zoom_in, std_min.
  destruct (float_ltb (float_mul z one_and_a_half) (F32.of_int 10)) eqn:E.
  - apply float_ltb_leb. exact E.
  - reflexivity.
Qed.

Lemma zoom_out_at_least_one (z : float) : F32.leb (F32.of_int 1) (zoom_out z) = true.
Proof.
  unfold zoom_out, std_max.
  destruct (float_ltb (F32.of_int 1) (F32.div z one_and_a_half)) eqn:E.
  - apply float_ltb_leb. exact E.
  - reflexivity.
Qed.

(** X22. While the help is hidden, zooming in never takes a zoom factor
    above 10 and zooming out never takes one below 1, whatever the factor
    was before, a NaN included: after the key [+] both horizontal factors
    are at most 10, after the key [-] both are at least 1, and both keys
    reset the two scroll positions to 0; the keys Up and Down do the same
    to the vertical factors. *)
Theorem zoom_keys_stay_in_range (size : Z) (v : view) :
  show_help v = false ->
  (exists v', handle_view_key size Key_plus v = Ret v' /\
     F32.leb (zoom_temp v') (F32.of_int 10) = true /\
     F32.leb (zoom_press v') (F32.of_int 10) = true /\
     offset_temp v' = 0 /\ offset_press v' = 0) /\
  (exists v', handle_view_key size Key_minus v = Ret v' /\
     F32.leb (F32.of_int 1) (zoom_temp v') = true /\
     F32.leb (F32.of_int 1) (zoom_press v') = true /\
     offset_temp v' = 0 /\ offset_press v' = 0) /\
  (exists v', handle_view_key size Key_Up v = Ret v' /\
     F32.leb (vzoom_temp v') (F32.of_int 10) = true /\
     F32.leb (vzoom_press v') (F32.of_int 10) = true) /\
  (exists v', handle_view_key size Key_Down v = Ret v' /\
     F32.leb (F32.of_int 1) (vzoom_temp v') = true /\
     F32.leb (F32.of_int 1) (vzoom_press v') = true).
Proof.
  intros Hs. split; [|split; [|split]].
  - eexists. split; [reflexivity|]. cbn [zoom_temp zoom_press offset_temp offset_press
      set_offsets set_zooms].
    repeat split; apply zoom_in_at_most_ten.
  - eexists. split; [reflexivity|]. cbn [zoom_temp zoom_press offset_temp offset_press
      set_offsets set_zooms].
    repeat split; apply zoom_out_at_least_one.
  - cbn [handle_view_key]. rewrite Hs.
    eexists. split; [reflexivity|]. cbn [vzoom_temp vzoom_press set_vzooms].
    split; apply zoom_in_at_most_ten.
  - cbn [handle_view_key]. rewrite Hs.
    eexists. split; [reflexivity|]. cbn [vzoom_temp vzoom_press set_vzooms].
    split; apply zoom_out_at_least_one.
Qed.

Lemma zoom_keys_stay_in_range_witness :
  (exists v', handle_view_key 0 Key_plus initial_view = Ret v' /\
     F32.leb (zoom_temp v') (F32.of_int 10) = true /\
     F32.leb (zoom_press v') (F32.of_int 10) = true /\
     offset_temp v' = 0 /\ offset_press v' = 0) /\
  (exists v', handle_view_key 0 Key_minus initial_view = Ret v' /\
     F32.leb (F32.of_int 1) (zoom_temp v') = true /\
     F32.leb (F32.of_int 1) (zoom_press v') = true /\
     offset_temp v' = 0 /\ offset_press v' = 0) /\
  (exists v', handle_view_key 0 Key_Up initial_view = Ret v' /\
     F32.leb (vzoom_temp v') (F32.of_int 10) = true /\
     F32.leb (vzoom_press v') (F32.of_int 10) = true) /\
  (exists v', handle_view_key 0 Key_Down initial_view = Ret v' /\
     F32.leb (F32.of_int 1) (vzoom_temp v') = true /\
     F32.leb (F32.of_int 1) (vzoom_press v') = true).
Proof.
  apply (zoom_keys_stay_in_range 0 initial_view).
  reflexivity.
Defined.

(** X23. Whatever scroll position the events have left, negative or
    beyond the buffer, [draw_graph] starts inside the buffer: with fewer
    than two samples it draws nothing, and otherwise the index of the
    first sample drawn lies between 0 and [size - 2], so that reading it
    does not throw, and the average taken over the visible samples is the
    mean of the samples from that index on, [max_points] of them at
    most. *)
Theorem graph_window_starts_inside_the_buffer (g : BMP280Gui) (v : view)
    (is_temp : bool) (start max_points : Z) :
  CircularBuffer.wf (history g) ->
  graph_window g v is_temp = Ret (Some (start, max_points)) ->
  0 <= start <= CircularBuffer.get_size (history g) - 2 /\
  (exists d, CircularBuffer.at_ (history g) start = Ret d) /\
  (INT_MIN <= start + max_points <= INT_MAX ->
   compute_visible_average g is_temp start max_points =
     Ret (average (CircularBuffer.field is_temp <$>
                     take (Z.to_nat max_points)
                       (drop (Z.to_nat start) (CircularBuffer.logical (history g)))))).
Proof.
  intros W H. unfold graph_window in H.
  pose proof (CircularBuffer.wf_size _ W) as Hs. unfold MAX_POINTS in Hs.
  unfold CircularBuffer.get_size in *.
  destruct (Z.ltb_spec (CircularBuffer.size (history g)) 2) as [L|L]; [discriminate H|].
  assert (Hc : static_cast_int (CircularBuffer.size (history g))
               = CircularBuffer.size (history g))
    by (unfold static_cast_int; lia).
  rewrite Hc in H.
  destruct (clamp_float _ _ _) as [zoom| |]; cbn [bind] in H; try discriminate H.
  destruct (clamp_int _ _ _) as [offset| |]; cbn [bind] in H; try discriminate H.
  destruct (float_to_int _) as [mp| |]; cbn [bind] in H; try discriminate H.
  int_ops H. inversion H; subst start max_points. clear H.
  assert (Hst : 0 <= Z.max 0 (Z.min (CircularBuffer.size (history g) - 2)
                                 (CircularBuffer.size (history g) - mp - offset))
                <= CircularBuffer.size (history g) - 2) by lia.
  split; [exact Hst|]. split.
  - assert (Hin : 0 <= Z.max 0 (Z.min (CircularBuffer.size (history g) - 2)
                                   (CircularBuffer.size (history g) - mp - offset))
                  < CircularBuffer.size (history g)) by lia.
    destruct (at_in_range (history g) _ W Hin) as (d & Hd & _).
    exists d. exact Hd.
  - intros Hr. apply compute_visible_average_from; [exact W| |exact Hr].
    unfold INT_MAX. lia.
Qed.

Lemma graph_window_starts_inside_the_buffer_witness :
  0 <= 0 <= CircularBuffer.get_size (history plain_gui) - 2 /\
  (exists d, CircularBuffer.at_ (history plain_gui) 0 = Ret d) /\
  (INT_MIN <= 0 + 300 <= INT_MAX ->
   compute_visible_average plain_gui true 0 300 =
     Ret (average (CircularBuffer.field true <$>
                     take (Z.to_nat 300)
                       (drop (Z.to_nat 0)
                          (CircularBuffer.logical (history plain_gui)))))).
Proof.
  apply (graph_window_starts_inside_the_buffer plain_gui initial_view true 0 300).
  - split; vm_compute; try reflexivity; split; (discriminate || reflexivity).
  - vm_compute. reflexivity.
Defined.

End View.

(** ** The first start *)

Section FirstStart.

Lemma default_config_read_back (t : Z) (g : BMP280Gui) :
  foldl (config_line t) (default_settings, g) (Stream.getlines default_config_text)
    = (first_start_settings, g).
Proof. vm_compute. reflexivity. Qed.

(** X24. On a first start, with no configuration file and a disk that
    takes it, [load_config] writes the default file, which is not the
    error log, and reads it back: the baud rate, the save interval, the
    separator, the four bounds and the two background colours are the
    built-in defaults, but each of the four graph colours comes back with
    an equals sign in front, [=blue], [=red], [=green], [=yellow].  No
    other file than the configuration file and the error log is
    touched. *)
Theorem first_start_reads_back_the_defaults (path : text) (w : world) (fs : files)
    (g : BMP280Gui) :
  fs path = None ->
  path <> error_log ->
  ofstream_opens w = true ->
  (length default_config_text <= write_limit w)%nat ->
  ifstream_opens w = true ->
  snd (fst (load_config path w fs g)) = Some first_start_settings /\
  baud_rate (fst (fst (load_config path w fs g))) = B9600 /\
  save_interval (fst (fst (load_config path w fs g))) = 30 /\
  csv_delimiter (fst (fst (load_config path w fs g))) = ascii_of_N 44 /\
  snd (load_config path w fs g) path = Some default_config_text /\
  (forall p, p <> path -> p <> error_log -> snd (load_config path w fs g) p = fs p).
Proof.
  intros Hf _ Ho Hl Hi.
  assert (E : load_config path w fs g =
            (set_csv_delimiter (ascii_of_N 44)
               (set_save_interval 30 (set_baud_rate B9600 g)),
             Some first_start_settings,
             write_file path default_config_text fs)).
  { unfold load_config, create_default_config.
    rewrite Hf, Ho, Hi. cbn [negb].
    destruct (Nat.ltb_spec (write_limit w) (length default_config_text)) as [C|_]; [lia|].
    rewrite take_ge by exact Hl.
    unfold write_file at 1. rewrite text_eqb_refl.
    rewrite default_config_read_back. reflexivity. }
  rewrite E. cbn [fst snd].
  split; [reflexivity|]. split; [reflexivity|]. split; [reflexivity|].
  split; [reflexivity|]. split.
  - unfold write_file. now rewrite text_eqb_refl.
  - intros p Hp _. unfold write_file. now rewrite (text_eqb_false _ _ Hp).
Qed.

Lemma first_start_reads_back_the_defaults_witness :
  snd (fst (load_config (chars "bmp280.ini") writable_world no_files connected_gui))
    = Some first_start_settings /\
  baud_rate (fst (fst (load_config (chars "bmp280.ini") writable_world no_files
                         connected_gui))) = B9600 /\
  save_interval (fst (fst (load_config (chars "bmp280.ini") writable_world no_files
                             connected_gui))) = 30 /\
  csv_delimiter (fst (fst (load_config (chars "bmp280.ini") writable_world no_files
                             connected_gui))) = ascii_of_N 44 /\
  snd (load_config (chars "bmp280.ini") writable_world no_files connected_gui)
      (chars "bmp280.ini") = Some default_config_text /\
  (forall p, p <> chars "bmp280.ini" -> p <> error_log ->
     snd (load_config (chars "bmp280.ini") writable_world no_files connected_gui) p
       = no_files p).
Proof.
  apply (first_start_reads_back_the_defaults (chars "bmp280.ini") writable_world
           no_files connected_gui).
  - reflexivity.
  - vm_compute. discriminate.
  - reflexivity.
  - apply Nat.leb_le. vm_compute. reflexivity.
  - reflexivity.
Defined.

End FirstStart.

(** * C8: a line that does not fit the pending buffer

    The reader once the pending buffer is full, read by read and through
    the turns of the loop. *)

Section FullBuffer.

Lemma same_reader_refl g : same_reader g g.
Proof. repeat split. Qed.

Lemma same_reader_trans g1 g2 g3 :
  same_reader g1 g2 -> same_reader g2 g3 -> same_reader g1 g3.
Proof.
  intros (A1 & A2 & A3) (B1 & B2 & B3). unfold same_reader.
  rewrite B1, B2, B3. auto.
Qed.

Lemma same_data_same_reader g g' : same_data g g' -> same_reader g g'.
Proof. intros (H1 & H2 & H3 & _). repeat split; assumption. Qed.

(** With [BUFFER_SIZE - 1] bytes pending a read takes nothing. *)
Lemma read_serial_full w g :
  serial_buf_pos g = BUFFER_SIZE - 1 ->
  same_reader g (read_serial w g) /\
  (delivers w = true -> read_serial w g = g).
Proof.
  intros Hfull. unfold read_serial, delivers.
  destruct ((fd g =? -1) || paused g).
  { split; [apply same_reader_refl|reflexivity]. }
  destruct (Z.ltb_spec (select_ready w) 0) as [Hneg|Hsel].
  { split; [repeat split|].
    destruct (incoming w); [|discriminate].
    intros H. apply Z.leb_le in H. lia. }
  destruct (select_ready w =? 0).
  { split; [apply same_reader_refl|reflexivity]. }
  destruct (incoming w) as [data|eagain].
  - rewrite Hfull.
    replace (BUFFER_SIZE - (BUFFER_SIZE - 1) - 1) with 0 by lia.
    cbn [Z.to_nat]. rewrite take_0. cbn [length Z.of_nat Z.leb Z.compare].
    split; [apply same_reader_refl|reflexivity].
  - split; [|discriminate].
    destruct eagain; [apply same_reader_refl|repeat split].
Qed.

Lemma read_all_full ws : forall g,
  serial_buf_pos g = BUFFER_SIZE - 1 ->
  same_reader g (read_all ws g) /\
  (forallb delivers ws = true -> read_all ws g = g).
Proof.
  induction ws as [|w ws IH]; intros g Hfull; cbn [read_all foldl forallb].
  - split; [apply same_reader_refl|reflexivity].
  - fold (read_all ws (read_serial w g)).
    destruct (read_serial_full w g Hfull) as [S E].
    assert (Hfull' : serial_buf_pos (read_serial w g) = BUFFER_SIZE - 1)
      by (destruct S as (-> & _); exact Hfull).
    destruct (IH _ Hfull') as [S' E'].
    split; [eapply same_reader_trans; eassumption|].
    intros H. apply andb_true_iff in H as [H1 H2].
    rewrite E' by exact H2. apply E, H1.
Qed.

Lemma save_data_same_data w fs g g' fs' :
  save_data w fs g = Ret (g', fs') -> same_data g g'.
Proof.
  unfold save_data. intros H.
  destruct (negb (ofstream_opens w)).
  { inversion H; subst. apply same_data_add_error. }
  destruct (save_rows _ 0 (history g) (csv_delimiter g)) as [content|e|];
    cbn [bind] in H; try discriminate H.
  destruct (_ <? _)%nat.
  { inversion H; subst. apply same_data_add_error. }
  destruct (rename_what w); inversion H; subst; apply same_data_add_error.
Qed.

Lemma handle_event_same_reader w ev g fs g' fs' :
  handle_event w ev (g, fs) = Ret (g', fs') -> same_reader g g'.
Proof.
  destruct ev as [[|input| | |typed|]|]; cbn [handle_event]; intros H;
    try discriminate H.
  - apply save_data_same_data, same_data_same_reader in H.
    destruct input; [exact H|].
    eapply same_reader_trans; [|exact H]. repeat split.
  - inversion H; subst. repeat split.
  - inversion H; subst. clear H.
    destruct (negb (fd g =? -1)); repeat split.
  - destruct typed as [baud|].
    + destruct (negb (baud =? 9600) && negb (baud =? 115200)).
      * inversion H; subst. apply same_data_same_reader, same_data_add_error.
      * inversion H; subst. clear H.
        eapply same_reader_trans;
          [|apply same_data_same_reader, same_data_add_error].
        set (g1 := set_baud_rate _ g).
        destruct (negb (fd g =? -1)); [|repeat split].
        eapply same_reader_trans;
          [|apply same_data_same_reader, same_data_try_reconnect].
        repeat split.
    + inversion H; subst. apply same_data_same_reader, same_data_add_error.
  - inversion H; subst. apply same_reader_refl.
  - inversion H; subst. apply same_reader_refl.
Qed.

Lemma handle_events_same_reader w evs : forall g fs g' fs',
  handle_events w evs (g, fs) = Ret (g', fs') -> same_reader g g'.
Proof.
  induction evs as [|ev evs IH]; intros g fs g' fs' H; cbn [handle_events] in H.
  - inversion H; subst. apply same_reader_refl.
  - destruct (handle_event w ev (g, fs)) as [[g1 fs1]|e|] eqn:E;
      cbn [bind] in H; try discriminate H.
    eapply same_reader_trans; [eapply handle_event_same_reader, E|eapply IH, H].
Qed.

Lemma update_state_full w g fs g' fs' :
  serial_buf_pos g = BUFFER_SIZE - 1 ->
  update_state w (g, fs) = Ret (g', fs') -> same_reader g g'.
Proof.
  intros Hfull H. unfold update_state in H.
  pose proof (same_data_same_reader _ _ (same_data_try_reconnect w g)) as S0.
  assert (Hfull0 : serial_buf_pos (try_reconnect w g) = BUFFER_SIZE - 1)
    by (destruct S0 as (-> & _); exact Hfull).
  destruct (read_serial_full w _ Hfull0) as [S1 _].
  pose proof (same_reader_trans _ _ _ S0 S1) as S. clear S0 S1 Hfull0.
  set (g1 := read_serial w (try_reconnect w g)) in *.
  destruct (negb (paused g1) && (save_interval g1 <=? now w - last_save g1)).
  - destruct (save_data w fs g1) as [[g2 fs2]|e|] eqn:E; cbn [bind] in H;
      try discriminate H.
    inversion H; subst. cbn [fst].
    apply save_data_same_data, same_data_same_reader in E.
    eapply same_reader_trans; [exact S|].
    eapply same_reader_trans; [exact E|]. repeat split.
  - inversion H; subst. exact S.
Qed.

Lemma run_once_full tk g fs g' fs' :
  serial_buf_pos g = BUFFER_SIZE - 1 ->
  run_once tk (g, fs) = Ret (g', fs') -> same_reader g g'.
Proof.
  intros Hfull H. destruct tk as [evs w]. unfold run_once in H.
  destruct (handle_events w evs (g, fs)) as [[g1 fs1]|e|] eqn:E1;
    cbn [bind] in H; try discriminate H.
  apply handle_events_same_reader in E1.
  assert (Hfull1 : serial_buf_pos g1 = BUFFER_SIZE - 1)
    by (destruct E1 as (-> & _); exact Hfull).
  destruct (update_state w (g1, fs1)) as [[g2 fs2]|e|] eqn:E2;
    cbn [bind] in H; try discriminate H.
  apply (update_state_full _ _ _ _ _ Hfull1) in E2.
  inversion H; subst. cbn [fst].
  eapply same_reader_trans; [exact E1|].
  eapply same_reader_trans; [exact E2|].
  destruct (error_messages g2); [apply same_reader_refl|].
  destruct (ERROR_DISPLAY_TIME <? now w - last_error_time g2);
    repeat split.
Qed.

Lemma run_full ticks : forall g fs g' fs',
  serial_buf_pos g = BUFFER_SIZE - 1 ->
  run ticks (g, fs) = Ret (g', fs') -> same_reader g g'.
Proof.
  induction ticks as [|tk ticks IH]; intros g fs g' fs' Hfull H; cbn [run] in H.
  - inversion H; subst. apply same_reader_refl.
  - destruct (run_once tk (g, fs)) as [[g1 fs1]|e|] eqn:E;
      cbn [bind] in H; try discriminate H.
    apply (run_once_full _ _ _ _ _ Hfull) in E.
    assert (Hfull1 : serial_buf_pos g1 = BUFFER_SIZE - 1)
      by (destruct E as (-> & _); exact Hfull).
    eapply same_reader_trans; [exact E|eapply IH; eassumption].
Qed.

End FullBuffer.

(** C8, as the code has it.  [read_serial] has no error for a line that
    is too long and never drops pending bytes.  Once [BUFFER_SIZE - 1]
    bytes are pending, every read asks for 0 bytes and returns: whatever
    the line brings afterwards, the position, the pending bytes and the
    ring buffer stay what they are, and while bytes are waiting the whole
    state stays what it is, so no error is reported either.  Nothing in
    the loop of [run] resets the position (keys, reconnection and saving
    included): the reader does not recover and no sample is stored any
    more. *)
Theorem full_buffer_stops_the_reader (ws : list world) (g : BMP280Gui) :
  serial_buf_pos g = BUFFER_SIZE - 1 ->
  same_reader g (read_all ws g) /\
  (forallb delivers ws = true -> read_all ws g = g) /\
  (forall ticks fs g' fs',
     run ticks (g, fs) = Ret (g', fs') ->
     serial_buf_pos g' = BUFFER_SIZE - 1 /\
     pending g' = pending g /\
     history g' = history g).
Proof.
  intros Hfull. destruct (read_all_full ws g Hfull) as [S E].
  split; [exact S|]. split; [exact E|].
  intros ticks fs g' fs' H.
  destruct (run_full ticks g fs g' fs' Hfull H) as (H1 & H2 & H3).
  unfold pending. rewrite H1, H2, H3. auto.
Qed.

Lemma full_buffer_stops_the_reader_witness :
  serial_buf_pos stuck_gui = BUFFER_SIZE - 1 /\
  forallb delivers later_worlds = true /\
  read_all later_worlds stuck_gui = stuck_gui /\
  (forall ticks fs g' fs',
     run ticks (stuck_gui, fs) = Ret (g', fs') ->
     serial_buf_pos g' = BUFFER_SIZE - 1 /\
     pending g' = pending stuck_gui /\
     history g' = history stuck_gui).
Proof.
  destruct (full_buffer_stops_the_reader later_worlds stuck_gui) as (_ & E & R).
  - reflexivity.
  - split; [reflexivity|]. split; [reflexivity|]. split; [apply E; reflexivity|exact R].
Defined.

(** C8 at the failing input: 300 bytes without a newline fill the
    pending buffer and no error is reported; the next read, which would
    bring a newline, changes nothing: still no error, the 255 pending
    bytes are still there. *)
Lemma full_buffer_is_neither_reported_nor_dropped :
  serial_buf_pos stuck_gui = BUFFER_SIZE - 1 /\
  forallb (fun c => negb (char_eqb c newline)) (pending stuck_gui) = true /\
  error_messages stuck_gui = [] /\
  persistent_errors stuck_gui = [] /\
  read_serial demo_world stuck_gui = stuck_gui.
Proof. vm_compute. repeat split. Qed.
